(** * Sonar coverage reporter: classification, filtering, CSV report, orchestration

    A shallow embedding of the TypeScript package [sonar-coverage-reporter]:
    - [SpanishCoverageClassifier]  (implementations/spanish-coverage-classifier.ts)
    - the filter strategies and [ProjectFilterBuilder]
      (implementations/filter-strategies.ts)
    - [PapaparseCsvReporter]       (implementations/papaparse-csv-reporter.ts)
    - [DefaultReportOrchestrator]  (implementations/default-report-orchestrator.ts)

    JavaScript numbers are IEEE 754 binary64 values, modelled by Rocq's
    primitive floats; run-time values whose type the code inspects with
    [typeof] are modelled by [JsValue]; exceptions by the [Result] type. *)

From Stdlib Require Import ZArith Bool List String Ascii Floats DecimalString.
From stdpp Require Import base strings gmap list.

Import ListNotations.
Local Open Scope string_scope.

(** ** JavaScript values *)

Module Js.

(** The run-time values the package looks at.  [JError ctor msg] is an object
    created by [new ctor(msg)] for [ctor] the class [Error] or one of its
    subclasses, named after its class; [JObject] is a plain object literal
    with its own properties in insertion order; [JDate t] is a [Date] with
    time value [t]. *)
#[warnings="-register-all"]
Inductive JsValue : Type :=
| JUndefined
| JNull
| JBool (b : bool)
| JNumber (n : float)
| JString (s : string)
| JDate (t : float)
| JError (ctor : string) (message : string)
| JArray (items : list JsValue)
| JObject (props : list (string * JsValue)).

(** [typeof v] *)
Definition typeof (v : JsValue) : string :=
  match v with
  | JUndefined => "undefined"
  | JBool _ => "boolean"
  | JNumber _ => "number"
  | JString _ => "string"
  | JNull | JDate _ | JError _ _ | JArray _ | JObject _ => "object"
  end.

(** [Number.isNaN], [Number.isFinite] on a number *)
Definition Number_isNaN (n : float) : bool := PrimFloat.is_nan n.
Definition Number_isFinite (n : float) : bool := PrimFloat.is_finite n.

(** ToBoolean: [undefined], [null], [false], [0], [-0], [NaN] and the empty
    string are falsy. *)
Definition truthy (v : JsValue) : bool :=
  match v with
  | JUndefined | JNull => false
  | JBool b => b
  | JNumber n => negb (PrimFloat.eqb n 0 || Number_isNaN n)
  | JString s => negb (String.eqb s "")
  | JDate _ | JError _ _ | JArray _ | JObject _ => true
  end.

Fixpoint own_property (props : list (string * JsValue)) (k : string) : JsValue :=
  match props with
  | [] => JUndefined
  | (k', v) :: rest => if String.eqb k' k then v else own_property rest k
  end.

(** [v.k] for a value that is not [undefined] or [null]: the own properties
    of a plain object, the [message] and the [name] of an error; primitives,
    dates and arrays have none of the properties the package reads. *)
Definition get (v : JsValue) (k : string) : JsValue :=
  match v with
  | JObject props => own_property props k
  | JError ctor m =>
      if String.eqb k "message" then JString m
      else if String.eqb k "name" then JString ctor
      else JUndefined
  | _ => JUndefined
  end.

(** [v instanceof Error], [v instanceof ReportError] *)
Definition instanceof_Error (v : JsValue) : bool :=
  match v with JError _ _ => true | _ => false end.

Definition instanceof_ReportError (v : JsValue) : bool :=
  match v with JError ctor _ => String.eqb ctor "ReportError" | _ => false end.

Definition Array_isArray (v : JsValue) : bool :=
  match v with JArray _ => true | _ => false end.

(** The outcome of a call: a returned value or a thrown one. *)
Inductive Result (A : Type) : Type :=
| Ok (a : A)
| Throw (e : JsValue).
Arguments Ok {A} a.
Arguments Throw {A} e.

Definition bind {A B} (r : Result A) (f : A -> Result B) : Result B :=
  match r with Ok a => f a | Throw e => Throw e end.

(** [new Error(msg)] *)
Definition new_Error (msg : string) : JsValue := JError "Error" msg.

End Js.
Import Js.

(** ** types/project.ts *)

Inductive CoverageCategory : Type :=
| SIN_COVERAGE
| NO_PASA_MINIMO
| SI_PASA_MINIMO.

(** The string value of each enum member. *)
Definition category_label (c : CoverageCategory) : string :=
  match c with
  | SIN_COVERAGE => "Sin coverage"
  | NO_PASA_MINIMO => "No pasa del mínimo esperado"
  | SI_PASA_MINIMO => "Si pasa el mínimo esperado"
  end.

(** A [ProjectData] object.  [lastAnalysis] is the time value of the [Date]. *)
Record ProjectData := {
  name : string;
  key : string;
  coveragePercent : float;
  metadata : JsValue;
  lastAnalysis : float
}.

(** Arrays of projects hold references to [ProjectData] objects: two slots
    alias the same object exactly when they hold the same reference.  The
    objects are never mutated, so the store is a fixed map from references
    to objects. *)
Definition ProjectRef := positive.
Definition Store := ProjectRef -> ProjectData.

Record CategorizedProject := {
  project : ProjectRef;
  category : CoverageCategory;
  threshold : float
}.

(** ** implementations/spanish-coverage-classifier.ts *)

Module SpanishCoverageClassifier.

(** types/classification.ts: [CoverageValidationResult] *)
Record CoverageValidationResult := {
  isValid : bool;
  errorMessage : option string;
  normalizedValue : option float
}.

Definition invalid (msg : string) : CoverageValidationResult :=
  {| isValid := false; errorMessage := Some msg; normalizedValue := None |}.

Definition validateCoverageInternal (coverage : JsValue) : CoverageValidationResult :=
  match coverage with
  | JNumber c =>
      if Number_isNaN c then invalid "Coverage cannot be NaN"
      else if negb (Number_isFinite c) then invalid "Coverage must be a finite number"
      else if PrimFloat.ltb c 0 then invalid "Coverage cannot be negative"
      else if PrimFloat.ltb 100 c then invalid "Coverage cannot exceed 100%"
      else {| isValid := true; errorMessage := None; normalizedValue := Some c |}
  | _ => invalid "Coverage must be a number"
  end.

Definition validateCoverage (coverage : JsValue) : bool :=
  isValid (validateCoverageInternal coverage).

Definition getZeroCoverageCategory : CoverageCategory := SIN_COVERAGE.

(** The template literal [`${validation.errorMessage}`]. *)
Definition template_of (s : option string) : string :=
  match s with Some m => m | None => "undefined" end.

Definition classify (coverage : JsValue) (threshold : float) : Result CoverageCategory :=
  let validation := validateCoverageInternal coverage in
  if negb (isValid validation) then
    Throw (new_Error ("Invalid coverage value: " ++ template_of (errorMessage validation)))
  else
    match normalizedValue validation with
    | None => Ok NO_PASA_MINIMO (* [undefined === 0] and [undefined >= t] are false *)
    | Some normalizedCoverage =>
        if PrimFloat.eqb normalizedCoverage 0 then Ok getZeroCoverageCategory
        else if PrimFloat.leb threshold normalizedCoverage then Ok SI_PASA_MINIMO
        else Ok NO_PASA_MINIMO
    end.

(** What [classify] throws when validation fails with [reason]. *)
Definition rejected (reason : string) : Result CoverageCategory :=
  Throw (new_Error ("Invalid coverage value: " ++ reason)).

End SpanishCoverageClassifier.


(** ** implementations/filter-strategies.ts *)

(** [Array.prototype.filter] with a callback that may throw: the callback runs
    on the elements in order and the first exception ends the call. *)
Fixpoint Array_filter {A} (callback : A -> Result bool) (l : list A) : Result (list A) :=
  match l with
  | [] => Ok []
  | x :: rest =>
      bind (callback x) (fun keep =>
      bind (Array_filter callback rest) (fun kept =>
      Ok (if keep then x :: kept else kept)))
  end.

(** [Array.prototype.reduce] with an initial value. *)
Fixpoint Array_reduce {A B} (callback : B -> A -> Result B) (l : list A) (initial : B)
  : Result B :=
  match l with
  | [] => Ok initial
  | x :: rest => bind (callback initial x) (Array_reduce callback rest)
  end.

(** [Array.prototype.join] *)
Fixpoint Array_join (sep : string) (l : list string) : string :=
  match l with
  | [] => ""
  | [x] => x
  | x :: rest => x ++ sep ++ Array_join sep rest
  end.

(** types/filtering.ts *)
Definition ProjectPredicate := ProjectRef -> Result bool.

Record FilterStrategy := {
  apply : list ProjectRef -> Result (list ProjectRef);
  canHandle : string -> bool;
  getName : string
}.

Record CoverageFilter := {
  minCoverage : option float;
  maxCoverage : option float
}.

Module FilterStrategies.

Definition CoverageFilterStrategy (store : Store) (config : CoverageFilter) : FilterStrategy := {|
  apply projects :=
    Array_filter (fun p =>
      let coverage := coveragePercent (store p) in
      if match minCoverage config with
         | Some lo => PrimFloat.ltb coverage lo
         | None => false
         end then Ok false
      else if match maxCoverage config with
              | Some hi => PrimFloat.ltb hi coverage
              | None => false
              end then Ok false
      else Ok true) projects;
  canHandle filterType := String.eqb filterType "coverage";
  getName := "CoverageFilter"
|}.

Definition PredicateFilterStrategy (predicate : ProjectPredicate) (name : string)
  : FilterStrategy := {|
  apply projects := Array_filter predicate projects;
  canHandle filterType :=
    String.eqb filterType "predicate" || String.eqb filterType "custom";
  getName := name
|}.

Definition AndFilterStrategy (strategies : list FilterStrategy) : FilterStrategy := {|
  apply projects :=
    Array_reduce (fun filtered strategy => apply strategy filtered) strategies projects;
  canHandle filterType :=
    String.eqb filterType "and" || String.eqb filterType "combined";
  getName := "AndFilter(" ++ Array_join ", " (map getName strategies) ++ ")"
|}.

(** A [Set<ProjectData>]: the references added so far, in insertion order.
    [Set.prototype.add] compares by identity and keeps the first insertion. *)
Definition ProjectSet := list ProjectRef.

Definition Set_has (s : ProjectSet) (p : ProjectRef) : bool :=
  existsb (Pos.eqb p) s.

Definition Set_add (s : ProjectSet) (p : ProjectRef) : ProjectSet :=
  if Set_has s p then s else (s ++ [p])%list.

(** [filtered.forEach(project => results.add(project))] *)
Definition forEach_add (filtered : list ProjectRef) (results : ProjectSet) : ProjectSet :=
  fold_left Set_add filtered results.

(** The [for ... of] loop of [OrFilterStrategy.apply]. *)
Fixpoint or_loop (strategies : list FilterStrategy) (projects : list ProjectRef)
    (results : ProjectSet) : Result ProjectSet :=
  match strategies with
  | [] => Ok results
  | strategy :: rest =>
      bind (apply strategy projects) (fun filtered =>
      or_loop rest projects (forEach_add filtered results))
  end.

Definition OrFilterStrategy (strategies : list FilterStrategy) : FilterStrategy := {|
  apply projects :=
    if Nat.eqb (length strategies) 0 then Ok projects
    else or_loop strategies projects [];
  canHandle filterType := String.eqb filterType "or";
  getName := "OrFilter(" ++ Array_join ", " (map getName strategies) ++ ")"
|}.

(** [ProjectFilterBuilder]: the builder is its [strategies] array; every
    method pushes one strategy and returns the builder. *)
Record ProjectFilterBuilder := { strategies : list FilterStrategy }.

Definition new_ProjectFilterBuilder : ProjectFilterBuilder := {| strategies := [] |}.

Definition push (b : ProjectFilterBuilder) (s : FilterStrategy) : ProjectFilterBuilder :=
  {| strategies := (strategies b ++ [s])%list |}.

Definition addStrategy (b : ProjectFilterBuilder) (strategy : FilterStrategy) :=
  push b strategy.

Definition addPredicate (b : ProjectFilterBuilder) (predicate : ProjectPredicate) :=
  push b (PredicateFilterStrategy predicate "PredicateFilter").

Definition and (b : ProjectFilterBuilder) (filters : list FilterStrategy) :=
  push b (AndFilterStrategy filters).

Definition or (b : ProjectFilterBuilder) (filters : list FilterStrategy) :=
  push b (OrFilterStrategy filters).

Definition NoOpFilter : FilterStrategy :=
  PredicateFilterStrategy (fun _ => Ok true) "NoOpFilter".

Definition build (b : ProjectFilterBuilder) : FilterStrategy :=
  match strategies b with
  | [] => NoOpFilter
  | [only] => only
  | _ => AndFilterStrategy (strategies b)
  end.

Definition coverageAbove (store : Store) (threshold : float) : ProjectFilterBuilder :=
  addStrategy new_ProjectFilterBuilder
    (CoverageFilterStrategy store {| minCoverage := Some threshold; maxCoverage := None |}).

Definition coverageBelow (store : Store) (threshold : float) : ProjectFilterBuilder :=
  addStrategy new_ProjectFilterBuilder
    (CoverageFilterStrategy store {| minCoverage := None; maxCoverage := Some threshold |}).

(** A call on the builder, and a chain of calls from a fresh builder. *)
Inductive BuilderCall :=
| CallAddStrategy (strategy : FilterStrategy)
| CallAddPredicate (predicate : ProjectPredicate)
| CallAnd (filters : list FilterStrategy)
| CallOr (filters : list FilterStrategy).

Definition call (b : ProjectFilterBuilder) (c : BuilderCall) : ProjectFilterBuilder :=
  match c with
  | CallAddStrategy s => addStrategy b s
  | CallAddPredicate p => addPredicate b p
  | CallAnd fs => and b fs
  | CallOr fs => or b fs
  end.

Definition chain (calls : list BuilderCall) : ProjectFilterBuilder :=
  fold_left call calls new_ProjectFilterBuilder.

(** The strategy a call adds. *)
Definition added (c : BuilderCall) : FilterStrategy :=
  match c with
  | CallAddStrategy s => s
  | CallAddPredicate p => PredicateFilterStrategy p "PredicateFilter"
  | CallAnd fs => AndFilterStrategy fs
  | CallOr fs => OrFilterStrategy fs
  end.

(** The OR-combination in the words of the specification: every sub-strategy
    is applied to the original collection, the outputs are put one after the
    other in listed order, and a project is kept where it is seen first. *)
Fixpoint first_seen_from (seen : list ProjectRef) (l : list ProjectRef) : list ProjectRef :=
  match l with
  | [] => []
  | p :: rest =>
      if existsb (Pos.eqb p) seen then first_seen_from seen rest
      else p :: first_seen_from (p :: seen) rest
  end.

Definition union_first_seen (outputs : list (list ProjectRef)) : list ProjectRef :=
  first_seen_from [] (concat outputs).

End FilterStrategies.

(** ** Built-ins used by the CSV reporter *)

Module Builtins.

Definition quoteChar : string := String (ascii_of_nat 34) EmptyString.
Definition CR : string := String (ascii_of_nat 13) EmptyString.
Definition LF : string := String (ascii_of_nat 10) EmptyString.
Definition BYTE_ORDER_MARK : string :=
  String (ascii_of_nat 239) (String (ascii_of_nat 187) (String (ascii_of_nat 191) EmptyString)).

(** [hay.indexOf(needle) > -1] *)
Fixpoint contains (needle hay : string) : bool :=
  String.prefix needle hay ||
  match hay with
  | EmptyString => false
  | String _ rest => contains needle rest
  end.

(** [s.replace(/c/g, by)] for a one-character pattern *)
Fixpoint replace_char (c : ascii) (by_ : string) (s : string) : string :=
  match s with
  | EmptyString => EmptyString
  | String a rest =>
      if Ascii.eqb a c then by_ ++ replace_char c by_ rest
      else String a (replace_char c by_ rest)
  end.

Fixpoint last_char (s : string) : option ascii :=
  match s with
  | EmptyString => None
  | String a EmptyString => Some a
  | String _ rest => last_char rest
  end.

Fixpoint zeros (n : nat) : string :=
  match n with O => "" | S n' => String "0" (zeros n') end.

Definition decimal (n : Z) : string := NilEmpty.string_of_uint (N.to_uint (Z.to_N n)).

(** The digits of [Number.prototype.toFixed]: [n] is the integer nearest to
    [x * 10^f] (the larger one on a tie) and the result is its decimal
    expansion with a point before the last [f] digits. *)
Definition fixed_digits (n : Z) (f : nat) : string :=
  let m := decimal n in
  if Nat.eqb f 0 then m
  else
    let k := String.length m in
    let m := if Nat.leb k f then zeros (f + 1 - k) ++ m else m in
    let k := String.length m in
    substring 0 (k - f) m ++ "." ++ substring (k - f) f m.

(** The integer nearest to [m * 2^e * 10^f], the larger one on a tie. *)
Definition nearest_scaled (m : positive) (e : Z) (f : nat) : Z :=
  let scaled := (Z.pos m * 10 ^ Z.of_nat f)%Z in
  if (0 <=? e)%Z then (scaled * 2 ^ e)%Z
  else ((2 * scaled + 2 ^ (- e)) / 2 ^ (1 - e))%Z.

Section ToFixed.

(** ToString on a number, which [toFixed] takes only of magnitudes of 10^21
    and more. *)
Variable Number_toString : float -> string.

(** [x.toFixed(fractionDigits)], ECMA-262 21.1.3.3: exact on the binary64
    value of [x]. *)
Definition Number_toFixed (x : float) (fractionDigits : Z) : Result string :=
  if ((fractionDigits <? 0) || (100 <? fractionDigits))%Z then
    Throw (JError "RangeError" "toFixed() digits argument must be between 0 and 100")
  else
    let f := Z.to_nat fractionDigits in
    match Prim2SF x with
    | S754_nan => Ok "NaN"
    | S754_infinity negative => Ok (if negative then "-Infinity" else "Infinity")
    | S754_zero _ => Ok (fixed_digits 0 f)
    | S754_finite negative m e =>
        let sign := if negative then "-" else "" in
        if PrimFloat.leb 1e21 (PrimFloat.abs x) then
          Ok (sign ++ Number_toString (PrimFloat.abs x))
        else Ok (sign ++ fixed_digits (nearest_scaled m e f) f)
    end.

End ToFixed.

End Builtins.

(** ** papaparse *)

Module Papa.
Import Builtins.

Definition BAD_DELIMITERS : list string := [CR; LF; quoteChar; BYTE_ORDER_MARK].

Definition NEWLINE : string := CR ++ LF.

(** A row object: its properties by name.  The serializer reads a row by
    property name only, so the insertion order of the properties is left
    out. *)
Abbreviation Row := (gmap string string).

(** Modelled from the spec: the field quoting of [Papa.unparse] (npm package
    papaparse, a dependency whose source is not part of the repository):
    a missing field is empty; a field holding the delimiter, a quote, a line
    break or a leading or trailing space is quoted, its quotes doubled. *)
Definition safe (delimiter : string) (field : option string) : string :=
  match field with
  | None => ""
  | Some str =>
      let escapedQuoteStr := replace_char (ascii_of_nat 34) (quoteChar ++ quoteChar) str in
      let needsQuotes :=
        existsb (fun bad => contains bad escapedQuoteStr) BAD_DELIMITERS
        || contains delimiter escapedQuoteStr
        || String.prefix " " escapedQuoteStr
        || match last_char escapedQuoteStr with
           | Some c => Ascii.eqb c " "
           | None => false
           end in
      if needsQuotes then quoteChar ++ escapedQuoteStr ++ quoteChar else escapedQuoteStr
  end.

Definition serialize_line (delimiter : string) (fields : list (option string)) : string :=
  Array_join delimiter (map (safe delimiter) fields).

(** Modelled from the spec: the rows of [Papa.unparse]: the header row, when
    asked for, is the list of columns and comes first; the fields of every
    row are read by the listed names in the listed order; rows are separated
    by one CRLF line break, with none after the last. *)
Definition serialize (delimiter : string) (writeHeader : bool) (fields : list string)
    (data : list Row) : string :=
  let header :=
    if writeHeader then
      serialize_line delimiter (map Some fields) ++
      (if Nat.ltb 0 (length data) then NEWLINE else "")
    else "" in
  header ++
  Array_join NEWLINE (map (fun row => serialize_line delimiter (map (fun f => row !! f) fields)) data).

(** Modelled from the spec: [Papa.unparse(input, {delimiter, header, columns})]
    on an array of row objects: a delimiter holding one of [BAD_DELIMITERS]
    is replaced by the comma; an empty [columns] is refused; no row gives
    the empty string. *)
Definition unparse (input : list Row) (delimiter : string) (header : bool)
    (columns : list string) : Result string :=
  let delimiter :=
    if existsb (fun bad => contains bad delimiter) BAD_DELIMITERS then "," else delimiter in
  if Nat.eqb (length columns) 0 then Throw (new_Error "Option columns is empty")
  else if Nat.eqb (length input) 0 then Ok ""
  else Ok (serialize delimiter header columns input).

End Papa.

(** ** types/csv.ts and implementations/papaparse-csv-reporter.ts *)

Record NumberFormat := {
  decimalPlaces : option Z;
  includePercentSign : option bool
}.

(** [CsvConfig]: every property is optional; [None] is a property left out.
    [columnMapping] is given by its [Object.entries]. *)
Record CsvConfig := {
  headers : option (list string);
  delimiter : option string;
  includeHeaders : option bool;
  columnMapping : option (list (string * string));
  numberFormat : option NumberFormat
}.

Definition empty_CsvConfig : CsvConfig :=
  {| headers := None; delimiter := None; includeHeaders := None;
     columnMapping := None; numberFormat := None |}.

(** [Required<CsvConfig>] *)
Record MergedCsvConfig := {
  m_headers : list string;
  m_delimiter : string;
  m_includeHeaders : bool;
  m_columnMapping : list (string * string);
  m_numberFormat : NumberFormat
}.

Record CsvResult := {
  content : string;
  rowCount : nat;
  generatedAt : float;
  config_used : MergedCsvConfig
}.

(** The objects the orchestrator hands to the reporter, as run-time values. *)
Definition js_of_project (p : ProjectData) : JsValue :=
  JObject [("name", JString (name p)); ("key", JString (key p));
           ("coveragePercent", JNumber (coveragePercent p));
           ("metadata", metadata p); ("lastAnalysis", JDate (lastAnalysis p))].

Definition js_of_categorized (store : Store) (c : CategorizedProject) : JsValue :=
  JObject [("project", js_of_project (store (project c)));
           ("category", JString (category_label (category c)));
           ("threshold", JNumber (threshold c))].

Module PapaparseCsvReporter.
Import Builtins.

Definition DEFAULT_CSV_CONFIG : MergedCsvConfig := {|
  m_headers := ["repository"; "coverage_percent"; "category"];
  m_delimiter := ",";
  m_includeHeaders := true;
  m_columnMapping := [];
  m_numberFormat := {| decimalPlaces := Some 2%Z; includePercentSign := Some false |}
|}.

(** [{ ...DEFAULT_CSV_CONFIG, ...config }] *)
Definition merge (config : option CsvConfig) : MergedCsvConfig :=
  match config with
  | None => DEFAULT_CSV_CONFIG
  | Some c => {|
      m_headers := default (m_headers DEFAULT_CSV_CONFIG) (headers c);
      m_delimiter := default (m_delimiter DEFAULT_CSV_CONFIG) (delimiter c);
      m_includeHeaders := default (m_includeHeaders DEFAULT_CSV_CONFIG) (includeHeaders c);
      m_columnMapping := default (m_columnMapping DEFAULT_CSV_CONFIG) (columnMapping c);
      m_numberFormat := default (m_numberFormat DEFAULT_CSV_CONFIG) (numberFormat c)
    |}
  end.

(** The callback of [data.every] in [validateData]. *)
Definition valid_item (item : JsValue) : bool :=
  truthy item &&
  truthy (get item "project") &&
  String.eqb (typeof (get (get item "project") "name")) "string" &&
  String.eqb (typeof (get (get item "project") "coveragePercent")) "number" &&
  String.eqb (typeof (get item "category")) "string" &&
  String.eqb (typeof (get item "threshold")) "number".

Definition validateData (data : JsValue) : bool :=
  match data with
  | JArray items =>
      if Nat.eqb (length items) 0 then true
      else forallb valid_item items
  | _ => false
  end.

(** The string held by a value that [validateData] has checked to be one. *)
Definition string_value (v : JsValue) : string :=
  match v with JString s => s | _ => "" end.

(** [config.headers[i]] as a property name *)
Definition header_key (config : MergedCsvConfig) (i : nat) : string :=
  nth i (m_headers config) "undefined".

(** What [validateData] asks of an element, in the words of the
    specification (the name may be the empty string). *)
Definition well_formed_item (item : JsValue) : Prop :=
  exists (nm : string) (c : float) (cat : string) (th : float),
    get (get item "project") "name" = JString nm /\
    get (get item "project") "coveragePercent" = JNumber c /\
    get item "category" = JString cat /\
    get item "threshold" = JNumber th.

(** [writeToFile]: [writeFile] is [fs.promises.writeFile] with the [utf8]
    encoding, given by its outcome on a path and a content. *)
Definition writeToFile (writeFile : string -> string -> Result unit)
    (csv path : string) : Result unit :=
  match writeFile path csv with
  | Ok done => Ok done
  | Throw error =>
      Throw (new_Error ("Failed to write CSV file to " ++ path ++ ": " ++
                        match error with
                        | JError _ message => message
                        | _ => "Unknown error"
                        end))
  end.

Section Reporter.

Variable Number_toString : float -> string.

(** [coverage.toFixed] is a [TypeError] on a value that is not a number. *)
Definition formatCoverage (coverage : JsValue) (numberFormat : NumberFormat)
  : Result string :=
  match coverage with
  | JNumber c =>
      bind (Number_toFixed Number_toString c (default 0%Z (decimalPlaces numberFormat)))
        (fun formatted =>
           Ok (if default false (includePercentSign numberFormat)
               then formatted ++ "%" else formatted))
  | _ => Throw (JError "TypeError" "coverage.toFixed is not a function")
  end.

(** The loop over [Object.entries(config.columnMapping)].  The values of a
    row are strings, so [row[originalKey] !== undefined] holds exactly for
    the names the row has (names inherited from [Object.prototype] are left
    out of the model). *)
Definition mapped_row (row : Papa.Row) (mapping : list (string * string)) : Papa.Row :=
  fold_left (fun mappedRow entry =>
               match row !! fst entry with
               | Some v => <[snd entry := v]> mappedRow
               | None => mappedRow
               end) mapping ∅.

Definition transform_item (config : MergedCsvConfig) (item : JsValue) : Result Papa.Row :=
  bind (formatCoverage (get (get item "project") "coveragePercent") (m_numberFormat config))
    (fun coverage =>
       let row : Papa.Row :=
         <[header_key config 2 := string_value (get item "category")]>
         (<[header_key config 1 := coverage]>
         (<[header_key config 0 := string_value (get (get item "project") "name")]> ∅)) in
       if Nat.ltb 0 (length (m_columnMapping config)) then
         Ok (mapped_row row (m_columnMapping config) ∪ row)
       else Ok row).

(** [Array.prototype.map] with a callback that may throw. *)
Fixpoint Array_map {A B} (callback : A -> Result B) (l : list A) : Result (list B) :=
  match l with
  | [] => Ok []
  | x :: rest =>
      bind (callback x) (fun y =>
      bind (Array_map callback rest) (fun ys => Ok (y :: ys)))
  end.

Definition transformDataToCsvRows (data : list JsValue) (config : MergedCsvConfig)
  : Result (list Papa.Row) :=
  Array_map (transform_item config) data.

Definition items_of (data : JsValue) : list JsValue :=
  match data with JArray items => items | _ => [] end.

Definition generateDetailed (now : float) (data : JsValue) (config : option CsvConfig)
  : Result CsvResult :=
  let mergedConfig := merge config in
  if negb (validateData data) then
    Throw (new_Error "Invalid data provided for CSV generation")
  else
    bind (transformDataToCsvRows (items_of data) mergedConfig) (fun csvData =>
    bind (Papa.unparse csvData (m_delimiter mergedConfig) (m_includeHeaders mergedConfig)
            (m_headers mergedConfig)) (fun csvContent =>
    Ok {| content := csvContent;
          rowCount := length (items_of data);
          generatedAt := now;
          config_used := mergedConfig |})).

Definition generate (now : float) (data : JsValue) (config : option CsvConfig)
  : Result string :=
  bind (generateDetailed now data config) (fun result => Ok (content result)).

End Reporter.

(** The same configuration with another [columnMapping] property. *)
Definition with_columnMapping (config : CsvConfig) (mapping : option (list (string * string)))
  : CsvConfig :=
  {| headers := headers config; delimiter := delimiter config;
     includeHeaders := includeHeaders config; columnMapping := mapping;
     numberFormat := numberFormat config |}.

(** Two rows with the same fields under the given names. *)
Definition same_fields (fields : list string) (r1 r2 : Papa.Row) : Prop :=
  forall f, In f fields -> r1 !! f = r2 !! f.

End PapaparseCsvReporter.

(** ** types/orchestrator.ts, types/sonarqube.ts, types/classification.ts *)

Record SonarQubeConfig := {
  baseUrl : string;
  token : string;
  timeout : option float
}.

Module ClassificationConfig.
Record t := {
  threshold : float;
  strictZeroClassification : option bool
}.
End ClassificationConfig.

Record ReportConfig := {
  sonarqube : SonarQubeConfig;
  classification : ClassificationConfig.t;
  csv : CsvConfig;
  filters : option (list FilterStrategy);
  outputPath : option string
}.

Record ReportResult := {
  csvContent : string;
  projectCount : nat;
  categoryCounts : gmap string nat;
  metadata_generatedAt : float;
  metadata_config : ReportConfig;
  metadata_processingTime : float
}.

(** The [phase] of a [ReportError]. *)
Inductive Phase := phase_config | phase_fetch | phase_filter | phase_classify | phase_generate.

Definition phase_name (p : Phase) : string :=
  match p with
  | phase_config => "config"
  | phase_fetch => "fetch"
  | phase_filter => "filter"
  | phase_classify => "classify"
  | phase_generate => "generate"
  end.

(** [new ReportError(message, phase, cause)]: an instance of the class
    [ReportError], which extends [Error] (its [phase] and [cause] fields are
    left out: the orchestrator never constructs one). *)
Definition new_ReportError (message : string) : JsValue := JError "ReportError" message.

(** The collaborators, each given by the outcome of its calls;
    [fetchProjects] is only ever called with the empty list of query
    filters. *)
Record SonarQubeClient := {
  authenticate : string -> Result unit;
  fetchProjects : Result (list ProjectRef)
}.

Record CoverageClassifier := {
  classify : float -> float -> Result CoverageCategory
}.

Record CsvReporter := {
  generate : list CategorizedProject -> CsvConfig -> Result string;
  writeToFile : string -> string -> Result unit
}.

(** What a run does that can be seen from outside, in order: the calls to
    the collaborators and the notifications of the progress callback (when
    one is given; a callback returns normally).  [CallFilterApply] carries
    the name of the filter as a label. *)
Inductive Event :=
| CallAuthenticate (token : string)
| OnFetchingProjects
| CallFetchProjects
| CallFilterApply (filter : string) (projects : list ProjectRef)
| OnFiltering (beforeCount afterCount : nat)
| CallClassify (coverage threshold : float)
| OnProjectProcessed (categorized : CategorizedProject) (index total : nat)
| OnGeneratingCsv
| CallGenerate (data : list CategorizedProject) (config : CsvConfig)
| CallWriteToFile (csv path : string)
| OnComplete (result : ReportResult).

(** A computation that logs events and returns or throws. *)
Module Run.

Definition t (A : Type) : Type := (list Event * Result A)%type.

Definition ret {A} (a : A) : t A := ([], Ok a).

Definition throw {A} (e : JsValue) : t A := ([], Throw e).

Definition bind {A B} (m : t A) (f : A -> t B) : t B :=
  match m with
  | (events, Ok a) => let (later, r) := f a in ((events ++ later)%list, r)
  | (events, Throw e) => (events, Throw e)
  end.

(** A notification. *)
Definition emit (ev : Event) : t unit := ([ev], Ok tt).

(** A call to a collaborator, with its outcome. *)
Definition call {A} (ev : Event) (outcome : Result A) : t A := ([ev], outcome).

(** A step that logs nothing. *)
Definition lift {A} (outcome : Result A) : t A := ([], outcome).

(** [try { m } catch (error) { handler(error) }] *)
Definition try_catch {A} (m : t A) (handler : JsValue -> t A) : t A :=
  match m with
  | (events, Ok a) => (events, Ok a)
  | (events, Throw error) => let (later, r) := handler error in ((events ++ later)%list, r)
  end.

End Run.

(** stdpp's monad notations [x ← m; k] and [m;; k] for [Run.t]. *)
#[global] Instance run_ret : MRet Run.t := @Run.ret.
#[global] Instance run_bind : MBind Run.t := fun A B f m => Run.bind m f.

(** ** implementations/default-report-orchestrator.ts *)

Module DefaultReportOrchestrator.

(** The three readings of the clock in [generateReport]. *)
Record Clock := {
  startTime : float;
  generatedAt_time : float;
  endTime : float
}.

(** The constructor arguments, and the two built-ins the class reaches:
    whether [new URL(s)] accepts [s], and the clock. *)
Record Dependencies := {
  client : SonarQubeClient;
  injected_filters : list FilterStrategy;
  classifier : CoverageClassifier;
  reporter : CsvReporter;
  URL_accepts : string -> bool;
  clock : Clock
}.

Definition wrapError (error : JsValue) (phase : Phase) : JsValue :=
  let message :=
    match error with JError _ m => m | _ => "Unknown error occurred" end in
  let cause :=
    match error with JError _ _ => error | _ => JUndefined end in
  JObject [("name", JString "ReportError");
           ("message", JString ("Error in " ++ phase_name phase ++ " phase: " ++ message));
           ("phase", JString (phase_name phase));
           ("cause", cause)].

(** The [try] block of [validateConfig].  The configuration is typed: the
    threshold is a number, so the test [threshold !== undefined] holds. *)
Definition validateConfig_try (D : Dependencies) (config : ReportConfig) : Result bool :=
  if String.eqb (baseUrl (sonarqube config)) "" then
    Throw (new_Error "SonarQube baseUrl is required")
  else if String.eqb (token (sonarqube config)) "" then
    Throw (new_Error "SonarQube token is required")
  else if PrimFloat.ltb (ClassificationConfig.threshold (classification config)) 0
          || PrimFloat.ltb 100 (ClassificationConfig.threshold (classification config)) then
    Throw (new_Error "Classification threshold must be between 0 and 100")
  else if negb (URL_accepts D (baseUrl (sonarqube config))) then
    Throw (new_Error "Invalid SonarQube baseUrl format")
  else Ok true.

Definition validateConfig (D : Dependencies) (config : ReportConfig) : Result bool :=
  match validateConfig_try D config with
  | Ok valid => Ok valid
  | Throw error => Throw (wrapError error phase_config)
  end.

(** [this.filters.reduce((filtered, filter) => filter.apply(filtered), projects)] *)
Fixpoint applyFilters_from (filters : list FilterStrategy) (projects : list ProjectRef)
  : Run.t (list ProjectRef) :=
  match filters with
  | [] => Run.ret projects
  | filter :: rest =>
      filtered ← Run.call (CallFilterApply (getName filter) projects) (apply filter projects);
      applyFilters_from rest filtered
  end.

Definition applyFilters (D : Dependencies) (projects : list ProjectRef)
  : Run.t (list ProjectRef) :=
  applyFilters_from (injected_filters D) projects.

(** The callback of [projects.map] in [classifyProjects], at position [index]. *)
Definition classifyProject (D : Dependencies) (store : Store)
    (classificationConfig : ClassificationConfig.t) (total : nat)
    (index : nat) (p : ProjectRef) : Run.t CategorizedProject :=
  let coverage := coveragePercent (store p) in
  let t := ClassificationConfig.threshold classificationConfig in
  category ← Run.call (CallClassify coverage t) (classify (classifier D) coverage t);
  let categorized := {| project := p; category := category; threshold := t |} in
  Run.emit (OnProjectProcessed categorized (index + 1) total) ;;
  Run.ret categorized.

Fixpoint classifyProjects_from (D : Dependencies) (store : Store)
    (classificationConfig : ClassificationConfig.t) (total : nat)
    (index : nat) (projects : list ProjectRef) : Run.t (list CategorizedProject) :=
  match projects with
  | [] => Run.ret []
  | p :: rest =>
      categorized ← classifyProject D store classificationConfig total index p;
      others ← classifyProjects_from D store classificationConfig total (S index) rest;
      Run.ret (categorized :: others)
  end.

Definition classifyProjects (D : Dependencies) (store : Store)
    (projects : list ProjectRef) (classificationConfig : ClassificationConfig.t)
  : Run.t (list CategorizedProject) :=
  classifyProjects_from D store classificationConfig (length projects) 0 projects.

Definition calculateCategoryCounts (projects : list CategorizedProject) : gmap string nat :=
  fold_left (fun counts p =>
               let category := category_label (category p) in
               <[category := default 0 (counts !! category) + 1]> counts)
            projects ∅.

(** The [try] block of [generateReport]. *)
Definition generateReport_try (D : Dependencies) (store : Store) (config : ReportConfig)
  : Run.t ReportResult :=
  Run.lift (validateConfig D config) ;;
  Run.call (CallAuthenticate (token (sonarqube config)))
               (authenticate (client D) (token (sonarqube config))) ;;
  Run.emit OnFetchingProjects ;;
  projects ← Run.call CallFetchProjects (fetchProjects (client D));
  let beforeCount := length projects in
  filteredProjects ← applyFilters D projects;
  let afterCount := length filteredProjects in
  Run.emit (OnFiltering beforeCount afterCount) ;;
  categorizedProjects ← classifyProjects D store filteredProjects (classification config);
  Run.emit OnGeneratingCsv ;;
  csvContent ← Run.call (CallGenerate categorizedProjects (csv config))
                         (generate (reporter D) categorizedProjects (csv config));
  match outputPath config with
      | Some path =>
          if String.eqb path "" then Run.ret tt
          else Run.call (CallWriteToFile csvContent path)
                        (writeToFile (reporter D) csvContent path)
      | None => Run.ret tt
      end ;;
  let result := {|
    csvContent := csvContent;
    projectCount := length categorizedProjects;
    categoryCounts := calculateCategoryCounts categorizedProjects;
    metadata_generatedAt := generatedAt_time (clock D);
    metadata_config := config;
    metadata_processingTime := PrimFloat.sub (endTime (clock D)) (startTime (clock D))
  |} in
  Run.emit (OnComplete result) ;;
  Run.ret result.

Definition generateReport (D : Dependencies) (store : Store) (config : ReportConfig)
  : Run.t ReportResult :=
  Run.try_catch (generateReport_try D store config)
    (fun error => Run.throw (wrapError error phase_generate)).

(** The same configuration with another [filters] property. *)
Definition with_filters (config : ReportConfig) (fs : option (list FilterStrategy))
  : ReportConfig :=
  {| sonarqube := sonarqube config; classification := classification config;
     csv := csv config; filters := fs; outputPath := outputPath config |}.

(** A report, and a run, with the configuration echoed in the metadata
    replaced. *)
Definition with_config (config : ReportConfig) (r : ReportResult) : ReportResult :=
  {| csvContent := csvContent r; projectCount := projectCount r;
     categoryCounts := categoryCounts r;
     metadata_generatedAt := metadata_generatedAt r;
     metadata_config := config;
     metadata_processingTime := metadata_processingTime r |}.

Definition echo_config (config : ReportConfig) (run : Run.t ReportResult)
  : Run.t ReportResult :=
  (map (fun ev => match ev with
                  | OnComplete r => OnComplete (with_config config r)
                  | other => other
                  end) (fst run),
   match snd run with
   | Ok r => Ok (with_config config r)
   | Throw e => Throw e
   end).

(** The shape of a value made by [wrapError] from [error]: a plain object
    with the four properties of a [ReportError], which is an instance neither
    of [Error] nor of [ReportError]. *)
Definition plain_report_error (e : JsValue) (phase : Phase) (error : JsValue) : Prop :=
  e = JObject [("name", JString "ReportError");
               ("message",
                JString ("Error in " ++ phase_name phase ++ " phase: " ++
                         match error with
                         | JError _ m => m
                         | _ => "Unknown error occurred"
                         end));
               ("phase", JString (phase_name phase));
               ("cause", if instanceof_Error error then error else JUndefined)] /\
  instanceof_Error e = false /\
  instanceof_ReportError e = false.

(** The events of a run that gets as far as writing the file: [filtering]
    and [classifying] are the events of those two steps. *)
Definition events_until_write (config : ReportConfig) (projects filtered : list ProjectRef)
    (filtering classifying : list Event) (categorized : list CategorizedProject)
    (csvContent path : string) : list Event :=
  ([CallAuthenticate (token (sonarqube config)); OnFetchingProjects; CallFetchProjects]
   ++ filtering
   ++ [OnFiltering (length projects) (length filtered)]
   ++ classifying
   ++ [OnGeneratingCsv; CallGenerate categorized (csv config);
       CallWriteToFile csvContent path])%list.

(** Events that are not the final [onComplete] notification. *)
Definition quiet (events : list Event) : Prop :=
  List.Forall (fun ev => forall r, ev <> OnComplete r) events.

End DefaultReportOrchestrator.

(** The package's implementations as collaborators. *)
Definition SpanishClassifier : CoverageClassifier :=
  {| classify coverage threshold :=
       SpanishCoverageClassifier.classify (JNumber coverage) threshold |}.

Definition PapaparseReporter (Number_toString : float -> string) (now : float)
    (store : Store) (writeFile : string -> string -> Result unit) : CsvReporter :=
  {| generate data config :=
       PapaparseCsvReporter.generate Number_toString now
         (JArray (map (js_of_categorized store) data)) (Some config);
     writeToFile := PapaparseCsvReporter.writeToFile writeFile |}.

(** ** Sample data

    The projects of the package's tests and of the end-to-end scenarios. *)

Module Samples.
Import FilterStrategies.

Definition sample (n : string) (c : float) : ProjectData :=
  {| name := n; key := n; coveragePercent := c; metadata := JObject []; lastAnalysis := 0 |}.

Definition store : Store := fun r =>
  match r with
  | 1%positive => sample "fe-app" 0
  | 2%positive => sample "fe-lib" 30
  | _ => sample "fe-core" 80
  end.

Definition projects : list ProjectRef := [1; 2; 3]%positive.

Definition below (n : positive) : FilterStrategy :=
  PredicateFilterStrategy (fun p => Ok (Pos.leb p n)) "below".

Definition above (n : positive) : FilterStrategy :=
  PredicateFilterStrategy (fun p => Ok (Pos.leb n p)) "above".

(** The data of the reporter's tests. *)
Definition report_store : Store := fun r =>
  match r with
  | 1%positive => sample "project-a" 75.5
  | 2%positive => sample "project-b" 25
  | _ => sample "project-c" 0
  end.

Definition report_data : JsValue :=
  JArray (map (js_of_categorized report_store)
    [ {| project := 1%positive; category := SI_PASA_MINIMO; threshold := 50 |};
      {| project := 2%positive; category := NO_PASA_MINIMO; threshold := 50 |};
      {| project := 3%positive; category := SIN_COVERAGE; threshold := 50 |} ]).

(** A categorized project whose name is the empty string. *)
Definition unnamed_item : JsValue :=
  js_of_categorized (fun _ => sample "" 0)
    {| project := 1%positive; category := SIN_COVERAGE; threshold := 50 |}.

(** A CSV configuration that sets [columnMapping] only. *)
Definition mapping_config (mapping : list (string * string)) : CsvConfig :=
  {| headers := None; delimiter := None; includeHeaders := None;
     columnMapping := Some mapping; numberFormat := None |}.

(** A run of the orchestrator on the package's own classifier and reporter:
    the client returns the three sample projects, no filter is injected. *)
Definition big_number_text : float -> string := fun _ => "1e+21".

Definition working_client : SonarQubeClient :=
  {| authenticate _ := Ok tt; fetchProjects := Ok projects |}.

Definition failing_client : SonarQubeClient :=
  {| authenticate _ := Ok tt; fetchProjects := Throw (new_Error "boom") |}.

Definition full_disk : string -> string -> Result unit :=
  fun _ _ => Throw (JError "Error" "ENOSPC: no space left on device").

Definition dependencies (c : SonarQubeClient) (writeFile : string -> string -> Result unit)
  : DefaultReportOrchestrator.Dependencies :=
  {| DefaultReportOrchestrator.client := c;
     DefaultReportOrchestrator.injected_filters := [];
     DefaultReportOrchestrator.classifier := SpanishClassifier;
     DefaultReportOrchestrator.reporter := PapaparseReporter big_number_text 0 store writeFile;
     DefaultReportOrchestrator.URL_accepts := String.prefix "https://";
     DefaultReportOrchestrator.clock :=
       {| DefaultReportOrchestrator.startTime := 1000;
          DefaultReportOrchestrator.generatedAt_time := 1005;
          DefaultReportOrchestrator.endTime := 1007 |} |}.

Definition report_config (url : string) (out : option string) : ReportConfig :=
  {| sonarqube := {| baseUrl := url; token := "secret"; timeout := None |};
     classification := {| ClassificationConfig.threshold := 50;
                          ClassificationConfig.strictZeroClassification := None |};
     csv := empty_CsvConfig;
     filters := None;
     outputPath := out |}.

(** The CSV of the three sample projects under the threshold 50. *)
Definition scenario_csv : string :=
  Array_join Papa.NEWLINE
    ["repository,coverage_percent,category";
     "fe-app,0.00,Sin coverage";
     "fe-lib,30.00,No pasa del mínimo esperado";
     "fe-core,80.00,Si pasa el mínimo esperado"].

(** The three sample projects classified under the threshold 50, and the
    events of their classification. *)
Definition categorized : list CategorizedProject :=
  [ {| project := 1%positive; category := SIN_COVERAGE; threshold := 50 |};
    {| project := 2%positive; category := NO_PASA_MINIMO; threshold := 50 |};
    {| project := 3%positive; category := SI_PASA_MINIMO; threshold := 50 |} ].

Definition classifying : list Event :=
  [ CallClassify 0 50;
    OnProjectProcessed {| project := 1%positive; category := SIN_COVERAGE; threshold := 50 |} 1 3;
    CallClassify 30 50;
    OnProjectProcessed {| project := 2%positive; category := NO_PASA_MINIMO; threshold := 50 |} 2 3;
    CallClassify 80 50;
    OnProjectProcessed {| project := 3%positive; category := SI_PASA_MINIMO; threshold := 50 |} 3 3 ].

(** Lines joined by the line break of the serializer. *)
Definition lines (l : list string) : string := Array_join Papa.NEWLINE l.

End Samples.

(** * Further definitions *)

(** ** [classifyDetailed] (spanish-coverage-classifier.ts) *)

Module ClassifierDetailed.
Import SpanishCoverageClassifier.

(** [ClassificationConfig] with all its properties; [None] is a property
    left out. *)
Record Config := {
  cfg_threshold : float;
  cfg_strictZeroClassification : option bool;
  cfg_customCategories : option (list (string * CoverageCategory))
}.

(** [Required<ClassificationConfig>] *)
Record MergedConfig := {
  m_threshold : float;
  m_strictZeroClassification : bool;
  m_customCategories : list (string * CoverageCategory)
}.

Definition DEFAULT_CLASSIFICATION_CONFIG : MergedConfig :=
  {| m_threshold := 50; m_strictZeroClassification := true; m_customCategories := [] |}.

(** [{ ...DEFAULT_CLASSIFICATION_CONFIG, ...config }] *)
Definition merge (config : Config) : MergedConfig :=
  {| m_threshold := cfg_threshold config;
     m_strictZeroClassification :=
       default (m_strictZeroClassification DEFAULT_CLASSIFICATION_CONFIG)
               (cfg_strictZeroClassification config);
     m_customCategories :=
       default (m_customCategories DEFAULT_CLASSIFICATION_CONFIG)
               (cfg_customCategories config) |}.

Record ClassificationResult := {
  r_category : CoverageCategory;
  r_threshold : float;
  r_originalCoverage : JsValue;
  r_strictZeroClassification : bool;
  r_configUsed : MergedConfig
}.

Definition classifyDetailed (coverage : JsValue) (config : Config)
  : Result ClassificationResult :=
  let mergedConfig := merge config in
  bind (classify coverage (m_threshold mergedConfig)) (fun category =>
  Ok {| r_category := category;
        r_threshold := m_threshold mergedConfig;
        r_originalCoverage := coverage;
        r_strictZeroClassification := m_strictZeroClassification mergedConfig;
        r_configUsed := mergedConfig |}).

(** The three categories from worst to best. *)
Definition rank (c : CoverageCategory) : nat :=
  match c with
  | SIN_COVERAGE => 0
  | NO_PASA_MINIMO => 1
  | SI_PASA_MINIMO => 2
  end.

End ClassifierDetailed.

(** ** The order of binary64 numbers *)

Module FloatOrder.

(** A number that is not NaN, by sign class, exponent and mantissa: the
    comparison of two numbers is the lexicographic comparison of their
    keys. *)
Definition key (x : spec_float) : Z * Z * Z :=
  match x with
  | S754_infinity false => (2, 0, 0)%Z
  | S754_finite false m e => (1, e, Z.pos m)%Z
  | S754_zero _ | S754_nan => (0, 0, 0)%Z
  | S754_finite true m e => (-1, - e, - Z.pos m)%Z
  | S754_infinity true => (-2, 0, 0)%Z
  end.

Definition lex_compare (k1 k2 : Z * Z * Z) : comparison :=
  let '(a1, b1, c1) := k1 in
  let '(a2, b2, c2) := k2 in
  match (a1 ?= a2)%Z with
  | Eq => match (b1 ?= b2)%Z with
          | Eq => (c1 ?= c2)%Z
          | other => other
          end
  | other => other
  end.

Definition lex_le (k1 k2 : Z * Z * Z) : Prop :=
  let '(a1, b1, c1) := k1 in
  let '(a2, b2, c2) := k2 in
  (a1 < a2 \/ (a1 = a2 /\ (b1 < b2 \/ (b1 = b2 /\ c1 <= c2))))%Z.

End FloatOrder.

(** ** More filter strategies (filter-strategies.ts) *)

Module FilterStrategiesMore.
Import FilterStrategies.

(** [DateRangeFilter]: the bounds are [Date] objects, given by their time
    values; a [Date] is truthy, so a bound counts exactly when it is there.
    Dates compare by their time values. *)
Record DateRangeFilter := {
  startDate : option float;
  endDate : option float
}.

Definition DateRangeFilterStrategy (store : Store) (config : DateRangeFilter)
  : FilterStrategy := {|
  apply projects :=
    Array_filter (fun p =>
      let analysisDate := lastAnalysis (store p) in
      if match startDate config with
         | Some start => PrimFloat.ltb analysisDate start
         | None => false
         end then Ok false
      else if match endDate config with
              | Some stop => PrimFloat.ltb stop analysisDate
              | None => false
              end then Ok false
      else Ok true) projects;
  canHandle filterType :=
    String.eqb filterType "dateRange" || String.eqb filterType "date";
  getName := "DateRangeFilter"
|}.

(** [v.k], which is a [TypeError] on [undefined] and [null]. *)
Definition get_property (v : JsValue) (k : string) : Result JsValue :=
  match v with
  | JUndefined =>
      Throw (JError "TypeError"
               ("Cannot read properties of undefined (reading '" ++ k ++ "')"))
  | JNull =>
      Throw (JError "TypeError"
               ("Cannot read properties of null (reading '" ++ k ++ "')"))
  | _ => Ok (get v k)
  end.

(** [v?.k] *)
Definition get_optional (v : JsValue) (k : string) : JsValue :=
  match v with
  | JUndefined | JNull => JUndefined
  | _ => get v k
  end.

Definition extractLanguagesFromMetadata (metadata : JsValue) : Result (list JsValue) :=
  bind (get_property metadata "languages") (fun languages =>
  match languages with
  | JArray items => Ok items
  | _ =>
      let language := get metadata "language" in
      if truthy language && String.eqb (typeof language) "string" then Ok [language]
      else
        let gateLanguages := get_optional (get metadata "qualityGate") "languages" in
        if truthy gateLanguages then
          match gateLanguages with
          | JArray items => Ok items
          | other => Ok [other]
          end
        else Ok []
  end).

(** [projectLanguages.includes(lang)] for a string [lang]: some element is
    that string. *)
Definition includes_string (l : list JsValue) (lang : string) : bool :=
  existsb (fun v => match v with JString s => String.eqb s lang | _ => false end) l.

Record LanguageFilter := { languages : list string }.

Definition LanguageFilterStrategy (store : Store) (config : LanguageFilter)
  : FilterStrategy := {|
  apply projects :=
    Array_filter (fun p =>
      bind (extractLanguagesFromMetadata (metadata (store p))) (fun projectLanguages =>
      Ok (existsb (includes_string projectLanguages) (languages config)))) projects;
  canHandle filterType :=
    String.eqb filterType "language" || String.eqb filterType "languages";
  getName := "LanguageFilter"
|}.

(** The AND-combination in the words of the specification: the strategies
    are applied one after the other in the listed order, each to what the
    one before it returned, and the first exception ends the chain. *)
Fixpoint apply_in_order (strategies : list FilterStrategy) (projects : list ProjectRef)
  : Result (list ProjectRef) :=
  match strategies with
  | [] => Ok projects
  | strategy :: rest =>
      match apply strategy projects with
      | Ok filtered => apply_in_order rest filtered
      | Throw e => Throw e
      end
  end.

(** The call [addPredicate] for a predicate that always returns. *)
Definition add_total (f : ProjectRef -> bool) : BuilderCall :=
  CallAddPredicate (fun p => Ok (f p)).

(** The sample projects with languages in their metadata: an array, a single
    language, none. *)
Definition language_store : Store := fun r =>
  match r with
  | 1%positive =>
      {| name := "fe-app"; key := "fe-app"; coveragePercent := 0;
         metadata := JObject [("languages", JArray [JString "ts"; JString "js"])];
         lastAnalysis := 0 |}
  | 2%positive =>
      {| name := "fe-lib"; key := "fe-lib"; coveragePercent := 30;
         metadata := JObject [("language", JString "java")];
         lastAnalysis := 0 |}
  | _ =>
      {| name := "fe-core"; key := "fe-core"; coveragePercent := 80;
         metadata := JObject []; lastAnalysis := 0 |}
  end.

(** The callback that the coverage filter and the date filter share, on the
    value that each compares and its two optional bounds. *)
Definition range_callback (value : ProjectRef -> float) (lo hi : option float)
  : ProjectRef -> Result bool := fun p =>
  if match lo with Some l => PrimFloat.ltb (value p) l | None => false end then Ok false
  else if match hi with Some h => PrimFloat.ltb h (value p) | None => false end then Ok false
  else Ok true.

(** A strategy made of a predicate that always returns. *)
Definition total (f : ProjectRef -> bool) : FilterStrategy :=
  PredicateFilterStrategy (fun p => Ok (f p)) "PredicateFilter".

End FilterStrategiesMore.

(** ** More on the orchestrator (default-report-orchestrator.ts) *)

Module OrchestratorMore.
Import DefaultReportOrchestrator.

(** How many of the projects carry the category label [k]. *)
Definition occurrences (k : string) (projects : list CategorizedProject) : nat :=
  length (List.filter (fun p => String.eqb (category_label (category p)) k) projects).

(** The categorized project made for [p] when the classifier returns
    [category] under the threshold [t]. *)
Definition categorized_as (t : float) (p : ProjectRef) (c : CoverageCategory)
  : CategorizedProject :=
  {| project := p; category := c; threshold := t |}.

(** What the classifier makes of the coverage of a project under the
    configured threshold, and the categorized project that goes with a
    project it accepts. *)
Definition judge (D : Dependencies) (store : Store) (cc : ClassificationConfig.t)
    (p : ProjectRef) : Result CoverageCategory :=
  classify (classifier D) (coveragePercent (store p)) (ClassificationConfig.threshold cc).

Definition judged (D : Dependencies) (store : Store) (cc : ClassificationConfig.t)
    (p : ProjectRef) (c : CategorizedProject) : Prop :=
  judge D store cc p = Ok (category c) /\ project c = p /\
  threshold c = ClassificationConfig.threshold cc.

(** The calls and notifications of a pass of [classifyProjects] that
    produced [cats], the first at position [index]. *)
Fixpoint progress_events (store : Store) (total index : nat) (cats : list CategorizedProject)
  : list Event :=
  match cats with
  | [] => []
  | c :: rest =>
      CallClassify (coveragePercent (store (project c))) (threshold c)
      :: OnProjectProcessed c (index + 1) total
      :: progress_events store total (S index) rest
  end.

(** The call that saves the CSV text, made only for an output path that is
    given and not empty. *)
Definition writes (config : ReportConfig) (csvText : string) : list Event :=
  match outputPath config with
  | Some path => if String.eqb path "" then [] else [CallWriteToFile csvText path]
  | None => []
  end.

Definition is_write (ev : Event) : bool :=
  match ev with CallWriteToFile _ _ => true | _ => false end.

Definition is_generate (ev : Event) : bool :=
  match ev with CallGenerate _ _ => true | _ => false end.

(** [ReportConfigBuilder]: the partial configuration it holds. *)
Record ReportConfigBuilder := {
  b_sonarqube : option SonarQubeConfig;
  b_classification : option ClassificationConfig.t;
  b_csv : option CsvConfig;
  b_filters : option (list FilterStrategy);
  b_outputPath : option string
}.

(** [ReportConfigBuilder.create()] *)
Definition create : ReportConfigBuilder :=
  {| b_sonarqube := None; b_classification := None; b_csv := None;
     b_filters := None; b_outputPath := None |}.

Definition set_sonarqube (b : ReportConfigBuilder) (c : SonarQubeConfig) :=
  {| b_sonarqube := Some c; b_classification := b_classification b; b_csv := b_csv b;
     b_filters := b_filters b; b_outputPath := b_outputPath b |}.

Definition set_classification (b : ReportConfigBuilder) (c : ClassificationConfig.t) :=
  {| b_sonarqube := b_sonarqube b; b_classification := Some c; b_csv := b_csv b;
     b_filters := b_filters b; b_outputPath := b_outputPath b |}.

Definition set_csv (b : ReportConfigBuilder) (c : CsvConfig) :=
  {| b_sonarqube := b_sonarqube b; b_classification := b_classification b; b_csv := Some c;
     b_filters := b_filters b; b_outputPath := b_outputPath b |}.

Definition set_filters (b : ReportConfigBuilder) (fs : list FilterStrategy) :=
  {| b_sonarqube := b_sonarqube b; b_classification := b_classification b; b_csv := b_csv b;
     b_filters := Some fs; b_outputPath := b_outputPath b |}.

Definition set_outputPath (b : ReportConfigBuilder) (path : string) :=
  {| b_sonarqube := b_sonarqube b; b_classification := b_classification b; b_csv := b_csv b;
     b_filters := b_filters b; b_outputPath := Some path |}.

Definition build (b : ReportConfigBuilder) : Result ReportConfig :=
  match b_sonarqube b with
  | None => Throw (new_Error "SonarQube configuration is required")
  | Some sq =>
      Ok {| sonarqube := sq;
            classification :=
              default {| ClassificationConfig.threshold := 50;
                         ClassificationConfig.strictZeroClassification := None |}
                      (b_classification b);
            csv := default empty_CsvConfig (b_csv b);
            filters := b_filters b;
            outputPath := b_outputPath b |}
  end.

(** A call of a setter, and a chain of calls on a fresh builder. *)
Inductive Setter :=
| Sonarqube (c : SonarQubeConfig)
| Classification (c : ClassificationConfig.t)
| Csv (c : CsvConfig)
| Filters (fs : list FilterStrategy)
| OutputPath (path : string).

Definition set (b : ReportConfigBuilder) (s : Setter) : ReportConfigBuilder :=
  match s with
  | Sonarqube c => set_sonarqube b c
  | Classification c => set_classification b c
  | Csv c => set_csv b c
  | Filters fs => set_filters b fs
  | OutputPath path => set_outputPath b path
  end.

Definition chain (calls : list Setter) : ReportConfigBuilder := fold_left set calls create.

(** The argument of the last call in [calls] that [pick] selects. *)
Definition last_set {A} (pick : Setter -> option A) (calls : list Setter) : option A :=
  fold_left (fun acc s => match pick s with Some a => Some a | None => acc end) calls None.

Definition pick_sonarqube (s : Setter) : option SonarQubeConfig :=
  match s with Sonarqube c => Some c | _ => None end.

Definition pick_classification (s : Setter) : option ClassificationConfig.t :=
  match s with Classification c => Some c | _ => None end.

Definition pick_csv (s : Setter) : option CsvConfig :=
  match s with Csv c => Some c | _ => None end.

Definition pick_filters (s : Setter) : option (list FilterStrategy) :=
  match s with Filters fs => Some fs | _ => None end.

Definition pick_outputPath (s : Setter) : option string :=
  match s with OutputPath path => Some path | _ => None end.


(** [error] is what a collaborator threw in a run on [config]: the client
    while authenticating or fetching, an injected filter, the classifier on
    the coverage of a project, or the reporter while generating or writing. *)
Definition thrown_by_collaborator (D : Dependencies) (store : Store)
    (config : ReportConfig) (error : JsValue) : Prop :=
  authenticate (client D) (token (sonarqube config)) = Throw error \/
  fetchProjects (client D) = Throw error \/
  (exists filter input, In filter (injected_filters D) /\ apply filter input = Throw error) \/
  (exists p,
     classify (classifier D) (coveragePercent (store p))
       (ClassificationConfig.threshold (classification config)) = Throw error) \/
  (exists data, generate (reporter D) data (csv config) = Throw error) \/
  (exists text path, writeToFile (reporter D) text path = Throw error).

(** A client whose [fetchProjects] rejects with a string. *)
Definition string_throwing_client : SonarQubeClient :=
  {| authenticate _ := Ok tt; fetchProjects := Throw (JString "boom") |}.

(** A run that succeeds: the sample client, a disk that accepts the
    file, and the report it makes. *)
Definition working_disk : string -> string -> Result unit := fun _ _ => Ok tt.

Definition sample_report (config : ReportConfig) : ReportResult :=
  {| csvContent := Samples.scenario_csv;
     projectCount := 3;
     categoryCounts := calculateCategoryCounts Samples.categorized;
     metadata_generatedAt := 1005;
     metadata_config := config;
     metadata_processingTime := 7 |}.

End OrchestratorMore.

(** ** The orchestrator with progress callbacks that may throw

    [DefaultReportOrchestrator] above takes the progress callbacks to
    return.  Here they are given by what each notification does: the run of
    the source calls them inside the [try] block of [generateReport] and
    inside the callback of [projects.map], so an exception of theirs ends
    the run like one of a collaborator. *)

Module Notifying.
Import DefaultReportOrchestrator.

(** A [ProgressCallback], by what it does on each notification: [None] when
    no callback is given for it ([progressCallback?.onX?.(...)] is then no
    call), else what the callback does, return or throw. *)
Definition ProgressCallback := Event -> option (Result unit).

(** [progressCallback?.onX?.(...)] *)
Definition notify (progressCallback : ProgressCallback) (ev : Event) : Run.t unit :=
  match progressCallback ev with
  | Some outcome => Run.call ev outcome
  | None => Run.ret tt
  end.

(** The callback of [projects.map] in [classifyProjects], at position [index]. *)
Definition classifyProject (progressCallback : ProgressCallback) (D : Dependencies)
    (store : Store) (classificationConfig : ClassificationConfig.t) (total : nat)
    (index : nat) (p : ProjectRef) : Run.t CategorizedProject :=
  let coverage := coveragePercent (store p) in
  let t := ClassificationConfig.threshold classificationConfig in
  category ← Run.call (CallClassify coverage t) (classify (classifier D) coverage t);
  let categorized := {| project := p; category := category; threshold := t |} in
  notify progressCallback (OnProjectProcessed categorized (index + 1) total) ;;
  Run.ret categorized.

Fixpoint classifyProjects_from (progressCallback : ProgressCallback) (D : Dependencies)
    (store : Store) (classificationConfig : ClassificationConfig.t) (total : nat)
    (index : nat) (projects : list ProjectRef) : Run.t (list CategorizedProject) :=
  match projects with
  | [] => Run.ret []
  | p :: rest =>
      categorized ← classifyProject progressCallback D store classificationConfig total
                      index p;
      others ← classifyProjects_from progressCallback D store classificationConfig total
                 (S index) rest;
      Run.ret (categorized :: others)
  end.

Definition classifyProjects (progressCallback : ProgressCallback) (D : Dependencies)
    (store : Store) (projects : list ProjectRef)
    (classificationConfig : ClassificationConfig.t) : Run.t (list CategorizedProject) :=
  classifyProjects_from progressCallback D store classificationConfig (length projects) 0
    projects.

(** The [try] block of [generateReport]. *)
Definition generateReport_try (progressCallback : ProgressCallback) (D : Dependencies)
    (store : Store) (config : ReportConfig) : Run.t ReportResult :=
  Run.lift (validateConfig D config) ;;
  Run.call (CallAuthenticate (token (sonarqube config)))
               (authenticate (client D) (token (sonarqube config))) ;;
  notify progressCallback OnFetchingProjects ;;
  projects ← Run.call CallFetchProjects (fetchProjects (client D));
  let beforeCount := length projects in
  filteredProjects ← applyFilters D projects;
  let afterCount := length filteredProjects in
  notify progressCallback (OnFiltering beforeCount afterCount) ;;
  categorizedProjects ← classifyProjects progressCallback D store filteredProjects
                          (classification config);
  notify progressCallback OnGeneratingCsv ;;
  csvContent ← Run.call (CallGenerate categorizedProjects (csv config))
                         (generate (reporter D) categorizedProjects (csv config));
  match outputPath config with
      | Some path =>
          if String.eqb path "" then Run.ret tt
          else Run.call (CallWriteToFile csvContent path)
                        (writeToFile (reporter D) csvContent path)
      | None => Run.ret tt
      end ;;
  let result := {|
    csvContent := csvContent;
    projectCount := length categorizedProjects;
    categoryCounts := calculateCategoryCounts categorizedProjects;
    metadata_generatedAt := generatedAt_time (clock D);
    metadata_config := config;
    metadata_processingTime := PrimFloat.sub (endTime (clock D)) (startTime (clock D))
  |} in
  notify progressCallback (OnComplete result) ;;
  Run.ret result.

Definition generateReport (progressCallback : ProgressCallback) (D : Dependencies)
    (store : Store) (config : ReportConfig) : Run.t ReportResult :=
  Run.try_catch (generateReport_try progressCallback D store config)
    (fun error => Run.throw (wrapError error phase_generate)).

(** The progress callback all of whose notifications are given and return. *)
Definition returning : ProgressCallback := fun _ => Some (Ok tt).

(** A notification returns (or is not given). *)
Definition returns (progressCallback : ProgressCallback) (ev : Event) : Prop :=
  forall e, progressCallback ev <> Some (Throw e).

(** What a notification leaves in the events. *)
Definition notified (progressCallback : ProgressCallback) (ev : Event) : list Event :=
  match progressCallback ev with Some _ => [ev] | None => [] end.

(** The calls and notifications of a pass of [classifyProjects] that
    produced [cats], the first at position [index]. *)
Fixpoint progress (progressCallback : ProgressCallback) (store : Store) (total index : nat)
    (cats : list CategorizedProject) : list Event :=
  match cats with
  | [] => []
  | c :: rest =>
      (CallClassify (coveragePercent (store (project c))) (threshold c)
       :: notified progressCallback (OnProjectProcessed c (index + 1) total)
       ++ progress progressCallback store total (S index) rest)%list
  end.

(** What the step of [classifyProjects] for the project [p] at position
    [index] throws: what the classifier throws on its coverage, or what the
    notification of the categorized project throws. *)
Definition step_throws (progressCallback : ProgressCallback) (D : Dependencies)
    (store : Store) (cc : ClassificationConfig.t) (total index : nat) (p : ProjectRef)
    (e : JsValue) : Prop :=
  OrchestratorMore.judge D store cc p = Throw e \/
  exists c,
    OrchestratorMore.judge D store cc p = Ok c /\
    progressCallback
      (OnProjectProcessed
         (OrchestratorMore.categorized_as (ClassificationConfig.threshold cc) p c)
         (index + 1) total)
    = Some (Throw e).

(** A run of the [try] block that notifies [onComplete] last or not at all:
    when it returns a report, after everything else and of that report;
    when it throws, only if it is that notification that threw. *)
Definition ends_with_onComplete (progressCallback : ProgressCallback)
    (run : Run.t ReportResult) : Prop :=
  match run with
  | (events, Ok r) =>
      exists before,
        quiet before /\
        events = (before ++ notified progressCallback (OnComplete r))%list /\
        returns progressCallback (OnComplete r)
  | (events, Throw error) =>
      quiet events \/
      exists before r,
        quiet before /\ events = (before ++ [OnComplete r])%list /\
        progressCallback (OnComplete r) = Some (Throw error)
  end.

(** A callback whose [onComplete] throws and whose other notifications
    return. *)
Definition failing_onComplete : ProgressCallback := fun ev =>
  match ev with
  | OnComplete _ => Some (Throw (new_Error "callback failed"))
  | _ => Some (Ok tt)
  end.

(** A callback that throws on the second project and returns otherwise. *)
Definition failing_on_second : ProgressCallback := fun ev =>
  match ev with
  | OnProjectProcessed _ 2 _ => Some (Throw (new_Error "callback failed"))
  | _ => Some (Ok tt)
  end.

End Notifying.

(** ** More on the CSV reporter *)

Module ReporterMore.

(** A configuration that names one column only. *)
Definition one_header : CsvConfig :=
  {| headers := Some ["repository"]; delimiter := None; includeHeaders := None;
     columnMapping := None; numberFormat := None |}.

Definition project_a : JsValue :=
  js_of_categorized Samples.report_store
    {| project := 1%positive; category := SI_PASA_MINIMO; threshold := 50 |}.

End ReporterMore.

(** ** implementations/fetch-sonarqube-client.ts *)

Module FetchSonarQubeClient.
Import FilterStrategiesMore.

(** [new SonarQubeApiError(message, statusCode, response)]: an [Error] named
    after its class.  Of its properties the name and the message are
    modelled; [statusCode] and [response] are read nowhere in the package. *)
Definition new_SonarQubeApiError (message : string) : JsValue :=
  JError "SonarQubeApiError" message.

Definition instanceof_SonarQubeApiError (v : JsValue) : bool :=
  match v with JError ctor _ => String.eqb ctor "SonarQubeApiError" | _ => false end.

(** A plain object that holds request parameters: its own properties in
    insertion order. *)
Definition Params := list (string * JsValue).

(** [o[k] = v]: an existing property keeps its place, a new one comes last. *)
Fixpoint set_property (o : Params) (k : string) (v : JsValue) : Params :=
  match o with
  | [] => [(k, v)]
  | (k', v') :: rest =>
      if String.eqb k' k then (k', v) :: rest else (k', v') :: set_property rest k v
  end.

(** [Object.assign(target, source)] *)
Definition Object_assign (target source : Params) : Params :=
  fold_left (fun o entry => set_property o (fst entry) (snd entry)) source target.

(** A [QueryFilter], by what [getApiParams()] returns or throws. *)
Record QueryFilter := { getApiParams : Result Params }.

Definition ProjectNameQueryFilter (pattern : string) : QueryFilter :=
  {| getApiParams := Ok [("q", JString pattern)] |}.

Definition ProjectKeyQueryFilter (keys : list string) : QueryFilter :=
  {| getApiParams := Ok [("projects", JString (Array_join "," keys))] |}.

Section Dates.

(** The time value of [new Date()], and [date.toISOString().split('T')[0]]
    for a valid date. *)
Variable Date_now : float.
Variable ISO_date : float -> string.

(** [toISOString] is a [RangeError] on an invalid date, whose time value is
    NaN. *)
Definition formatDateForApi (date : float) : Result string :=
  if PrimFloat.is_nan date then Throw (JError "RangeError" "Invalid time value")
  else Ok (ISO_date date).

(** [AnalyzedDateQueryFilter.buildQuery]; [from] and [to] are [Date]
    objects, given by their time values, and a [Date] is truthy. *)
Definition buildQuery (from to : option float) : Result Params :=
  bind (match from with
        | Some _ =>
            bind (formatDateForApi (default Date_now to)) (fun formatted =>
            Ok (set_property [] "analyzedBefore" (JString formatted)))
        | None => Ok []
        end) (fun params =>
  match to with
  | Some date =>
      bind (formatDateForApi date) (fun formatted =>
      Ok (set_property params "analyzedBefore" (JString formatted)))
  | None => Ok params
  end).

Definition AnalyzedDateQueryFilter (from to : option float) : QueryFilter :=
  {| getApiParams := buildQuery from to |}.

End Dates.

(** The loop of [combineFilterParams]. *)
Fixpoint combine_loop (filters : list QueryFilter) (combinedParams : Params)
  : Result Params :=
  match filters with
  | [] => Ok combinedParams
  | filter :: rest =>
      bind (getApiParams filter) (fun params =>
      combine_loop rest (Object_assign combinedParams params))
  end.

Definition combineFilterParams (filters : list QueryFilter) : Result Params :=
  combine_loop filters [].

(** The value of the last property named [k] in [entries], [d] if none. *)
Definition last_value (entries : Params) (k : string) (d : JsValue) : JsValue :=
  fold_left (fun acc entry => if String.eqb (fst entry) k then snd entry else acc) entries d.

(** What [fetch] settles to: a rejection (network failure, abort by the
    timer), or a response with its [ok] flag and status and what
    [response.text()] and [response.json()] settle to. *)
Inductive FetchOutcome :=
| Rejected (error : JsValue)
| Responded (ok : bool) (status : N) (text : Result string) (json : Result JsValue).

(** The [catch] block of [makeRequest]. *)
Definition request_error (error : JsValue) : JsValue :=
  if instanceof_SonarQubeApiError error then error
  else new_SonarQubeApiError
         ("Network error: " ++
          match error with JError _ message => message | _ => "Unknown error" end).

(** [makeRequest], from the point where [fetch] settles (the URL, the
    headers and the timer are left out). *)
Definition makeRequest (outcome : FetchOutcome) : Result JsValue :=
  match outcome with
  | Rejected error => Throw (request_error error)
  | Responded ok status text json =>
      if negb ok then
        match text with
        | Ok errorText =>
            Throw (request_error
                     (new_SonarQubeApiError
                        ("HTTP " ++ NilEmpty.string_of_uint (N.to_uint status)
                         ++ ": " ++ errorText)))
        | Throw error => Throw (request_error error)
        end
      else
        match json with
        | Ok response => Ok response
        | Throw error => Throw (request_error error)
        end
  end.

(** [authenticate], by the outcome of its request (the token and the
    [Authorization] header that it stores before the request are left out). *)
Definition authenticate (validate : FetchOutcome) : Result unit :=
  match bind (makeRequest validate) (fun response =>
        bind (get_property response "valid") (fun valid =>
        if negb (truthy valid) then
          Throw (new_SonarQubeApiError "Authentication validation failed")
        else Ok tt)) with
  | Ok done => Ok done
  | Throw error => Throw (new_SonarQubeApiError "Failed to authenticate with SonarQube")
  end.

Section Measures.

(** [parseFloat], which takes the string of its argument. *)
Variable parseFloat : JsValue -> float.

(** A measure that [find] passes over: reading its [metric] does not throw
    and gives something other than the string [coverage]. *)
Definition passed_over (measure : JsValue) : Prop :=
  exists metric, get_property measure "metric" = Ok metric /\ metric <> JString "coverage".

(** [measures.find(measure => measure.metric === 'coverage')] *)
Fixpoint find_coverage (measures : list JsValue) : Result JsValue :=
  match measures with
  | [] => Ok JUndefined
  | measure :: rest =>
      bind (get_property measure "metric") (fun metric =>
      match metric with
      | JString m => if String.eqb m "coverage" then Ok measure else find_coverage rest
      | _ => find_coverage rest
      end)
  end.

Definition extractCoverageFromMeasures (response : JsValue) : Result float :=
  bind (get_property response "component") (fun component =>
  let measures := get_optional component "measures" in
  if negb (truthy measures) then Ok 0%float
  else
    match measures with
    | JArray items =>
        bind (find_coverage items) (fun coverageMeasure =>
        let value := get_optional coverageMeasure "value" in
        if negb (truthy value) then Ok 0%float else Ok (parseFloat value))
    | _ =>
        Throw (JError "TypeError" "response.component.measures.find is not a function")
    end).

(** [fetchCoverage], by the outcome of its request. *)
Definition fetchCoverage (projectKey : string) (measures : FetchOutcome) : Result float :=
  match bind (makeRequest measures) extractCoverageFromMeasures with
  | Ok coverage => Ok coverage
  | Throw error =>
      Throw (new_SonarQubeApiError ("Failed to fetch coverage for project " ++ projectKey))
  end.

End Measures.

(** A component of the response of [/api/projects/search], as the API
    documents it: a name, a key and, when the project was analysed, the
    date of the last analysis. *)
Record Component := {
  c_name : string;
  c_key : string;
  c_lastAnalysisDate : option string
}.

Section Transform.

(** What [fetchCoverage] and [fetchProjectMetadata] settle to for a project
    key, the time value of [new Date(s)] and the value of [Date.now()] when
    the component at a position is handled. *)
Variable coverage_of : string -> Result float.
Variable metadata_of : string -> Result JsValue.
Variable Date_parse : string -> float.
Variable Date_now : nat -> float.

(** The body of the loop of [transformProjectsResponse]: [Promise.all]
    rejects as soon as one of the two requests does. *)
Definition project_of (index : nat) (component : Component) : ProjectData :=
  let lastAnalysis :=
    match c_lastAnalysisDate component with
    | Some date => if String.eqb date "" then Date_now index else Date_parse date
    | None => Date_now index
    end in
  match coverage_of (c_key component), metadata_of (c_key component) with
  | Ok coverage, Ok details =>
      {| name := c_name component; key := c_key component;
         coveragePercent := coverage; metadata := details;
         lastAnalysis := lastAnalysis |}
  | _, _ =>
      {| name := c_name component; key := c_key component;
         coveragePercent := 0;
         metadata := JObject [("error", JString "Failed to fetch additional data")];
         lastAnalysis := lastAnalysis |}
  end.

(** [transformProjectsResponse] on a response whose [components], when
    there, is an array of components. *)
Definition transformProjectsResponse (components : option (list Component))
  : list ProjectData :=
  match components with
  | None => []
  | Some cs => imap project_of cs
  end.

End Transform.

End FetchSonarQubeClient.

(** Samples for the client. *)
Module ClientSamples.

(** A response of [/api/measures/component] with two coverage measures,
    the first without a value. *)
Definition two_measures : JsValue :=
  JObject [("component",
            JObject [("key", JString "fe-app");
                     ("measures",
                      JArray [JObject [("metric", JString "ncloc"); ("value", JString "1200")];
                              JObject [("metric", JString "coverage")];
                              JObject [("metric", JString "coverage");
                                       ("value", JString "81.5")]])])].

(** An authentication request that is answered with the status 401, and a
    client that meets it. *)
Definition unauthorized : FetchSonarQubeClient.FetchOutcome :=
  FetchSonarQubeClient.Responded false 401 (Ok "Unauthorized")
    (Throw (JError "SyntaxError" "Unexpected token")).

Definition rejected_client : SonarQubeClient :=
  {| authenticate := fun _ => FetchSonarQubeClient.authenticate unauthorized;
     fetchProjects := Ok [] |}.

End ClientSamples.

(** ** cli.ts *)

Module Cli.
Import DefaultReportOrchestrator.

(** The [Partial<CliArgs>] that the loop of [parseArgs] fills. *)
Record PartialArgs := {
  a_sonarUrl : option string;
  a_sonarToken : option string;
  a_threshold : option float;
  a_output : option string;
  a_help : option bool
}.

Record CliArgs := {
  sonarUrl : string;
  sonarToken : string;
  cli_threshold : float;
  output : option string;
  help : option bool
}.

Definition no_args : PartialArgs :=
  {| a_sonarUrl := None; a_sonarToken := None; a_threshold := None;
     a_output := None; a_help := None |}.

(** [!nextArg || nextArg.startsWith('-')], for a [nextArg] that is there *)
Definition not_a_value (nextArg : string) : bool :=
  String.eqb nextArg "" || String.prefix "-" nextArg.

Section ParseArgs.

(** [parseFloat] on a string. *)
Variable parseFloat : string -> float.

(** The loop of [parseArgs] from the position of [arg] on; an option that
    takes a value moves the position by two. *)
Fixpoint parse_loop (argv : list string) (args : PartialArgs) : Result PartialArgs :=
  match argv with
  | [] => Ok args
  | arg :: rest =>
      if String.eqb arg "--sonar-url" || String.eqb arg "-u" then
        match rest with
        | nextArg :: rest' =>
            if not_a_value nextArg then Throw (new_Error "SonarQube URL is required")
            else parse_loop rest'
                   {| a_sonarUrl := Some nextArg; a_sonarToken := a_sonarToken args;
                      a_threshold := a_threshold args; a_output := a_output args;
                      a_help := a_help args |}
        | [] => Throw (new_Error "SonarQube URL is required")
        end
      else if String.eqb arg "--sonar-token" || String.eqb arg "-t" then
        match rest with
        | nextArg :: rest' =>
            if not_a_value nextArg then Throw (new_Error "SonarQube token is required")
            else parse_loop rest'
                   {| a_sonarUrl := a_sonarUrl args; a_sonarToken := Some nextArg;
                      a_threshold := a_threshold args; a_output := a_output args;
                      a_help := a_help args |}
        | [] => Throw (new_Error "SonarQube token is required")
        end
      else if String.eqb arg "--threshold" || String.eqb arg "-T" then
        match rest with
        | nextArg :: rest' =>
            if not_a_value nextArg then Throw (new_Error "Threshold value is required")
            else
              let threshold := parseFloat nextArg in
              if PrimFloat.is_nan threshold || PrimFloat.ltb threshold 0
                 || PrimFloat.ltb 100 threshold then
                Throw (new_Error "Threshold must be a number between 0 and 100")
              else parse_loop rest'
                     {| a_sonarUrl := a_sonarUrl args; a_sonarToken := a_sonarToken args;
                        a_threshold := Some threshold; a_output := a_output args;
                        a_help := a_help args |}
        | [] => Throw (new_Error "Threshold value is required")
        end
      else if String.eqb arg "--output" || String.eqb arg "-o" then
        match rest with
        | nextArg :: rest' =>
            if not_a_value nextArg then Throw (new_Error "Output file path is required")
            else parse_loop rest'
                   {| a_sonarUrl := a_sonarUrl args; a_sonarToken := a_sonarToken args;
                      a_threshold := a_threshold args; a_output := Some nextArg;
                      a_help := a_help args |}
        | [] => Throw (new_Error "Output file path is required")
        end
      else if String.eqb arg "--help" || String.eqb arg "-h" then
        parse_loop rest
          {| a_sonarUrl := a_sonarUrl args; a_sonarToken := a_sonarToken args;
             a_threshold := a_threshold args; a_output := a_output args;
             a_help := Some true |}
      else if String.prefix "-" arg then Throw (new_Error ("Unknown option: " ++ arg))
      else parse_loop rest args
  end.

(** [s || d] for an optional string *)
Definition string_or (s : option string) (d : string) : string :=
  match s with
  | Some v => if String.eqb v "" then d else v
  | None => d
  end.

(** [parseArgs(argv)]: the loop starts at position 2. *)
Definition parseArgs (argv : list string) : Result CliArgs :=
  bind (parse_loop (skipn 2 argv) no_args) (fun args =>
  Ok {| sonarUrl := string_or (a_sonarUrl args) "";
        sonarToken := string_or (a_sonarToken args) "";
        cli_threshold :=
          match a_threshold args with
          | Some t => if truthy (JNumber t) then t else 50%float
          | None => 50%float
          end;
        output := a_output args;
        help := a_help args |}).






(** The environment variables [SONAR_URL] and [SONAR_TOKEN], the built-ins
    that the orchestrator reaches, and the projects there are. *)
Variable SONAR_URL : option string.
Variable SONAR_TOKEN : option string.
Variable URL_valid : string -> bool.
Variable readings : Clock.
Variable store : Store.




End ParseArgs.

(** The command line [--threshold 0] and what [parseArgs] makes of it. *)
Definition threshold_zero : list string := ["node"; "cli.js"; "--threshold"; "0"].

Definition threshold_zero_args : CliArgs :=
  {| sonarUrl := ""; sonarToken := ""; cli_threshold := 50; output := None; help := None |}.


End Cli.
(** * Proofs *)

(** ** Facts on binary64 comparisons *)

Module FloatFacts.

Lemma SFcompare_antisym (x y : spec_float) :
  SFcompare y x = option_map CompOpp (SFcompare x y).
Proof.
  destruct x as [sx|sx| |sx mx ex], y as [sy|sy| |sy my ey]; simpl;
    try reflexivity;
    try (destruct sx; reflexivity); try (destruct sy; reflexivity);
    try (destruct sx, sy; reflexivity).
  destruct sx, sy; simpl; try reflexivity;
    rewrite (Z.compare_antisym ey ex); destruct (ey ?= ex)%Z; simpl; try reflexivity.
  - rewrite (Pos.compare_cont_antisym mx my Eq). reflexivity.
  - rewrite (Pos.compare_cont_antisym mx my Eq). reflexivity.
Qed.

Lemma SFcompare_refl (x : spec_float) :
  x <> S754_nan -> SFcompare x x = Some Eq.
Proof.
  destruct x as [s|s| |s m e]; simpl; intros H; try reflexivity; try congruence.
  - destruct s; reflexivity.
  - rewrite Z.compare_refl. rewrite Pos.compare_cont_refl. destruct s; reflexivity.
Qed.

Lemma is_nan_spec (c : float) :
  PrimFloat.is_nan c = true <-> Prim2SF c = S754_nan.
Proof.
  unfold PrimFloat.is_nan. rewrite FloatAxioms.eqb_spec. unfold SFeqb.
  split.
  - destruct (Prim2SF c) eqn:E; try reflexivity; intros H;
      rewrite SFcompare_refl in H by discriminate; discriminate.
  - intros ->. reflexivity.
Qed.

Lemma Prim2SF_zero : Prim2SF 0 = S754_zero false.
Proof. reflexivity. Qed.

Lemma Prim2SF_infinity : Prim2SF infinity = S754_infinity false.
Proof. reflexivity. Qed.

Lemma Prim2SF_hundred : Prim2SF 100 = S754_finite false 7036874417766400 (-46).
Proof. reflexivity. Qed.

(** Every comparison of the classifier, read on the specification floats. *)
Ltac to_spec_float :=
  unfold Number_isNaN, Number_isFinite, PrimFloat.is_finite, PrimFloat.is_infinity,
    PrimFloat.is_nan in *;
  rewrite ?FloatAxioms.eqb_spec, ?FloatAxioms.ltb_spec, ?FloatAxioms.leb_spec,
    ?FloatAxioms.abs_spec in *;
  rewrite ?Prim2SF_zero, ?Prim2SF_infinity, ?Prim2SF_hundred in *;
  unfold SFeqb, SFltb, SFleb in *.

(** A float that is an ordinary number between two finite bounds: neither NaN
    nor infinite, not below the lower bound, not above the upper one. *)
Lemma between_finite_bounds (x lo hi : spec_float) :
  (exists s m e, hi = S754_finite s m e) ->
  (lo = S754_zero false \/ exists s m e, lo = S754_finite s m e) ->
  match SFcompare lo x with Some (Lt | Eq) => true | _ => false end = true ->
  match SFcompare x hi with Some (Lt | Eq) => true | _ => false end = true ->
  x <> S754_nan /\ (forall s, x <> S754_infinity s) /\
  match SFcompare x lo with Some Lt => true | _ => false end = false /\
  match SFcompare hi x with Some Lt => true | _ => false end = false.
Proof.
  intros (sh & mh & eh & ->) Hlo H1 H2.
  rewrite (SFcompare_antisym lo x), (SFcompare_antisym x (S754_finite sh mh eh)).
  destruct (SFcompare lo x) as [[]|] eqn:E1; try discriminate;
    destruct (SFcompare x (S754_finite sh mh eh)) as [[]|] eqn:E2; try discriminate;
    (split; [intros ->; destruct lo; discriminate|]);
    (split; [|split; reflexivity]);
    intros s ->; destruct Hlo as [->|(sl & ml & el & ->)];
    destruct s, sh; simpl in *; try discriminate;
    destruct sl; discriminate.
Qed.

Lemma not_lt_le (x y : spec_float) :
  x <> S754_nan -> y <> S754_nan ->
  match SFcompare y x with Some Lt => true | _ => false end = false ->
  match SFcompare x y with Some (Lt | Eq) => true | _ => false end = true.
Proof.
  intros Hx Hy. rewrite (SFcompare_antisym x y).
  destruct (SFcompare x y) as [[]|] eqn:E; simpl; try reflexivity; try discriminate.
  destruct x, y; simpl in E; try discriminate; congruence.
Qed.

(** A number below zero is not above a positive one. *)
Lemma negative_not_above (x : spec_float) (m : positive) (e : Z) :
  match SFcompare x (S754_zero false) with Some Lt => true | _ => false end = true ->
  match SFcompare (S754_finite false m e) x with Some Lt => true | _ => false end = true ->
  False.
Proof.
  destruct x as [s|s| |s mx ex]; simpl; try discriminate; destruct s; discriminate.
Qed.

End FloatFacts.

(** ** The classifier *)

Module ClassifierProofs.
Import SpanishCoverageClassifier FloatFacts.

(** Validation accepts exactly the numbers [c] with [0 <= c <= 100]. *)
Lemma validateCoverage_number (c : float) :
  validateCoverage (JNumber c) = true <->
  (0 <=? c)%float = true /\ (c <=? 100)%float = true.
Proof.
  unfold validateCoverage, validateCoverageInternal. split.
  - destruct (Number_isNaN c) eqn:Hnan; [discriminate|].
    destruct (Number_isFinite c) eqn:Hfin; [|discriminate]. simpl.
    destruct (c <? 0)%float eqn:Hneg; [discriminate|].
    destruct (100 <? c)%float eqn:Hbig; [discriminate|]. intros _.
    assert (Hx : Prim2SF c <> S754_nan).
    { intros E. apply is_nan_spec in E. unfold Number_isNaN in Hnan. congruence. }
    to_spec_float. split; apply not_lt_le; try assumption; discriminate.
  - intros [H0 H100]. to_spec_float.
    destruct (between_finite_bounds (Prim2SF c) (S754_zero false)
                (S754_finite false 7036874417766400 (-46)))
      as (Hnan & Hinf & Hneg & Hbig); eauto.
    rewrite Hneg, Hbig, (SFcompare_refl _ Hnan). simpl.
    destruct (Prim2SF c) as [s|s| |s m e]; simpl; try reflexivity.
    destruct (Hinf s); reflexivity.
Qed.

Lemma classify_valid (c t : float) :
  validateCoverage (JNumber c) = true ->
  classify (JNumber c) t =
    if (c =? 0)%float then Ok SIN_COVERAGE
    else if (t <=? c)%float then Ok SI_PASA_MINIMO else Ok NO_PASA_MINIMO.
Proof.
  unfold classify, validateCoverage, validateCoverageInternal.
  destruct (Number_isNaN c); [discriminate|].
  destruct (negb (Number_isFinite c)); [discriminate|].
  destruct (c <? 0)%float; [discriminate|].
  destruct (100 <? c)%float; [discriminate|]. reflexivity.
Qed.

Lemma positive_iff_nonzero (c : float) :
  (0 <=? c)%float = true ->
  ((c =? 0)%float = false <-> (0 <? c)%float = true).
Proof.
  to_spec_float. rewrite (SFcompare_antisym (S754_zero false) (Prim2SF c)).
  destruct (SFcompare (S754_zero false) (Prim2SF c)) as [[]|]; simpl;
    intros H; split; intros H'; congruence.
Qed.

Lemma leb_refl (c : float) :
  PrimFloat.is_nan c = false -> (c <=? c)%float = true.
Proof.
  intros H. assert (Hx : Prim2SF c <> S754_nan).
  { intros E. apply is_nan_spec in E. congruence. }
  to_spec_float. rewrite (SFcompare_refl _ Hx). reflexivity.
Qed.

Lemma valid_not_nan (c : float) :
  validateCoverage (JNumber c) = true -> PrimFloat.is_nan c = false.
Proof.
  unfold validateCoverage, validateCoverageInternal, Number_isNaN.
  destruct (PrimFloat.is_nan c); [discriminate|reflexivity].
Qed.

(** C1: for a coverage [c] that passes validation (a number with
    [0 <= c <= 100], hence finite), [classify c t] is
    [SIN_COVERAGE] exactly when [c == 0]; for [c > 0] (which, for a validated
    [c], is the same as [c != 0]) it is [SI_PASA_MINIMO] exactly when [c >= t]
    and [NO_PASA_MINIMO] exactly when not; and [classify t t] is
    [SI_PASA_MINIMO] for every [t] with [0 < t <= 100]. *)
Theorem classify_by_threshold (c t : float) :
  validateCoverage (JNumber c) = true ->
  ((0 <=? c)%float = true /\ (c <=? 100)%float = true) /\
  (classify (JNumber c) t = Ok SIN_COVERAGE <-> (c =? 0)%float = true) /\
  ((c =? 0)%float = false <-> (0 <? c)%float = true) /\
  ((0 <? c)%float = true ->
     (classify (JNumber c) t = Ok SI_PASA_MINIMO <-> (t <=? c)%float = true) /\
     (classify (JNumber c) t = Ok NO_PASA_MINIMO <-> (t <=? c)%float = false)) /\
  ((0 <? t)%float = true -> (t <=? 100)%float = true ->
     classify (JNumber t) t = Ok SI_PASA_MINIMO).
Proof.
  intros Hv. pose proof (proj1 (validateCoverage_number c) Hv) as [H0 _].
  pose proof (positive_iff_nonzero c H0) as Hpos.
  rewrite (classify_valid c t Hv).
  split; [apply validateCoverage_number; exact Hv|].
  split; [|split; [exact Hpos|split]].
  - destruct (c =? 0)%float; [tauto|].
    destruct (t <=? c)%float; split; intros; discriminate || congruence.
  - intros Hc. apply Hpos in Hc. rewrite Hc.
    destruct (t <=? c)%float; split; split; intros; discriminate || congruence.
  - intros Ht0 Ht100.
    assert (Ht : (0 <=? t)%float = true).
    { revert Ht0. to_spec_float.
      destruct (SFcompare (S754_zero false) (Prim2SF t)) as [[]|]; congruence. }
    assert (Hvt : validateCoverage (JNumber t) = true)
      by (apply validateCoverage_number; auto).
    rewrite (classify_valid t t Hvt).
    apply (positive_iff_nonzero t Ht) in Ht0. rewrite Ht0.
    rewrite (leb_refl t (valid_not_nan t Hvt)). reflexivity.
Qed.

Lemma classify_by_threshold_witness :
  validateCoverage (JNumber 50) = true /\
  classify (JNumber 50) 50 = Ok SI_PASA_MINIMO /\
  classify (JNumber 25) 50 = Ok NO_PASA_MINIMO.
Proof.
  split; [reflexivity|]. split.
  - apply (classify_by_threshold 50 50); reflexivity.
  - apply (classify_by_threshold 25 50); reflexivity.
Defined.

(** C7 (amended): [classify v t] throws an [Error] whose message is
    [Invalid coverage value: ] followed by the reason of the rejection (the
    offending value itself is not part of it) when [v] is not a number, is
    NaN, is infinite, is negative or exceeds 100, in particular for NaN,
    Infinity, -1 and 101; and it returns a category for every number in
    [0,100], whatever the threshold. *)
Theorem classify_rejects_exactly (v : JsValue) (t : float) :
  (typeof v <> "number" -> classify v t = rejected "Coverage must be a number") /\
  (forall c : float, v = JNumber c ->
     (PrimFloat.is_nan c = true -> classify v t = rejected "Coverage cannot be NaN") /\
     (PrimFloat.is_infinity c = true ->
        classify v t = rejected "Coverage must be a finite number") /\
     (PrimFloat.is_finite c = true -> (c <? 0)%float = true ->
        classify v t = rejected "Coverage cannot be negative") /\
     (PrimFloat.is_finite c = true -> (100 <? c)%float = true ->
        classify v t = rejected "Coverage cannot exceed 100%") /\
     ((0 <=? c)%float = true -> (c <=? 100)%float = true ->
        exists category, classify v t = Ok category)) /\
  classify (JNumber nan) t = rejected "Coverage cannot be NaN" /\
  classify (JNumber infinity) t = rejected "Coverage must be a finite number" /\
  classify (JNumber (-1)) t = rejected "Coverage cannot be negative" /\
  classify (JNumber 101) t = rejected "Coverage cannot exceed 100%".
Proof.
  split; [|split; [|repeat split; reflexivity]].
  - destruct v; simpl; intros H; try reflexivity. congruence.
  - intros c ->. unfold classify, validateCoverageInternal, Number_isNaN, Number_isFinite.
    repeat split.
    + intros ->. reflexivity.
    + intros Hinf. unfold PrimFloat.is_finite. rewrite Hinf, orb_true_r. simpl.
      destruct (PrimFloat.is_nan c) eqn:Hnan; [|reflexivity].
      apply is_nan_spec in Hnan. revert Hinf. to_spec_float. rewrite Hnan. discriminate.
    + intros Hfin Hneg. rewrite Hfin, Hneg. simpl.
      destruct (PrimFloat.is_nan c) eqn:Hnan; [|reflexivity].
      unfold PrimFloat.is_finite in Hfin. rewrite Hnan in Hfin. discriminate.
    + intros Hfin Hbig. rewrite Hfin, Hbig. simpl.
      destruct (PrimFloat.is_nan c) eqn:Hnan.
      { unfold PrimFloat.is_finite in Hfin. rewrite Hnan in Hfin. discriminate. }
      destruct (c <? 0)%float eqn:Hneg; [|reflexivity].
      exfalso. revert Hneg Hbig. to_spec_float. apply negative_not_above.
    + intros H0 H100.
      assert (Hv : validateCoverage (JNumber c) = true)
        by (apply validateCoverage_number; auto).
      pose proof (classify_valid c t Hv) as E.
      unfold classify, validateCoverageInternal, Number_isNaN, Number_isFinite in E.
      rewrite E. destruct (c =? 0)%float; [eauto|]. destruct (t <=? c)%float; eauto.
Qed.

(** C7 as stated fails: the error thrown for the coverage -1 is an [Error]
    whose message does not contain the offending value, and the very same
    error is thrown for -2. *)
Lemma classify_error_omits_value :
  classify (JNumber (-1)) 50
    = Throw (JError "Error" "Invalid coverage value: Coverage cannot be negative") /\
  classify (JNumber (-2)) 50 = classify (JNumber (-1)) 50 /\
  String.index 0 "-1" "Invalid coverage value: Coverage cannot be negative" = None /\
  String.index 0 "1" "Invalid coverage value: Coverage cannot be negative" = None.
Proof. repeat split; reflexivity. Qed.

End ClassifierProofs.

(** ** The filter engine *)

Module FilterProofs.
Import FilterStrategies.

Section FirstSeen.

Implicit Types (p x : ProjectRef) (l seen acc : list ProjectRef).

Lemma existsb_eqb_In x l : existsb (Pos.eqb x) l = true <-> In x l.
Proof.
  rewrite existsb_exists. split.
  - intros (y & Hy & E). apply Pos.eqb_eq in E. now subst.
  - intros H. exists x. split; [assumption|apply Pos.eqb_refl].
Qed.

(** [seen] matters through membership only. *)
Lemma first_seen_from_ext l : forall seen seen',
  (forall x, In x seen <-> In x seen') ->
  first_seen_from seen l = first_seen_from seen' l.
Proof.
  induction l as [|p l IH]; intros seen seen' H; simpl; [reflexivity|].
  assert (E : existsb (Pos.eqb p) seen = existsb (Pos.eqb p) seen').
  { apply eq_true_iff_eq. rewrite !existsb_eqb_In. apply H. }
  rewrite E. destruct (existsb (Pos.eqb p) seen').
  - now apply IH.
  - f_equal. apply IH. intros x. simpl. rewrite H. reflexivity.
Qed.

Lemma first_seen_from_app l1 : forall seen l2,
  first_seen_from seen (l1 ++ l2) =
  (first_seen_from seen l1 ++ first_seen_from (seen ++ first_seen_from seen l1) l2)%list.
Proof.
  induction l1 as [|p l1 IH]; intros seen l2; simpl.
  - now rewrite app_nil_r.
  - destruct (existsb (Pos.eqb p) seen); [apply IH|].
    simpl. f_equal. rewrite IH. f_equal. apply first_seen_from_ext.
    intros x. simpl. rewrite !in_app_iff. simpl. tauto.
Qed.

Lemma first_seen_from_In l : forall seen x,
  In x (first_seen_from seen l) <-> In x l /\ ~ In x seen.
Proof.
  induction l as [|p l IH]; intros seen x; simpl; [tauto|].
  destruct (existsb (Pos.eqb p) seen) eqn:E.
  - apply existsb_eqb_In in E. rewrite IH. split; [tauto|].
    intros [[->|H] Hn]; tauto.
  - assert (Hp : ~ In p seen) by (rewrite <- existsb_eqb_In; congruence).
    simpl. rewrite IH. simpl. split.
    + intros [->|[H Hn]]; tauto.
    + intros [[->|H] Hn]; [tauto|].
      destruct (Pos.eq_dec p x); [tauto|]. right. tauto.
Qed.

Lemma first_seen_from_NoDup l : forall seen, List.NoDup (first_seen_from seen l).
Proof.
  induction l as [|p l IH]; intros seen; simpl; [constructor|].
  destruct (existsb (Pos.eqb p) seen); [apply IH|].
  constructor; [|apply IH]. rewrite first_seen_from_In. simpl. tauto.
Qed.

(** The loop body: adding the elements of [l] one by one to a set [acc]
    appends to [acc] the elements of [l] not yet in it, in first-seen order. *)
Lemma forEach_add_first_seen l : forall acc,
  forEach_add l acc = (acc ++ first_seen_from acc l)%list.
Proof.
  unfold forEach_add.
  induction l as [|p l IH]; intros acc; simpl; [now rewrite app_nil_r|].
  rewrite IH. unfold Set_add, Set_has. destruct (existsb (Pos.eqb p) acc); [reflexivity|].
  rewrite <- app_assoc. simpl. do 2 f_equal. apply first_seen_from_ext.
  intros x. rewrite in_app_iff. simpl. tauto.
Qed.

End FirstSeen.

Lemma or_loop_first_seen (P : list ProjectRef) (strategies : list FilterStrategy)
    (outputs : list (list ProjectRef)) :
  List.Forall2 (fun s out => apply s P = Ok out) strategies outputs ->
  forall acc,
    or_loop strategies P acc = Ok (acc ++ first_seen_from acc (concat outputs))%list.
Proof.
  induction 1 as [|s out ss outs Hs _ IH]; intros acc; simpl.
  - now rewrite app_nil_r.
  - rewrite Hs. simpl. rewrite IH, forEach_add_first_seen, first_seen_from_app.
    now rewrite <- app_assoc.
Qed.

(** A sub-strategy that throws ends the loop with its exception. *)
Lemma or_loop_throws (P : list ProjectRef) (before : list FilterStrategy)
    (outputs : list (list ProjectRef)) (s : FilterStrategy) (e : JsValue)
    (after : list FilterStrategy) :
  List.Forall2 (fun s out => apply s P = Ok out) before outputs ->
  apply s P = Throw e ->
  forall acc, or_loop (before ++ s :: after) P acc = Throw e.
Proof.
  intros H Hs. induction H as [|s' out ss outs Hs' _ IH]; intros acc; simpl.
  - now rewrite Hs.
  - rewrite Hs'. simpl. apply IH.
Qed.

(** C4 (amended): when every sub-strategy returns on the original collection
    [P], a non-empty OR-combination returns the union of the outputs
    [s1.apply(P)], [s2.apply(P)], ... taken in listed order, each project
    kept once, where it is first seen; an empty OR-combination returns [P]
    itself.  The union has no duplicates, holds exactly the projects of the
    outputs, and a project first seen after a prefix of the outputs comes
    after exactly the projects of that prefix. *)
Theorem or_apply_union (strategies : list FilterStrategy) (P : list ProjectRef)
    (outputs : list (list ProjectRef)) :
  List.Forall2 (fun s out => apply s P = Ok out) strategies outputs ->
  (strategies <> [] ->
     apply (OrFilterStrategy strategies) P = Ok (union_first_seen outputs)) /\
  (strategies = [] -> apply (OrFilterStrategy strategies) P = Ok P) /\
  List.NoDup (union_first_seen outputs) /\
  (forall x, In x (union_first_seen outputs) <-> exists out, In out outputs /\ In x out) /\
  (forall before x after,
     concat outputs = (before ++ x :: after)%list -> ~ In x before ->
     exists later,
       union_first_seen outputs = (union_first_seen [before] ++ x :: later)%list /\
       forall y, In y (union_first_seen [before]) <-> In y before).
Proof.
  intros H. unfold union_first_seen. repeat split.
  - intros Hne. simpl. destruct strategies as [|s ss]; [congruence|].
    apply (or_loop_first_seen P _ _ H []).
  - intros ->. reflexivity.
  - apply first_seen_from_NoDup.
  - rewrite first_seen_from_In. intros [Hx _]. apply in_concat in Hx.
    destruct Hx as (out & ? & ?). eauto.
  - intros (out & Ho & Hx). rewrite first_seen_from_In. split; [|simpl; tauto].
    apply in_concat. eauto.
  - intros before x after E Hx. rewrite E, first_seen_from_app. simpl.
    rewrite app_nil_r.
    assert (Hn : existsb (Pos.eqb x) (first_seen_from [] before) = false).
    { apply not_true_is_false. rewrite existsb_eqb_In, first_seen_from_In. tauto. }
    rewrite Hn. eexists. split; [reflexivity|].
    intros y. rewrite first_seen_from_In. simpl. tauto.
Qed.

Lemma or_apply_union_witness :
  apply (OrFilterStrategy [Samples.above 2; Samples.below 2]) [1; 2; 3]%positive
    = Ok [2; 3; 1]%positive.
Proof.
  apply (or_apply_union [Samples.above 2; Samples.below 2] [1; 2; 3]%positive
           [[2; 3]; [1; 2]]%positive).
  - repeat constructor.
  - discriminate.
Defined.

(** C4 as stated fails for the empty list of sub-strategies: the union of no
    output is empty and has no duplicates, while the code returns its input
    as it is, here a collection that holds the same project twice. *)
Lemma or_empty_returns_input :
  List.Forall2 (fun s out => apply s [1; 1]%positive = Ok out) [] [] /\
  apply (OrFilterStrategy []) [1; 1]%positive = Ok [1; 1]%positive /\
  apply (OrFilterStrategy []) [1; 1]%positive <> Ok (union_first_seen []) /\
  ~ List.NoDup [1; 1]%positive.
Proof.
  repeat split; try constructor; try discriminate.
  intros H. inversion H as [|? ? Hin _]. apply Hin. now left.
Qed.

Lemma Array_filter_true {A} (l : list A) :
  Array_filter (fun _ => Ok true) l = Ok l.
Proof.
  induction l as [|x l IH]; simpl; [reflexivity|]. now rewrite IH.
Qed.

Lemma strategies_chain (calls : list BuilderCall) : forall b,
  strategies (fold_left call calls b) = (strategies b ++ map added calls)%list.
Proof.
  induction calls as [|c calls IH]; intros b; simpl.
  - now rewrite app_nil_r.
  - rewrite IH. destruct c; simpl; rewrite <- app_assoc; reflexivity.
Qed.

Lemma Array_filter_bool {A} (f : A -> bool) (l : list A) :
  Array_filter (fun x => Ok (f x)) l = Ok (List.filter f l).
Proof.
  induction l as [|x l IH]; simpl; [reflexivity|]. rewrite IH. simpl.
  destruct (f x); reflexivity.
Qed.

Lemma Array_reduce_in_order (l : list FilterStrategy) : forall P,
  Array_reduce (fun filtered strategy => apply strategy filtered) l P
  = FilterStrategiesMore.apply_in_order l P.
Proof.
  induction l as [|s l IH]; intros P; [reflexivity|].
  cbn [Array_reduce FilterStrategiesMore.apply_in_order].
  destruct (apply s P) as [filtered|e]; [apply IH|reflexivity].
Qed.

Lemma in_order_of_predicates (fs : list (ProjectRef -> bool)) : forall P,
  FilterStrategiesMore.apply_in_order (map added (map FilterStrategiesMore.add_total fs)) P
  = Ok (List.filter (fun p => forallb (fun f => f p) fs) P).
Proof.
  induction fs as [|f fs IH]; intros P; cbn [map forallb FilterStrategiesMore.apply_in_order].
  - f_equal. induction P as [|p P IHP]; simpl; congruence.
  - cbn [added FilterStrategiesMore.add_total apply PredicateFilterStrategy].
    rewrite (Array_filter_bool f), IH. f_equal.
    clear. induction P as [|p P IHP]; simpl; [reflexivity|].
    destruct (f p); simpl; [|exact IHP]. destruct (forallb (fun f0 => f0 p) fs); congruence.
Qed.

(** C5: after any chain of [addStrategy], [addPredicate], [and] and [or]
    calls on a fresh builder, [build] returns the strategy that was added when
    there is exactly one, the AND-combination of the added strategies in
    addition order when there are several, and, when there is none, the
    pass-through strategy, whose [apply] returns its input unchanged.  In
    every case what is built applies the added strategies one after the
    other in addition order, each to what the one before it returned, and
    throws what the first failing strategy throws; built of predicates that
    always return, it keeps, in the order of the input, exactly the projects
    on which every predicate holds. *)
Theorem build_chain (calls : list BuilderCall) :
  strategies (chain calls) = map added calls /\
  build (chain calls) =
    match map added calls with
    | [] => NoOpFilter
    | [only] => only
    | several => AndFilterStrategy several
    end /\
  (forall P, apply NoOpFilter P = Ok P) /\
  (forall P,
     apply (build (chain calls)) P
     = FilterStrategiesMore.apply_in_order (map added calls) P) /\
  (forall (fs : list (ProjectRef -> bool)) P,
     apply (build (chain (map FilterStrategiesMore.add_total fs))) P
     = Ok (List.filter (fun p => forallb (fun f => f p) fs) P)).
Proof.
  assert (E : forall cs, strategies (chain cs) = map added cs)
    by (intros cs; apply (strategies_chain cs new_ProjectFilterBuilder)).
  assert (B : forall cs P,
            apply (build (chain cs)) P
            = FilterStrategiesMore.apply_in_order (map added cs) P).
  { intros cs P. unfold build. rewrite E.
    destruct (map added cs) as [|s1 [|s2 rest]].
    - apply Array_filter_true.
    - cbn [FilterStrategiesMore.apply_in_order]. destruct (apply s1 P); reflexivity.
    - cbn [apply AndFilterStrategy]. apply Array_reduce_in_order. }
  split; [apply E|]. split; [|split; [|split]].
  - unfold build. rewrite E. destruct (map added calls) as [|s1 [|s2 rest]]; reflexivity.
  - intros P. apply Array_filter_true.
  - apply B.
  - intros fs P. rewrite B. apply in_order_of_predicates.
Qed.

(** The package's own tests: a single coverage filter, a chain of two
    strategies, an empty builder. *)
Example build_coverageAbove :
  apply (build (coverageAbove Samples.store 40)) Samples.projects = Ok [3]%positive.
Proof. reflexivity. Qed.

Example build_two_strategies :
  apply (build (chain [CallAddStrategy (Samples.above 2); CallAddStrategy (Samples.below 2)]))
    Samples.projects = Ok [2]%positive.
Proof. reflexivity. Qed.

End FilterProofs.

(** ** The CSV reporter *)

Module ReporterProofs.
Import Builtins PapaparseCsvReporter.

Lemma typeof_string (v : JsValue) :
  String.eqb (typeof v) "string" = true <-> exists s, v = JString s.
Proof.
  destruct v; simpl; split; try discriminate; try (intros [? ?]; discriminate); eauto.
Qed.

Lemma typeof_number (v : JsValue) :
  String.eqb (typeof v) "number" = true <-> exists n, v = JNumber n.
Proof.
  destruct v; simpl; split; try discriminate; try (intros [? ?]; discriminate); eauto.
Qed.

(** A value with a property is an object, hence truthy. *)
Lemma get_defined_truthy (v : JsValue) (k : string) :
  get v k <> JUndefined -> truthy v = true.
Proof. destruct v; simpl; congruence. Qed.

Lemma valid_item_iff (item : JsValue) :
  valid_item item = true <-> well_formed_item item.
Proof.
  unfold valid_item, well_formed_item.
  rewrite !andb_true_iff, !typeof_string, !typeof_number. split.
  - intros [[[[[_ _] [nm ?]] [c ?]] [cat ?]] [th ?]]. eauto 10.
  - intros (nm & c & cat & th & Hn & Hc & Hcat & Hth).
    assert (Hp : truthy (get item "project") = true).
    { apply (get_defined_truthy _ "name"). congruence. }
    assert (Hi : truthy item = true).
    { apply (get_defined_truthy _ "project").
      intros E. rewrite E in Hp. discriminate. }
    repeat split; eauto.
Qed.

Lemma validateData_iff (data : JsValue) :
  validateData data = true <->
  exists items, data = JArray items /\ List.Forall well_formed_item items.
Proof.
  split.
  - destruct data; try discriminate. simpl. intros H. exists items. split; [reflexivity|].
    destruct items as [|i items]; [constructor|]. simpl in H.
    apply List.Forall_forall. intros x Hx. apply valid_item_iff.
    change (forallb valid_item (i :: items) = true) in H.
    rewrite forallb_forall in H. auto.
  - intros (items & -> & H). simpl. destruct (Nat.eqb (length items) 0); [reflexivity|].
    apply forallb_forall. intros x Hx. apply valid_item_iff.
    rewrite List.Forall_forall in H. auto.
Qed.

(** C6 (amended): [validateData] returns [true] exactly when its input is an
    array (the empty one included) in which every element has a string
    project name (the empty string included), a numeric coverage, a string
    category and a numeric threshold; on every other input [generate] and
    [generateDetailed] throw and emit no text. *)
Theorem validateData_exactly (data : JsValue) :
  (validateData data = true <->
     exists items, data = JArray items /\ List.Forall well_formed_item items) /\
  validateData (JArray []) = true /\
  (forall Number_toString now config,
     validateData data = false ->
     generateDetailed Number_toString now data config
       = Throw (new_Error "Invalid data provided for CSV generation") /\
     generate Number_toString now data config
       = Throw (new_Error "Invalid data provided for CSV generation")).
Proof.
  split; [apply validateData_iff|]. split; [reflexivity|].
  intros ts now config H. unfold generate, generateDetailed. rewrite H. split; reflexivity.
Qed.

(** C6 as stated fails: an element whose project name is the empty string is
    accepted, and a CSV row is generated for it. *)
Lemma validateData_accepts_empty_name :
  get (get Samples.unnamed_item "project") "name" = JString "" /\
  validateData (JArray [Samples.unnamed_item]) = true /\
  (forall Number_toString now,
     generate Number_toString now (JArray [Samples.unnamed_item]) None
       = Ok (Samples.lines ["repository,coverage_percent,category";
                            ",0.00,Sin coverage"])).
Proof. repeat split. Qed.

(** The reporter's tests: default configuration, custom configuration, no
    data. *)
Example generate_default (Number_toString : float -> string) (now : float) :
  generate Number_toString now Samples.report_data None
    = Ok (Samples.lines ["repository,coverage_percent,category";
                         "project-a,75.50,Si pasa el mínimo esperado";
                         "project-b,25.00,No pasa del mínimo esperado";
                         "project-c,0.00,Sin coverage"]).
Proof. vm_compute. reflexivity. Qed.

Example generate_custom (Number_toString : float -> string) (now : float) :
  generate Number_toString now Samples.report_data
    (Some {| headers := Some ["name"; "coverage"; "status"]; delimiter := Some ";";
             includeHeaders := None; columnMapping := None;
             numberFormat := Some {| decimalPlaces := Some 1%Z;
                                     includePercentSign := Some true |} |})
    = Ok (Samples.lines ["name;coverage;status";
                         "project-a;75.5%;Si pasa el mínimo esperado";
                         "project-b;25.0%;No pasa del mínimo esperado";
                         "project-c;0.0%;Sin coverage"]).
Proof. vm_compute. reflexivity. Qed.

Example generate_empty (Number_toString : float -> string) (now : float) :
  generate Number_toString now (JArray []) None = Ok "".
Proof. reflexivity. Qed.

(** C8, on the code: a column mapping that renames [repository] leaves the
    CSV as it is without the mapping, header row included (the serializer is
    given the configured headers as its columns and never reads the mapped
    properties); a mapping onto the name of another header overwrites the
    values of that column. *)
Theorem columnMapping_does_not_rename (Number_toString : float -> string) (now : float) :
  generate Number_toString now Samples.report_data
    (Some (Samples.mapping_config [("repository", "repo")]))
    = Ok (Samples.lines ["repository,coverage_percent,category";
                         "project-a,75.50,Si pasa el mínimo esperado";
                         "project-b,25.00,No pasa del mínimo esperado";
                         "project-c,0.00,Sin coverage"]) /\
  generate Number_toString now Samples.report_data
    (Some (Samples.mapping_config [("repository", "repo")]))
    = generate Number_toString now Samples.report_data None /\
  generate Number_toString now Samples.report_data
    (Some (Samples.mapping_config [("repository", "category")]))
    = Ok (Samples.lines ["repository,coverage_percent,category";
                         "project-a,75.50,project-a";
                         "project-b,25.00,project-b";
                         "project-c,0.00,project-c"]).
Proof. repeat split; vm_compute; reflexivity. Qed.

(** *** A column mapping and the columns that are read *)

Lemma mapped_row_avoids (row : Papa.Row) (mapping : list (string * string)) (f : string) :
  ~ In f (map snd mapping) -> mapped_row row mapping !! f = None.
Proof.
  intros Hf. unfold mapped_row.
  assert (G : forall acc : Papa.Row, acc !! f = None ->
    fold_left (fun (mappedRow : Papa.Row) entry =>
                 match row !! fst entry with
                 | Some v => <[snd entry := v]> mappedRow
                 | None => mappedRow
                 end) mapping acc !! f = None).
  { induction mapping as [|entry rest IH]; intros acc Hacc; cbn [fold_left];
      [exact Hacc|].
    apply IH.
    - intros H. apply Hf. simpl. now right.
    - destruct (row !! entry.1); [|exact Hacc].
      rewrite lookup_insert_ne; [exact Hacc|]. intros E. apply Hf. simpl. now left. }
  apply G, lookup_empty.
Qed.

Lemma serialize_same_fields (delimiter : string) (writeHeader : bool)
    (fields : list string) (rows1 rows2 : list Papa.Row) :
  List.Forall2 (same_fields fields) rows1 rows2 ->
  Papa.serialize delimiter writeHeader fields rows1
    = Papa.serialize delimiter writeHeader fields rows2.
Proof.
  intros H. unfold Papa.serialize.
  rewrite (Forall2_length _ _ _ H). do 2 f_equal.
  induction H as [|r1 r2 rows1 rows2 Hr _ IH]; simpl; [reflexivity|].
  rewrite IH. f_equal. unfold Papa.serialize_line. do 2 f_equal.
  apply map_ext_in. exact Hr.
Qed.

Lemma unparse_same_fields (delimiter : string) (header : bool)
    (columns : list string) (rows1 rows2 : list Papa.Row) :
  List.Forall2 (same_fields columns) rows1 rows2 ->
  Papa.unparse rows1 delimiter header columns = Papa.unparse rows2 delimiter header columns.
Proof.
  intros H. unfold Papa.unparse. rewrite (Forall2_length _ _ _ H).
  now rewrite (serialize_same_fields _ _ _ _ _ H).
Qed.

Section ColumnMapping.

Variable Number_toString : float -> string.
Variables (config : CsvConfig) (mapping : list (string * string)).

Let mapped := merge (Some (with_columnMapping config (Some mapping))).
Let plain := merge (Some (with_columnMapping config None)).

(** No mapped name is one of the configured headers. *)
Hypothesis fresh_names :
  forall f, In f (m_headers plain) -> ~ In f (map snd mapping).

Lemma transform_item_same_fields (item : JsValue) :
  match transform_item Number_toString mapped item,
        transform_item Number_toString plain item with
  | Ok r1, Ok r2 => same_fields (m_headers plain) r1 r2
  | Throw e1, Throw e2 => e1 = e2
  | _, _ => False
  end.
Proof.
  unfold transform_item.
  change (m_numberFormat mapped) with (m_numberFormat plain).
  change (header_key mapped) with (header_key plain).
  change (m_columnMapping mapped) with mapping.
  change (m_columnMapping plain) with (@nil (string * string)).
  destruct (formatCoverage Number_toString
              (get (get item "project") "coveragePercent") (m_numberFormat plain))
    as [coverage|e]; cbn [bind length Nat.ltb Nat.leb]; [|reflexivity].
  destruct (length mapping); [intros f _; reflexivity|].
  intros f Hf. apply lookup_union_r, mapped_row_avoids, fresh_names, Hf.
Qed.

Lemma transformDataToCsvRows_same_fields (items : list JsValue) :
  match transformDataToCsvRows Number_toString items mapped,
        transformDataToCsvRows Number_toString items plain with
  | Ok rows1, Ok rows2 => List.Forall2 (same_fields (m_headers plain)) rows1 rows2
  | Throw e1, Throw e2 => e1 = e2
  | _, _ => False
  end.
Proof.
  unfold transformDataToCsvRows.
  induction items as [|item items IH]; simpl; [constructor|].
  pose proof (transform_item_same_fields item) as H.
  destruct (transform_item Number_toString mapped item) as [r1|e1],
           (transform_item Number_toString plain item) as [r2|e2];
    simpl; try contradiction; [|exact H].
  destruct (Array_map (transform_item Number_toString mapped) items) as [rows1|e1],
           (Array_map (transform_item Number_toString plain) items) as [rows2|e2];
    simpl; try contradiction; [|exact IH].
  constructor; assumption.
Qed.

(** A column mapping whose new names are none of the configured headers has
    no effect on the generated CSV: the header row is not renamed and the
    rows are the same. *)
Lemma columnMapping_without_effect (now : float) (data : JsValue) :
  generate Number_toString now data (Some (with_columnMapping config (Some mapping)))
    = generate Number_toString now data (Some (with_columnMapping config None)).
Proof.
  unfold generate, generateDetailed. fold mapped plain.
  destruct (validateData data); cbn [negb bind]; [|reflexivity].
  pose proof (transformDataToCsvRows_same_fields (items_of data)) as H.
  destruct (transformDataToCsvRows Number_toString (items_of data) mapped) as [rows1|e1],
           (transformDataToCsvRows Number_toString (items_of data) plain) as [rows2|e2];
    cbn [bind]; try contradiction; [|now subst].
  change (m_delimiter mapped) with (m_delimiter plain).
  change (m_includeHeaders mapped) with (m_includeHeaders plain).
  change (m_headers mapped) with (m_headers plain).
  rewrite (unparse_same_fields _ _ _ _ _ H).
  destruct (Papa.unparse rows2 (m_delimiter plain) (m_includeHeaders plain)
              (m_headers plain)); reflexivity.
Qed.

End ColumnMapping.

End ReporterProofs.

(** ** The orchestrator *)

Module OrchestratorProofs.
Import DefaultReportOrchestrator.

Lemma wrapError_plain (error : JsValue) (phase : Phase) :
  plain_report_error (wrapError error phase) phase error.
Proof.
  unfold plain_report_error, wrapError. destruct error; repeat split; reflexivity.
Qed.

(** A failure of [generateReport] is the failure of its [try] block, wrapped
    once by the handler with the phase [generate]; nothing runs after it and
    a success passes through. *)
Lemma generateReport_outcome (D : Dependencies) (store : Store) (config : ReportConfig) :
  generateReport D store config =
    match generateReport_try D store config with
    | (events, Ok result) => (events, Ok result)
    | (events, Throw error) => (events, Throw (wrapError error phase_generate))
    end.
Proof.
  unfold generateReport, Run.try_catch.
  destruct (generateReport_try D store config) as [events [result|error]]; simpl;
    [reflexivity|]. now rewrite app_nil_r.
Qed.

(** A step that throws ends the [try] block: nothing of the rest runs. *)
Lemma bind_throw {A B} (events : list Event) (e : JsValue) (f : A -> Run.t B) :
  ((events, Throw e) ≫= f) = (events, Throw e).
Proof. reflexivity. Qed.

(** The run stops at the first step that fails, and what is thrown is the
    failure wrapped with the phase [generate]: no error is swallowed and no
    later step runs. *)
Lemma config_failure_stops (D : Dependencies) (store : Store) (config : ReportConfig)
    (e : JsValue) :
  validateConfig D config = Throw e ->
  generateReport D store config = ([], Throw (wrapError e phase_generate)).
Proof.
  intros H. rewrite generateReport_outcome. unfold generateReport_try. now rewrite H.
Qed.

Lemma authenticate_failure_stops (D : Dependencies) (store : Store) (config : ReportConfig)
    (e : JsValue) :
  validateConfig D config = Ok true ->
  authenticate (client D) (token (sonarqube config)) = Throw e ->
  generateReport D store config
    = ([CallAuthenticate (token (sonarqube config))], Throw (wrapError e phase_generate)).
Proof.
  intros Hv Ha. rewrite generateReport_outcome. unfold generateReport_try.
  now rewrite Hv, Ha.
Qed.

Lemma fetch_failure_stops (D : Dependencies) (store : Store) (config : ReportConfig)
    (e : JsValue) :
  validateConfig D config = Ok true ->
  authenticate (client D) (token (sonarqube config)) = Ok tt ->
  fetchProjects (client D) = Throw e ->
  generateReport D store config
    = ([CallAuthenticate (token (sonarqube config)); OnFetchingProjects; CallFetchProjects],
       Throw (wrapError e phase_generate)).
Proof.
  intros Hv Ha Hf. rewrite generateReport_outcome. unfold generateReport_try.
  now rewrite Hv, Ha, Hf.
Qed.

Lemma filter_failure_stops (D : Dependencies) (store : Store) (config : ReportConfig)
    (projects : list ProjectRef) (filtering : list Event) (e : JsValue) :
  validateConfig D config = Ok true ->
  authenticate (client D) (token (sonarqube config)) = Ok tt ->
  fetchProjects (client D) = Ok projects ->
  applyFilters D projects = (filtering, Throw e) ->
  generateReport D store config
    = (([CallAuthenticate (token (sonarqube config)); OnFetchingProjects; CallFetchProjects]
        ++ filtering)%list,
       Throw (wrapError e phase_generate)).
Proof.
  intros Hv Ha Hf Hfl. rewrite generateReport_outcome. unfold generateReport_try.
  rewrite Hv, Ha, Hf. cbn -[applyFilters wrapError]. now rewrite Hfl.
Qed.


Lemma generate_failure_stops (D : Dependencies) (store : Store) (config : ReportConfig)
    (projects filtered : list ProjectRef) (filtering classifying : list Event)
    (categorized : list CategorizedProject) (e : JsValue) :
  validateConfig D config = Ok true ->
  authenticate (client D) (token (sonarqube config)) = Ok tt ->
  fetchProjects (client D) = Ok projects ->
  applyFilters D projects = (filtering, Ok filtered) ->
  classifyProjects D store filtered (classification config) = (classifying, Ok categorized) ->
  generate (reporter D) categorized (csv config) = Throw e ->
  generateReport D store config
    = (([CallAuthenticate (token (sonarqube config)); OnFetchingProjects; CallFetchProjects]
        ++ filtering ++ [OnFiltering (length projects) (length filtered)]
        ++ classifying ++ [OnGeneratingCsv; CallGenerate categorized (csv config)])%list,
       Throw (wrapError e phase_generate)).
Proof.
  intros Hv Ha Hf Hfl Hc Hg. rewrite generateReport_outcome. unfold generateReport_try.
  rewrite Hv, Ha, Hf. cbn -[applyFilters classifyProjects wrapError].
  rewrite Hfl. cbn -[classifyProjects wrapError]. rewrite Hc. cbn -[wrapError].
  now rewrite Hg.
Qed.

(** End-to-end scenario 1 of the specification. *)
Example scenario_1 :
  snd (generateReport (Samples.dependencies Samples.working_client (fun _ _ => Ok tt))
         Samples.store (Samples.report_config "https://sonar.example" None))
  = Ok {| csvContent := Samples.scenario_csv;
          projectCount := 3;
          categoryCounts := {[ "Sin coverage" := 1; "No pasa del mínimo esperado" := 1;
                               "Si pasa el mínimo esperado" := 1 ]};
          metadata_generatedAt := 1005;
          metadata_config := Samples.report_config "https://sonar.example" None;
          metadata_processingTime := 7 |}.
Proof. vm_compute. reflexivity. Qed.

Lemma applyFilters_from_Throw (filters : list FilterStrategy) :
  forall projects events error,
    applyFilters_from filters projects = (events, Throw error) ->
    exists filter input, In filter filters /\ apply filter input = Throw error.
Proof.
  induction filters as [|f filters IH]; intros projects events error; [discriminate|].
  cbn [applyFilters_from]. unfold mbind, run_bind, Run.bind, Run.call.
  destruct (apply f projects) as [filtered|e] eqn:Hf.
  - destruct (applyFilters_from filters filtered) as [later [out|e]] eqn:Hrest;
      [discriminate|].
    intros H. inversion H; subst.
    destruct (IH _ _ _ Hrest) as (g & input & Hin & Hg).
    exists g, input. split; [now right|exact Hg].
  - intros H. inversion H; subst. exists f, projects. split; [now left|exact Hf].
Qed.

Lemma classifyProjects_from_Throw_by (D : Dependencies) (store : Store)
    (cc : ClassificationConfig.t) (total : nat) (projects : list ProjectRef) :
  forall index events error,
    classifyProjects_from D store cc total index projects = (events, Throw error) ->
    exists p,
      In p projects /\
      classify (classifier D) (coveragePercent (store p)) (ClassificationConfig.threshold cc)
      = Throw error.
Proof.
  induction projects as [|p rest IH]; intros index events error; [discriminate|].
  cbn [classifyProjects_from]. unfold classifyProject.
  unfold mbind, run_bind, Run.bind, Run.call, Run.emit, Run.ret.
  destruct (classify (classifier D) (coveragePercent (store p))
              (ClassificationConfig.threshold cc)) as [c|e] eqn:Hp.
  - destruct (classifyProjects_from D store cc total (S index) rest) as [later [others|e]]
      eqn:Hrest; [discriminate|].
    intros H. inversion H; subst.
    destruct (IH _ _ _ Hrest) as (q & Hin & Hq). exists q. split; [now right|exact Hq].
  - intros H. inversion H; subst. exists p. split; [now left|exact Hp].
Qed.

(** What the [try] block of [generateReport] throws on a configuration that
    validates is what one of the collaborators threw. *)
Lemma generateReport_try_Throw (D : Dependencies) (store : Store) (config : ReportConfig)
    (events : list Event) (error : JsValue) :
  validateConfig D config = Ok true ->
  generateReport_try D store config = (events, Throw error) ->
  OrchestratorMore.thrown_by_collaborator D store config error.
Proof.
  intros Hv. unfold generateReport_try, OrchestratorMore.thrown_by_collaborator.
  rewrite Hv. unfold mbind, run_bind, Run.bind, Run.lift, Run.call, Run.emit, Run.ret.
  destruct (authenticate (client D) (token (sonarqube config))) as [[]|e] eqn:Ha;
    [|intros H; inversion H; subst; now left].
  destruct (fetchProjects (client D)) as [projects|e] eqn:Hf;
    [|intros H; inversion H; subst; right; now left].
  destruct (applyFilters D projects) as [filtering [filtered|e]] eqn:Hfl.
  2:{ intros H. inversion H; subst. right; right; left.
      exact (applyFilters_from_Throw _ _ _ _ Hfl). }
  destruct (classifyProjects D store filtered (classification config))
    as [classifying [cats|e]] eqn:Hc.
  2:{ intros H. inversion H; subst. right; right; right; left.
      destruct (classifyProjects_from_Throw_by _ _ _ _ _ _ _ _ Hc) as (p & _ & Hp). eauto. }
  destruct (generate (reporter D) cats (csv config)) as [csvText|e] eqn:Hg.
  2:{ intros H. inversion H; subst. right; right; right; right; left. eauto. }
  destruct (outputPath config) as [path|]; [|discriminate].
  destruct (String.eqb path ""); [discriminate|].
  destruct (writeToFile (reporter D) csvText path) as [[]|e] eqn:Hw; [discriminate|].
  intros H. inversion H; subst. right; right; right; right; right. eauto.
Qed.

(** C10 (amended): what [wrapError] makes of a caught value is a plain
    object: its [name] is [ReportError], its [message] starts with the phase,
    it has a [phase], and its [cause] is the caught value when that is an
    [Error] instance and [undefined] otherwise; it is an instance neither of
    [ReportError] nor of [Error], unlike what the constructor of
    [ReportError] makes.  On a configuration that validates, what
    [generateReport] throws is made so of what a collaborator threw; what
    [validateConfig] throws is made so of an [Error], which it keeps as the
    cause. *)
Theorem thrown_value_is_plain_object (D : Dependencies) (store : Store)
    (config : ReportConfig) :
  (forall error phase, plain_report_error (wrapError error phase) phase error) /\
  (forall events e,
     validateConfig D config = Ok true ->
     generateReport D store config = (events, Throw e) ->
     exists error,
       OrchestratorMore.thrown_by_collaborator D store config error /\
       generateReport_try D store config = (events, Throw error) /\
       plain_report_error e phase_generate error) /\
  (forall e,
     validateConfig D config = Throw e ->
     exists error,
       validateConfig_try D config = Throw error /\
       instanceof_Error error = true /\
       get e "cause" = error /\
       plain_report_error e phase_config error) /\
  (forall message,
     instanceof_ReportError (new_ReportError message) = true /\
     instanceof_Error (new_ReportError message) = true).
Proof.
  split; [exact wrapError_plain|]. split; [|split; [|split; reflexivity]].
  - intros events e Hv. rewrite generateReport_outcome.
    destruct (generateReport_try D store config) as [ev [r|error]] eqn:Htry; intros H;
      inversion H; subst. exists error.
    split; [exact (generateReport_try_Throw D store config _ _ Hv Htry)|].
    split; [reflexivity|apply wrapError_plain].
  - intros e. unfold validateConfig.
    destruct (validateConfig_try D config) as [b|error] eqn:E; intros H;
      inversion H; subst. exists error. split; [reflexivity|].
    assert (Herr : instanceof_Error error = true).
    { revert E. unfold validateConfig_try.
      repeat match goal with |- context [if ?b then _ else _] => destruct b end;
        intros E; inversion E; reflexivity. }
    split; [exact Herr|]. split; [|apply wrapError_plain].
    destruct error; try discriminate. reflexivity.
Qed.

(** C10 as stated fails: a client whose [fetchProjects] rejects with a value
    that is not an [Error], here a string, makes [generateReport] throw an
    object whose [cause] is [undefined] and whose message does not tell what
    was thrown. *)
Lemma generateReport_drops_non_error_cause :
  fetchProjects OrchestratorMore.string_throwing_client = Throw (JString "boom") /\
  generateReport
    (Samples.dependencies OrchestratorMore.string_throwing_client (fun _ _ => Ok tt))
    Samples.store (Samples.report_config "https://sonar.example" None)
  = ([CallAuthenticate "secret"; OnFetchingProjects; CallFetchProjects],
     Throw (JObject [("name", JString "ReportError");
                     ("message", JString "Error in generate phase: Unknown error occurred");
                     ("phase", JString "generate");
                     ("cause", JUndefined)])).
Proof. split; reflexivity. Qed.

(** C3, on the code: a failure of the fetch is thrown with the phase
    [generate], not [fetch]; a failure of the configuration is wrapped twice,
    first with the phase [config] and then, the cause lost, with the phase
    [generate].  In both runs nothing is called after the failure. *)
Theorem failures_are_tagged_generate :
  generateReport (Samples.dependencies Samples.failing_client (fun _ _ => Ok tt))
    Samples.store (Samples.report_config "https://sonar.example" None)
  = ([CallAuthenticate "secret"; OnFetchingProjects; CallFetchProjects],
     Throw (JObject [("name", JString "ReportError");
                     ("message", JString "Error in generate phase: boom");
                     ("phase", JString "generate");
                     ("cause", JError "Error" "boom")])) /\
  generateReport (Samples.dependencies Samples.failing_client (fun _ _ => Ok tt))
    Samples.store (Samples.report_config "not a url" None)
  = ([], Throw (wrapError
                  (wrapError (new_Error "Invalid SonarQube baseUrl format") phase_config)
                  phase_generate)) /\
  wrapError (wrapError (new_Error "Invalid SonarQube baseUrl format") phase_config)
    phase_generate
  = JObject [("name", JString "ReportError");
             ("message", JString "Error in generate phase: Unknown error occurred");
             ("phase", JString "generate");
             ("cause", JUndefined)].
Proof. repeat split; reflexivity. Qed.

(** [echo_config] through the steps of a run. *)
Lemma echo_config_quiet (config : ReportConfig) (events : list Event) :
  quiet events ->
  map (fun ev => match ev with
                 | OnComplete r => OnComplete (with_config config r)
                 | other => other
                 end) events = events.
Proof.
  induction 1 as [|ev events Hev _ IH]; simpl; [reflexivity|].
  rewrite IH. f_equal. destruct ev; try reflexivity. now destruct (Hev result).
Qed.

Lemma quiet_bind {A B} (m : Run.t A) (f : A -> Run.t B) :
  quiet (fst m) -> (forall a, quiet (fst (f a))) -> quiet (fst (m ≫= f)).
Proof.
  intros Hm Hf. destruct m as [events [a|e]]; simpl in *; [|exact Hm].
  specialize (Hf a). destruct (f a) as [later r]. simpl in *.
  apply List.Forall_app. split; assumption.
Qed.

Lemma quiet_call {A} (ev : Event) (outcome : Result A) :
  (forall r, ev <> OnComplete r) -> quiet (fst (Run.call ev outcome)).
Proof. intros H. repeat constructor. exact H. Qed.

Lemma quiet_emit (ev : Event) :
  (forall r, ev <> OnComplete r) -> quiet (fst (Run.emit ev)).
Proof. intros H. repeat constructor. exact H. Qed.

Lemma quiet_ret {A} (a : A) : quiet (fst (Run.ret a)).
Proof. constructor. Qed.

Lemma applyFilters_from_quiet (filters : list FilterStrategy) : forall projects,
  quiet (fst (applyFilters_from filters projects)).
Proof.
  induction filters as [|f filters IH]; intros projects; [constructor|].
  cbn [applyFilters_from]. apply quiet_bind; [apply quiet_call; discriminate|auto].
Qed.

Lemma classifyProjects_from_quiet (D : Dependencies) (store : Store)
    (cc : ClassificationConfig.t) (total : nat) (projects : list ProjectRef) : forall index,
  quiet (fst (classifyProjects_from D store cc total index projects)).
Proof.
  induction projects as [|p projects IH]; intros index; [constructor|].
  cbn [classifyProjects_from]. apply quiet_bind.
  - unfold classifyProject. apply quiet_bind; [apply quiet_call; discriminate|].
    intros category. apply quiet_bind; [apply quiet_emit; discriminate|].
    intros _. apply quiet_ret.
  - intros categorized. apply quiet_bind; [apply IH|]. intros others. apply quiet_ret.
Qed.

Lemma echo_config_bind {A} (config : ReportConfig) (m : Run.t A)
    (f : A -> Run.t ReportResult) :
  quiet (fst m) ->
  echo_config config (m ≫= f) = (m ≫= fun a => echo_config config (f a)).
Proof.
  intros Hm. destruct m as [events [a|e]]; unfold echo_config, mbind, run_bind; simpl in *.
  - destruct (f a) as [later r]. simpl. now rewrite map_app, (echo_config_quiet _ _ Hm).
  - now rewrite (echo_config_quiet _ _ Hm).
Qed.

Lemma bind_ext {A B} (m : Run.t A) (f g : A -> Run.t B) :
  (forall a, f a = g a) -> (m ≫= f) = (m ≫= g).
Proof.
  intros H. destruct m as [events [a|e]]; unfold mbind, run_bind; simpl; [|reflexivity].
  now rewrite H.
Qed.

Lemma generateReport_try_echo (D : Dependencies) (store : Store)
    (config : ReportConfig) (fs : option (list FilterStrategy)) :
  generateReport_try D store (with_filters config fs)
    = echo_config (with_filters config fs) (generateReport_try D store config).
Proof.
  unfold generateReport_try.
  change (validateConfig D (with_filters config fs)) with (validateConfig D config).
  cbn [with_filters sonarqube classification csv outputPath].
  rewrite echo_config_bind by constructor. apply bind_ext. intros _.
  rewrite echo_config_bind by (apply quiet_call; discriminate). apply bind_ext. intros _.
  rewrite echo_config_bind by (apply quiet_emit; discriminate). apply bind_ext. intros _.
  rewrite echo_config_bind by (apply quiet_call; discriminate). apply bind_ext.
  intros projects.
  rewrite echo_config_bind by apply applyFilters_from_quiet. apply bind_ext.
  intros filteredProjects.
  rewrite echo_config_bind by (apply quiet_emit; discriminate). apply bind_ext. intros _.
  rewrite echo_config_bind by apply classifyProjects_from_quiet. apply bind_ext.
  intros categorizedProjects.
  rewrite echo_config_bind by (apply quiet_emit; discriminate). apply bind_ext. intros _.
  rewrite echo_config_bind by (apply quiet_call; discriminate). apply bind_ext.
  intros csvContent.
  rewrite echo_config_bind.
  - apply bind_ext. intros _. reflexivity.
  - destruct (outputPath config) as [path|]; [|constructor].
    destruct (String.eqb path ""); [constructor|apply quiet_call; discriminate].
Qed.

Lemma applyFilters_reduce (D : Dependencies) (projects : list ProjectRef) :
  snd (applyFilters D projects)
    = Array_reduce (fun filtered filter => apply filter filtered)
        (injected_filters D) projects.
Proof.
  unfold applyFilters. revert projects.
  induction (injected_filters D) as [|f filters IH]; intros projects; [reflexivity|].
  cbn [applyFilters_from Array_reduce]. unfold mbind, run_bind, Run.bind, Run.call.
  destruct (apply f projects) as [filtered|e]; [|reflexivity].
  specialize (IH filtered). destruct (applyFilters_from filters filtered) as [later r].
  exact IH.
Qed.

(** A run that returns a report went through every step. *)
Lemma generateReport_try_Ok (D : Dependencies) (store : Store) (config : ReportConfig)
    (events : list Event) (r : ReportResult) :
  generateReport_try D store config = (events, Ok r) ->
  exists projects filtering filtered classifying cats csvText,
    authenticate (client D) (token (sonarqube config)) = Ok tt /\
    fetchProjects (client D) = Ok projects /\
    applyFilters D projects = (filtering, Ok filtered) /\
    classifyProjects D store filtered (classification config) = (classifying, Ok cats) /\
    generate (reporter D) cats (csv config) = Ok csvText /\
    r = {| csvContent := csvText;
           projectCount := length cats;
           categoryCounts := calculateCategoryCounts cats;
           metadata_generatedAt := generatedAt_time (clock D);
           metadata_config := config;
           metadata_processingTime :=
             PrimFloat.sub (endTime (clock D)) (startTime (clock D)) |} /\
    events = ([CallAuthenticate (token (sonarqube config)); OnFetchingProjects;
               CallFetchProjects]
              ++ filtering
              ++ [OnFiltering (length projects) (length filtered)]
              ++ classifying
              ++ [OnGeneratingCsv; CallGenerate cats (csv config)]
              ++ OrchestratorMore.writes config csvText
              ++ [OnComplete r])%list.
Proof.
  unfold generateReport_try, OrchestratorMore.writes.
  unfold mbind, run_bind, Run.bind, Run.lift, Run.call, Run.emit, Run.ret.
  destruct (validateConfig D config) as [valid|e]; [|discriminate].
  destruct (authenticate (client D) (token (sonarqube config))) as [[]|e] eqn:Ha;
    [|discriminate].
  destruct (fetchProjects (client D)) as [projects|e] eqn:Hf; [|discriminate].
  destruct (applyFilters D projects) as [filtering [filtered|e]] eqn:Hfl; [|discriminate].
  destruct (classifyProjects D store filtered (classification config))
    as [classifying [cats|e]] eqn:Hc; [|discriminate].
  destruct (generate (reporter D) cats (csv config)) as [csvText|e] eqn:Hg; [|discriminate].
  intro H. exists projects, filtering, filtered, classifying, cats, csvText.
  split; [reflexivity|]. split; [reflexivity|]. split; [exact Hfl|].
  split; [exact Hc|]. split; [exact Hg|].
  destruct (outputPath config) as [path|].
  - destruct (String.eqb path "").
    + cbn in H. inversion H; subst. split; [reflexivity|].
      cbn. now rewrite ?app_nil_r, <- ?app_assoc.
    + destruct (writeToFile (reporter D) csvText path) as [[]|e]; [|discriminate].
      cbn in H. inversion H; subst. split; [reflexivity|].
      cbn. now rewrite ?app_nil_r, <- ?app_assoc.
  - cbn in H. inversion H; subst. split; [reflexivity|].
    cbn. now rewrite ?app_nil_r, <- ?app_assoc.
Qed.

Lemma classifyProjects_from_projects (D : Dependencies) (store : Store)
    (cc : ClassificationConfig.t) (total : nat) (projects : list ProjectRef) :
  forall index events cats,
    classifyProjects_from D store cc total index projects = (events, Ok cats) ->
    map project cats = projects.
Proof.
  induction projects as [|p rest IH]; intros index events cats.
  - intros H. inversion H. reflexivity.
  - cbn [classifyProjects_from]. unfold classifyProject.
    unfold mbind, run_bind, Run.bind, Run.call, Run.emit, Run.ret.
    destruct (classify (classifier D) _ _) as [c|e]; [|discriminate].
    destruct (classifyProjects_from D store cc total (S index) rest) as [later [others|e]]
      eqn:Hrest; [|discriminate].
    intros H. inversion H; subst. cbn. f_equal. exact (IH _ _ _ Hrest).
Qed.

(** C9: the [filters] property of the configuration is never read: the
    filtered collection is the fetched one reduced through the injected
    filters.  The run
    on a configuration with another [filters] property is the same run, the
    same events in the same order (the calls of the injected filters, the
    counts before and after filtering, the projects classified and handed to
    the reporter) and the same outcome, but for the configuration echoed in
    the metadata of the result; so the report has the same CSV content, the
    same project count and the same category counts.  In a run that returns
    a report, the projects that are counted after filtering, classified,
    handed to the reporter and counted in the report are the fetched ones
    reduced through the injected filters; and when an injected filter
    throws on them, the run throws that, wrapped. *)
Theorem config_filters_never_read (D : Dependencies) (store : Store)
    (config : ReportConfig) (fs : option (list FilterStrategy)) :
  (forall projects,
     snd (applyFilters D projects)
       = Array_reduce (fun filtered filter => apply filter filtered)
           (injected_filters D) projects) /\
  generateReport D store (with_filters config fs)
    = echo_config (with_filters config fs) (generateReport D store config) /\
  (forall events r,
     generateReport D store config = (events, Ok r) ->
     exists events' r',
       generateReport D store (with_filters config fs) = (events', Ok r') /\
       length events' = length events /\
       csvContent r' = csvContent r /\
       projectCount r' = projectCount r /\
       categoryCounts r' = categoryCounts r) /\
  (forall events e,
     generateReport D store config = (events, Throw e) ->
     exists events',
       generateReport D store (with_filters config fs) = (events', Throw e) /\
       length events' = length events) /\
  (forall events r,
     generateReport D store config = (events, Ok r) ->
     exists projects filtered categorized,
       fetchProjects (client D) = Ok projects /\
       Array_reduce (fun filtered filter => apply filter filtered)
         (injected_filters D) projects = Ok filtered /\
       In (OnFiltering (length projects) (length filtered)) events /\
       map project categorized = filtered /\
       In (CallGenerate categorized (csv config)) events /\
       projectCount r = length filtered) /\
  (forall projects e,
     validateConfig D config = Ok true ->
     authenticate (client D) (token (sonarqube config)) = Ok tt ->
     fetchProjects (client D) = Ok projects ->
     Array_reduce (fun filtered filter => apply filter filtered)
       (injected_filters D) projects = Throw e ->
     snd (generateReport D store config) = Throw (wrapError e phase_generate)).
Proof.
  assert (E : generateReport D store (with_filters config fs)
              = echo_config (with_filters config fs) (generateReport D store config)).
  { rewrite !generateReport_outcome, generateReport_try_echo.
    destruct (generateReport_try D store config) as [events [r|e]]; reflexivity. }
  split; [apply applyFilters_reduce|].
  split; [exact E|]. split; [|split; [|split]].
  - rewrite E. intros events r ->. unfold echo_config. simpl. do 2 eexists.
    split; [reflexivity|]. rewrite length_map. repeat split; reflexivity.
  - rewrite E. intros events e ->. unfold echo_config. simpl. eexists.
    split; [reflexivity|]. now rewrite length_map.
  - intros events r. rewrite generateReport_outcome.
    destruct (generateReport_try D store config) as [ev [r'|e]] eqn:Htry;
      intros H; inversion H; subst.
    apply generateReport_try_Ok in Htry.
    destruct Htry as (projects & filtering & filtered & classifying & cats & csvText
                      & Ha & Hf & Hfl & Hc & Hg & Hr & Hev).
    exists projects, filtered, cats.
    split; [exact Hf|]. split; [rewrite <- applyFilters_reduce; now rewrite Hfl|].
    split; [rewrite Hev; apply in_or_app; right; apply in_or_app; right;
            apply in_or_app; left; now left|].
    split; [exact (classifyProjects_from_projects _ _ _ _ _ _ _ _ Hc)|].
    split.
    + rewrite Hev. apply in_or_app; right. apply in_or_app; right.
      apply in_or_app; right. apply in_or_app; right. apply in_or_app; left.
      right; now left.
    + rewrite Hr. cbn [projectCount].
      rewrite <- (classifyProjects_from_projects _ _ _ _ _ _ _ _ Hc).
      now rewrite length_map.
  - intros projects e Hv Ha Hf Hred.
    destruct (applyFilters D projects) as [filtering outcome] eqn:Hfl.
    assert (Houtcome : outcome = Throw e).
    { rewrite <- Hred, <- applyFilters_reduce. now rewrite Hfl. }
    subst outcome.
    rewrite (filter_failure_stops D store config projects filtering e Hv Ha Hf Hfl).
    reflexivity.
Qed.

(** C2 (amended): when the write of the generated CSV to the configured
    output path fails, the run ends there: [writeToFile] throws an [Error]
    that names the path and the reason, [generateReport] throws it wrapped
    with the phase [generate], and no result is returned: the CSV content
    generated in memory does not reach the caller, and [onComplete] is not
    notified. *)
Theorem write_failure_ends_run (D : Dependencies) (store : Store) (config : ReportConfig)
    (writeFile : string -> string -> Result unit)
    (projects filtered : list ProjectRef) (filtering classifying : list Event)
    (categorized : list CategorizedProject) (csvContent path : string)
    (failure : JsValue) :
  writeToFile (reporter D) = PapaparseCsvReporter.writeToFile writeFile ->
  validateConfig D config = Ok true ->
  authenticate (client D) (token (sonarqube config)) = Ok tt ->
  fetchProjects (client D) = Ok projects ->
  applyFilters D projects = (filtering, Ok filtered) ->
  classifyProjects D store filtered (classification config) = (classifying, Ok categorized) ->
  generate (reporter D) categorized (csv config) = Ok csvContent ->
  outputPath config = Some path ->
  path <> "" ->
  writeFile path csvContent = Throw failure ->
  let written :=
    new_Error ("Failed to write CSV file to " ++ path ++ ": " ++
               match failure with JError _ m => m | _ => "Unknown error" end) in
  writeToFile (reporter D) csvContent path = Throw written /\
  generateReport D store config =
    (events_until_write config projects filtered filtering classifying categorized
       csvContent path,
     Throw (wrapError written phase_generate)) /\
  quiet (events_until_write config projects filtered filtering classifying categorized
           csvContent path).
Proof.
  intros Hw Hv Ha Hf Hfl Hc Hg Ho Hp Hfail written.
  assert (Hwritten : writeToFile (reporter D) csvContent path = Throw written).
  { rewrite Hw. unfold PapaparseCsvReporter.writeToFile. rewrite Hfail. reflexivity. }
  split; [exact Hwritten|]. split.
  - rewrite generateReport_outcome. unfold generateReport_try.
    rewrite Hv, Ha, Hf. cbn -[applyFilters classifyProjects events_until_write wrapError].
    rewrite Hfl. cbn -[classifyProjects events_until_write wrapError].
    rewrite Hc. cbn -[events_until_write wrapError].
    rewrite Hg, Ho. apply String.eqb_neq in Hp. rewrite Hp, Hwritten.
    cbn -[wrapError]. reflexivity.
  - unfold events_until_write.
    pose proof (applyFilters_from_quiet (injected_filters D) projects) as Q1.
    pose proof (classifyProjects_from_quiet D store (classification config)
                  (length filtered) filtered 0) as Q2.
    unfold applyFilters in Hfl. unfold classifyProjects in Hc.
    rewrite Hfl in Q1. rewrite Hc in Q2. simpl in Q1, Q2.
    constructor; [discriminate|]. constructor; [discriminate|].
    constructor; [discriminate|]. apply List.Forall_app. split; [exact Q1|].
    constructor; [discriminate|]. apply List.Forall_app. split; [exact Q2|].
    repeat (constructor; [discriminate|]). constructor.
Qed.

Lemma write_failure_ends_run_witness :
  generateReport (Samples.dependencies Samples.working_client Samples.full_disk)
    Samples.store (Samples.report_config "https://sonar.example" (Some "report.csv"))
  = (events_until_write (Samples.report_config "https://sonar.example" (Some "report.csv"))
       Samples.projects Samples.projects [] Samples.classifying Samples.categorized
       Samples.scenario_csv "report.csv",
     Throw (wrapError
              (new_Error
                 "Failed to write CSV file to report.csv: ENOSPC: no space left on device")
              phase_generate)).
Proof.
  refine (proj1 (proj2
    (write_failure_ends_run
       (Samples.dependencies Samples.working_client Samples.full_disk)
       Samples.store (Samples.report_config "https://sonar.example" (Some "report.csv"))
       Samples.full_disk Samples.projects Samples.projects [] Samples.classifying
       Samples.categorized Samples.scenario_csv "report.csv"
       (JError "Error" "ENOSPC: no space left on device")
       _ _ _ _ _ _ _ _ _ _)));
    try reflexivity; try (vm_compute; reflexivity). discriminate.
Defined.

(** C2 as stated fails: with a disk that is full, the CSV is generated in
    memory, and the caller gets no result but an error object that does not
    hold it. *)
Lemma write_failure_returns_no_csv :
  generate (reporter (Samples.dependencies Samples.working_client Samples.full_disk))
    Samples.categorized empty_CsvConfig = Ok Samples.scenario_csv /\
  snd (generateReport (Samples.dependencies Samples.working_client Samples.full_disk)
         Samples.store (Samples.report_config "https://sonar.example" (Some "report.csv")))
  = Throw (JObject
      [("name", JString "ReportError");
       ("message",
        JString "Error in generate phase: Failed to write CSV file to report.csv: ENOSPC: no space left on device");
       ("phase", JString "generate");
       ("cause",
        JError "Error"
          "Failed to write CSV file to report.csv: ENOSPC: no space left on device")]) /\
  ~ (exists r,
       snd (generateReport (Samples.dependencies Samples.working_client Samples.full_disk)
              Samples.store
              (Samples.report_config "https://sonar.example" (Some "report.csv")))
       = Ok r).
Proof.
  assert (E : snd (generateReport
                     (Samples.dependencies Samples.working_client Samples.full_disk)
                     Samples.store
                     (Samples.report_config "https://sonar.example" (Some "report.csv")))
              = Throw (JObject
      [("name", JString "ReportError");
       ("message",
        JString "Error in generate phase: Failed to write CSV file to report.csv: ENOSPC: no space left on device");
       ("phase", JString "generate");
       ("cause",
        JError "Error"
          "Failed to write CSV file to report.csv: ENOSPC: no space left on device")]))
    by (vm_compute; reflexivity).
  split; [vm_compute; reflexivity|]. split; [exact E|].
  intros [r Hr]. rewrite E in Hr. discriminate.
Qed.

End OrchestratorProofs.

(** * Further proofs *)

(** ** The order of binary64 numbers *)

Module FloatOrderProofs.
Import FloatFacts FloatOrder.

Lemma SFcompare_key (x y : spec_float) :
  x <> S754_nan -> y <> S754_nan ->
  SFcompare x y = Some (lex_compare (key x) (key y)).
Proof.
  intros Hx Hy.
  destruct x as [sx|sx| |sx mx ex], y as [sy|sy| |sy my ey]; try congruence;
    try (destruct sx; reflexivity); try (destruct sy; reflexivity);
    try (destruct sx, sy; reflexivity).
  destruct sx, sy; try reflexivity; cbn [SFcompare key lex_compare].
  rewrite Z.compare_opp. change (-1 ?= -1)%Z with Eq. cbv iota.
  rewrite (Z.compare_antisym ey ex). rewrite Z.compare_opp.
  destruct (ey ?= ex)%Z; cbn [CompOpp]; try reflexivity.
  change (Z.pos my ?= Z.pos mx)%Z with (Pos.compare_cont Eq my mx).
  rewrite (Pos.compare_cont_antisym mx my Eq). reflexivity.
Qed.

Lemma lex_compare_le (k1 k2 : Z * Z * Z) :
  match lex_compare k1 k2 with Lt | Eq => True | Gt => False end <-> lex_le k1 k2.
Proof.
  destruct k1 as [[a1 b1] c1], k2 as [[a2 b2] c2]. unfold lex_compare, lex_le.
  destruct (Z.compare_spec a1 a2), (Z.compare_spec b1 b2), (Z.compare_spec c1 c2);
    split; intros Hc; try exact I; try lia.
Qed.

Lemma lex_le_trans (k1 k2 k3 : Z * Z * Z) : lex_le k1 k2 -> lex_le k2 k3 -> lex_le k1 k3.
Proof.
  destruct k1 as [[a1 b1] c1], k2 as [[a2 b2] c2], k3 as [[a3 b3] c3].
  unfold lex_le. lia.
Qed.

(** [x <= y] on floats: neither is NaN and the keys are in order. *)
Lemma leb_key (x y : float) :
  (x <=? y)%float = true <->
  Prim2SF x <> S754_nan /\ Prim2SF y <> S754_nan /\
  lex_le (key (Prim2SF x)) (key (Prim2SF y)).
Proof.
  rewrite FloatAxioms.leb_spec. unfold SFleb. split.
  - intros H.
    assert (Hx : Prim2SF x <> S754_nan) by (intros E; rewrite E in H; discriminate).
    assert (Hy : Prim2SF y <> S754_nan).
    { intros E; rewrite E in H. destruct (Prim2SF x); discriminate. }
    repeat split; try assumption. apply lex_compare_le.
    rewrite (SFcompare_key _ _ Hx Hy) in H.
    destruct (lex_compare (key (Prim2SF x)) (key (Prim2SF y))); [exact I|exact I|discriminate].
  - intros (Hx & Hy & H). rewrite (SFcompare_key _ _ Hx Hy).
    apply lex_compare_le in H.
    destruct (lex_compare (key (Prim2SF x)) (key (Prim2SF y))); [reflexivity|reflexivity|contradiction].
Qed.

Lemma leb_trans (x y z : float) :
  (x <=? y)%float = true -> (y <=? z)%float = true -> (x <=? z)%float = true.
Proof.
  rewrite !leb_key. intros (Hx & Hy & H1) (_ & Hz & H2).
  repeat split; try assumption. eapply lex_le_trans; eassumption.
Qed.

(** [x < y] on floats. *)
Lemma ltb_key (x y : float) :
  (x <? y)%float = true <->
  Prim2SF x <> S754_nan /\ Prim2SF y <> S754_nan /\
  lex_compare (key (Prim2SF x)) (key (Prim2SF y)) = Lt.
Proof.
  rewrite FloatAxioms.ltb_spec. unfold SFltb. split.
  - intros H.
    assert (Hx : Prim2SF x <> S754_nan) by (intros E; rewrite E in H; discriminate).
    assert (Hy : Prim2SF y <> S754_nan).
    { intros E; rewrite E in H. destruct (Prim2SF x); discriminate. }
    repeat split; try assumption.
    rewrite (SFcompare_key _ _ Hx Hy) in H.
    destruct (lex_compare (key (Prim2SF x)) (key (Prim2SF y))); congruence.
  - intros (Hx & Hy & H). rewrite (SFcompare_key _ _ Hx Hy), H. reflexivity.
Qed.

End FloatOrderProofs.

(** ** More on the classifier *)

Module ClassifierExtraProofs.
Import SpanishCoverageClassifier ClassifierDetailed FloatFacts FloatOrder FloatOrderProofs
  ClassifierProofs.

Lemma ltb_leb_trans (x y z : float) :
  (x <? y)%float = true -> (y <=? z)%float = true -> (x <? z)%float = true.
Proof.
  rewrite !ltb_key, leb_key. intros (Hx & Hy & H1) (_ & Hz & H2).
  repeat split; try assumption.
  destruct (key (Prim2SF x)) as [[a1 b1] c1], (key (Prim2SF y)) as [[a2 b2] c2],
           (key (Prim2SF z)) as [[a3 b3] c3].
  unfold lex_compare, lex_le in *.
  destruct (Z.compare_spec a1 a2), (Z.compare_spec b1 b2), (Z.compare_spec c1 c2);
    try discriminate;
    destruct (Z.compare_spec a1 a3), (Z.compare_spec b1 b3), (Z.compare_spec c1 c3);
    try reflexivity; lia.
Qed.

Lemma ltb_not_leb (x y : float) :
  (x <? y)%float = true -> (y <=? x)%float = false.
Proof.
  rewrite FloatAxioms.ltb_spec, FloatAxioms.leb_spec. unfold SFltb, SFleb.
  rewrite (SFcompare_antisym (Prim2SF x) (Prim2SF y)).
  destruct (SFcompare (Prim2SF x) (Prim2SF y)) as [[]|]; simpl; congruence.
Qed.

Lemma nan_not_leb (x y : float) :
  PrimFloat.is_nan x = true -> (x <=? y)%float = false.
Proof.
  intros H. apply is_nan_spec in H. rewrite FloatAxioms.leb_spec. unfold SFleb.
  rewrite H. reflexivity.
Qed.

Lemma validateCoverage_only_numbers (v : JsValue) :
  validateCoverage v = true -> exists c, v = JNumber c.
Proof. destruct v; try discriminate. eauto. Qed.

(** X1: [validateCoverage] accepts exactly the numbers between 0 and 100,
    and it decides [classify]: on an accepted value [classify] returns a
    category whatever the threshold, on any other value it throws. *)
Theorem validateCoverage_decides_classify (v : JsValue) (t : float) :
  (validateCoverage v = true <->
     exists c, v = JNumber c /\ (0 <=? c)%float = true /\ (c <=? 100)%float = true) /\
  (validateCoverage v = true <-> exists category, classify v t = Ok category) /\
  (validateCoverage v = false <-> exists reason, classify v t = rejected reason).
Proof.
  assert (Hthrow : validateCoverage v = false -> exists reason, classify v t = rejected reason).
  { unfold validateCoverage, classify, rejected. intros H. rewrite H. simpl. eauto. }
  assert (Hok : validateCoverage v = true -> exists category, classify v t = Ok category).
  { intros H. destruct (validateCoverage_only_numbers v H) as [c ->].
    rewrite (classify_valid c t H).
    destruct (c =? 0)%float; [eauto|]. destruct (t <=? c)%float; eauto. }
  split; [|split].
  - split.
    + intros H. destruct (validateCoverage_only_numbers v H) as [c ->].
      exists c. split; [reflexivity|]. now apply validateCoverage_number.
    + intros (c & -> & H). now apply validateCoverage_number.
  - split; [exact Hok|]. intros [category H].
    destruct (validateCoverage v) eqn:E; [reflexivity|].
    destruct (Hthrow eq_refl) as [reason Hr]. rewrite Hr in H. discriminate.
  - split; [exact Hthrow|]. intros [reason H].
    destruct (validateCoverage v) eqn:E; [|reflexivity].
    destruct (Hok eq_refl) as [category Hc]. rewrite Hc in H. discriminate.
Qed.

(** X2: [classifyDetailed] runs the logic of [classify] on the threshold of
    its configuration: same category, same exception; the options
    [strictZeroClassification] and [customCategories] are carried into the
    result and never change the category. *)
Theorem classifyDetailed_same_logic (coverage : JsValue) (config : Config) :
  bind (classifyDetailed coverage config) (fun r => Ok (r_category r))
    = classify coverage (cfg_threshold config) /\
  (forall r, classifyDetailed coverage config = Ok r ->
     r_threshold r = cfg_threshold config /\ r_originalCoverage r = coverage /\
     r_strictZeroClassification r = default true (cfg_strictZeroClassification config)) /\
  (forall strict custom,
     bind (classifyDetailed coverage
             {| cfg_threshold := cfg_threshold config;
                cfg_strictZeroClassification := strict;
                cfg_customCategories := custom |})
          (fun r => Ok (r_category r))
     = bind (classifyDetailed coverage config) (fun r => Ok (r_category r))).
Proof.
  assert (E : forall cfg, bind (classifyDetailed coverage cfg) (fun r => Ok (r_category r))
                          = classify coverage (cfg_threshold cfg)).
  { intros cfg. unfold classifyDetailed. cbn [merge m_threshold].
    destruct (classify coverage (cfg_threshold cfg)); reflexivity. }
  split; [apply E|]. split.
  - intros r. unfold classifyDetailed. cbn [merge m_threshold m_strictZeroClassification].
    destruct (classify coverage (cfg_threshold config)); [|discriminate].
    intros H. inversion H. repeat split.
  - intros strict custom. rewrite !E. reflexivity.
Qed.

Lemma rank_classify (c t : float) :
  validateCoverage (JNumber c) = true ->
  exists category,
    classify (JNumber c) t = Ok category /\
    rank category =
      if (c =? 0)%float then 0 else if (t <=? c)%float then 2 else 1.
Proof.
  intros H. rewrite (classify_valid c t H).
  destruct (c =? 0)%float; [eauto|]. destruct (t <=? c)%float; eauto.
Qed.

(** X3: for a fixed threshold the category never gets worse as the coverage
    grows: of two validated coverages the larger one has the same or a
    better category. *)
Theorem classify_monotone_in_coverage (c1 c2 t : float)
    (category1 category2 : CoverageCategory) :
  validateCoverage (JNumber c1) = true ->
  validateCoverage (JNumber c2) = true ->
  (c1 <=? c2)%float = true ->
  classify (JNumber c1) t = Ok category1 ->
  classify (JNumber c2) t = Ok category2 ->
  rank category1 <= rank category2.
Proof.
  intros H1 H2 Hle E1 E2.
  destruct (rank_classify c1 t H1) as (k1 & K1 & R1).
  destruct (rank_classify c2 t H2) as (k2 & K2 & R2).
  rewrite K1 in E1. rewrite K2 in E2. inversion E1. inversion E2. subst.
  rewrite R1, R2.
  pose proof (proj1 (validateCoverage_number c1) H1) as [P1 _].
  pose proof (proj1 (validateCoverage_number c2) H2) as [P2 _].
  destruct (c1 =? 0)%float eqn:Z1; [lia|].
  apply (positive_iff_nonzero c1 P1) in Z1.
  pose proof (ltb_leb_trans 0 c1 c2 Z1 Hle) as Z2.
  apply (positive_iff_nonzero c2 P2) in Z2. rewrite Z2.
  destruct (t <=? c1)%float eqn:T1.
  - rewrite (leb_trans t c1 c2 T1 Hle). lia.
  - destruct (t <=? c2)%float; lia.
Qed.

Lemma classify_monotone_in_coverage_witness :
  rank NO_PASA_MINIMO <= rank SI_PASA_MINIMO.
Proof.
  apply (classify_monotone_in_coverage 30 80 50); reflexivity.
Defined.

(** X4: for a fixed validated coverage the category never gets better as
    the threshold grows; under a threshold that is NaN or above 100 no
    coverage passes, and under a threshold of 0 or less every coverage
    other than 0 passes. *)
Theorem classify_antitone_in_threshold (c t1 t2 : float) :
  validateCoverage (JNumber c) = true ->
  (forall category1 category2,
     (t1 <=? t2)%float = true ->
     classify (JNumber c) t1 = Ok category1 ->
     classify (JNumber c) t2 = Ok category2 ->
     rank category2 <= rank category1) /\
  (PrimFloat.is_nan t1 = true -> classify (JNumber c) t1 <> Ok SI_PASA_MINIMO) /\
  ((100 <? t1)%float = true -> classify (JNumber c) t1 <> Ok SI_PASA_MINIMO) /\
  ((t1 <=? 0)%float = true -> (c =? 0)%float = false ->
     classify (JNumber c) t1 = Ok SI_PASA_MINIMO).
Proof.
  intros H.
  pose proof (proj1 (validateCoverage_number c) H) as [P0 P100].
  repeat split.
  - intros k1 k2 Hle E1 E2.
    destruct (rank_classify c t1 H) as (k1' & K1 & R1).
    destruct (rank_classify c t2 H) as (k2' & K2 & R2).
    rewrite K1 in E1. rewrite K2 in E2. inversion E1. inversion E2. subst.
    rewrite R1, R2. destruct (c =? 0)%float; [lia|].
    destruct (t2 <=? c)%float eqn:T2.
    + rewrite (leb_trans t1 t2 c Hle T2). lia.
    + destruct (t1 <=? c)%float; lia.
  - intros Hnan. rewrite (classify_valid c t1 H), (nan_not_leb t1 c Hnan).
    destruct (c =? 0)%float; discriminate.
  - intros Hbig. rewrite (classify_valid c t1 H).
    assert (E : (t1 <=? c)%float = false).
    { destruct (t1 <=? c)%float eqn:T; [|reflexivity].
      pose proof (leb_trans t1 c 100 T P100) as T'.
      rewrite (ltb_not_leb 100 t1 Hbig) in T'. discriminate. }
    rewrite E. destruct (c =? 0)%float; discriminate.
  - intros Hlow Hnz. rewrite (classify_valid c t1 H), Hnz.
    now rewrite (leb_trans t1 0 c Hlow P0).
Qed.

Lemma classify_antitone_in_threshold_witness :
  classify (JNumber 30) 0 = Ok SI_PASA_MINIMO.
Proof.
  apply (classify_antitone_in_threshold 30 0 50); reflexivity.
Defined.

End ClassifierExtraProofs.

(** ** More on the filter engine *)

Module FilterExtraProofs.
Import FilterStrategies FilterStrategiesMore FloatFacts FilterProofs.

Lemma Array_filter_total {A} (f : A -> bool) (l : list A) :
  Array_filter (fun x => Ok (f x)) l = Ok (List.filter f l).
Proof.
  induction l as [|x l IH]; simpl; [reflexivity|]. rewrite IH. simpl.
  destruct (f x); reflexivity.
Qed.

(** What [Array_filter] returns holds, in order, the elements on which the
    callback returned [true]. *)
Lemma Array_filter_Ok {A} (callback : A -> Result bool) (l : list A) : forall kept,
  Array_filter callback l = Ok kept ->
  Forall (fun x => callback x = Ok true) kept /\
  (forall x, In x kept <-> In x l /\ callback x = Ok true) /\
  sublist kept l.
Proof.
  induction l as [|x l IH]; simpl; intros kept H.
  - inversion H; subst. split; [constructor|]. split; [simpl; tauto|constructor].
  - destruct (callback x) as [keep|e] eqn:Ex; [|discriminate]. simpl in H.
    destruct (Array_filter callback l) as [kept'|e]; [|discriminate]. simpl in H.
    destruct (IH kept' eq_refl) as (F & I & S). inversion H; subst.
    destruct keep.
    + split; [constructor; assumption|]. split; [|now apply sublist_skip].
      intros y. simpl. rewrite I. split.
      * intros [->|[? ?]]; auto.
      * intros [[->|?] ?]; auto.
    + split; [assumption|]. split; [|now apply sublist_cons].
      intros y. rewrite I. simpl. split.
      * intros [? ?]; auto.
      * intros [[->|?] E]; [congruence|auto].
Qed.

Lemma Array_filter_fixed {A} (callback : A -> Result bool) (kept : list A) :
  Forall (fun x => callback x = Ok true) kept -> Array_filter callback kept = Ok kept.
Proof.
  induction 1 as [|x kept Hx _ IH]; simpl; [reflexivity|]. now rewrite Hx, IH.
Qed.

(** [x < y] fails on numbers exactly when [y <= x]: a bound tested by
    [value < bound] is inclusive. *)
Lemma not_ltb_iff_leb (x y : float) :
  PrimFloat.is_nan x = false -> PrimFloat.is_nan y = false ->
  ((x <? y)%float = false <-> (y <=? x)%float = true).
Proof.
  intros Hx Hy.
  assert (Nx : Prim2SF x <> S754_nan) by (intros E; apply is_nan_spec in E; congruence).
  assert (Ny : Prim2SF y <> S754_nan) by (intros E; apply is_nan_spec in E; congruence).
  rewrite FloatAxioms.ltb_spec, FloatAxioms.leb_spec. unfold SFltb, SFleb.
  rewrite (SFcompare_antisym (Prim2SF x) (Prim2SF y)).
  destruct (SFcompare (Prim2SF x) (Prim2SF y)) as [[]|] eqn:E; simpl;
    try (split; congruence).
  destruct (Prim2SF x), (Prim2SF y); simpl in E; congruence.
Qed.

Lemma nan_not_ltb (x y : float) :
  PrimFloat.is_nan x = true -> (x <? y)%float = false /\ (y <? x)%float = false.
Proof.
  intros H. apply is_nan_spec in H. rewrite !FloatAxioms.ltb_spec. unfold SFltb.
  rewrite H. split; [reflexivity|]. destruct (Prim2SF y); reflexivity.
Qed.

Section RangeFilter.

Variables (value : ProjectRef -> float) (lo hi : option float).

Lemma range_filter (P : list ProjectRef) :
  exists kept,
    Array_filter (range_callback value lo hi) P = Ok kept /\
    sublist kept P /\
    (forall p, In p kept <->
       In p P /\
       (forall l, lo = Some l -> (value p <? l)%float = false) /\
       (forall h, hi = Some h -> (h <? value p)%float = false)) /\
    (forall p, In p P -> PrimFloat.is_nan (value p) = true -> In p kept) /\
    (lo = None -> hi = None -> kept = P) /\
    Array_filter (range_callback value lo hi) kept = Ok kept.
Proof.
  assert (T : forall p, exists b, (range_callback value lo hi) p = Ok b /\
            (b = true <-> (forall l, lo = Some l -> (value p <? l)%float = false) /\
                          (forall h, hi = Some h -> (h <? value p)%float = false))).
  { intros p. unfold range_callback. destruct lo as [l|], hi as [h|];
      repeat match goal with |- context [if ?b then _ else _] => destruct b eqn:? end;
      eexists; (split; [reflexivity|]); split; try congruence;
      try (intros _; split; intros ? E; inversion E; subst; assumption);
      try (intros [H1 H2]; try specialize (H1 _ eq_refl); try specialize (H2 _ eq_refl);
           congruence). }
  assert (E : exists kept, Array_filter (range_callback value lo hi) P = Ok kept).
  { clear -T. induction P as [|p P [kept IH]]; simpl; [eauto|].
    destruct (T p) as (b & -> & _). rewrite IH. simpl. eauto. }
  destruct E as [kept E]. exists kept.
  destruct (Array_filter_Ok (range_callback value lo hi) P kept E) as (F & I & S).
  assert (K : forall p, (range_callback value lo hi) p = Ok true <->
            (forall l, lo = Some l -> (value p <? l)%float = false) /\
            (forall h, hi = Some h -> (h <? value p)%float = false)).
  { intros p. destruct (T p) as (b & Hb & Hiff). rewrite Hb, <- Hiff.
    split; [intros H; now inversion H|intros ->; reflexivity]. }
  split; [exact E|]. split; [exact S|]. split; [|split; [|split]].
  - intros p. rewrite I, K. reflexivity.
  - intros p Hp Hnan. apply I. split; [exact Hp|]. apply K.
    destruct (nan_not_ltb (value p) 0 Hnan) as [_ _].
    split; intros b _; [apply (nan_not_ltb (value p) b Hnan)|apply (nan_not_ltb (value p) b Hnan)].
  - intros -> ->. unfold range_callback in E. rewrite (Array_filter_total (fun _ => true)) in E.
    inversion E. clear. induction P as [|p P IH]; simpl; congruence.
  - now apply Array_filter_fixed.
Qed.

End RangeFilter.

(** X5: the coverage filter never throws and returns, in the order of the
    input, the projects whose coverage is neither below [minCoverage] nor
    above [maxCoverage]; both bounds are inclusive, a bound left out (or NaN)
    does not count, a project whose coverage is NaN is always kept, and
    without bounds the input is returned. *)
Theorem coverage_filter_bounds (store : Store) (config : CoverageFilter)
    (P : list ProjectRef) :
  exists kept,
    apply (CoverageFilterStrategy store config) P = Ok kept /\
    sublist kept P /\
    (forall p, In p kept <->
       In p P /\
       (forall lo, minCoverage config = Some lo ->
          (coveragePercent (store p) <? lo)%float = false) /\
       (forall hi, maxCoverage config = Some hi ->
          (hi <? coveragePercent (store p))%float = false)) /\
    (forall p, In p P -> PrimFloat.is_nan (coveragePercent (store p)) = true -> In p kept) /\
    (minCoverage config = None -> maxCoverage config = None -> kept = P) /\
    (forall x y, PrimFloat.is_nan x = false -> PrimFloat.is_nan y = false ->
       ((x <? y)%float = false <-> (y <=? x)%float = true)).
Proof.
  destruct (range_filter (fun p => coveragePercent (store p))
              (minCoverage config) (maxCoverage config) P)
    as (kept & E & S & I & N & A & _).
  exists kept. repeat split; try assumption; try apply I; try apply not_ltb_iff_leb;
    assumption.
Qed.

(** X6: the date filter never throws and returns, in the order of the
    input, the projects whose last analysis is neither before [startDate]
    nor after [endDate], both ends included; a project with an invalid date
    is always kept. *)
Theorem date_filter_bounds (store : Store) (config : DateRangeFilter)
    (P : list ProjectRef) :
  exists kept,
    apply (DateRangeFilterStrategy store config) P = Ok kept /\
    sublist kept P /\
    (forall p, In p kept <->
       In p P /\
       (forall start, startDate config = Some start ->
          (lastAnalysis (store p) <? start)%float = false) /\
       (forall stop, endDate config = Some stop ->
          (stop <? lastAnalysis (store p))%float = false)) /\
    (forall p, In p P -> PrimFloat.is_nan (lastAnalysis (store p)) = true -> In p kept) /\
    (startDate config = None -> endDate config = None -> kept = P) /\
    (forall x y, PrimFloat.is_nan x = false -> PrimFloat.is_nan y = false ->
       ((x <? y)%float = false <-> (y <=? x)%float = true)).
Proof.
  destruct (range_filter (fun p => lastAnalysis (store p))
              (startDate config) (endDate config) P)
    as (kept & E & S & I & N & A & _).
  exists kept. repeat split; try assumption; try apply I; try apply not_ltb_iff_leb;
    assumption.
Qed.

(** X7: filtering twice is filtering once: what a coverage, date, language
    or predicate strategy returns is returned unchanged when the strategy is
    applied to it again. *)
Theorem filter_idempotent (store : Store) (s : FilterStrategy) (P Q : list ProjectRef) :
  (exists config, s = CoverageFilterStrategy store config) \/
  (exists config, s = DateRangeFilterStrategy store config) \/
  (exists config, s = LanguageFilterStrategy store config) \/
  (exists predicate name, s = PredicateFilterStrategy predicate name) ->
  apply s P = Ok Q ->
  apply s Q = Ok Q.
Proof.
  intros [[c ->]|[[c ->]|[[c ->]|(f & n & ->)]]] H; cbn [apply CoverageFilterStrategy
    DateRangeFilterStrategy LanguageFilterStrategy PredicateFilterStrategy] in *;
    apply Array_filter_fixed; eapply Array_filter_Ok; eassumption.
Qed.

Lemma filter_idempotent_witness :
  apply (CoverageFilterStrategy Samples.store
           {| minCoverage := Some 40%float; maxCoverage := None |}) [3%positive]
  = Ok [3%positive].
Proof.
  apply (filter_idempotent Samples.store _ Samples.projects).
  - left. eexists. reflexivity.
  - reflexivity.
Defined.

Lemma Array_reduce_app {A B} (callback : B -> A -> Result B) (l1 l2 : list A) : forall b,
  Array_reduce callback (l1 ++ l2) b
    = bind (Array_reduce callback l1 b) (Array_reduce callback l2).
Proof.
  induction l1 as [|x l1 IH]; intros b; simpl; [reflexivity|].
  destruct (callback b x); simpl; [apply IH|reflexivity].
Qed.

(** X8: AND-combinations compose: the combination of a list followed by
    another is the first combination followed by the second; the empty
    combination returns its input, a combination of one strategy is that
    strategy, and nesting combinations is the same as listing their
    strategies in one. *)
Theorem and_composes (l1 l2 : list FilterStrategy) (s : FilterStrategy)
    (P : list ProjectRef) :
  apply (AndFilterStrategy (l1 ++ l2)) P
    = bind (apply (AndFilterStrategy l1) P) (apply (AndFilterStrategy l2)) /\
  apply (AndFilterStrategy []) P = Ok P /\
  apply (AndFilterStrategy [s]) P = apply s P /\
  apply (AndFilterStrategy [AndFilterStrategy l1; AndFilterStrategy l2]) P
    = apply (AndFilterStrategy (l1 ++ l2)) P.
Proof.
  cbn [apply AndFilterStrategy]. repeat split.
  - apply Array_reduce_app.
  - simpl. destruct (apply s P); reflexivity.
  - rewrite Array_reduce_app. simpl.
    destruct (Array_reduce (fun filtered strategy => apply strategy filtered) l1 P);
      simpl; [|reflexivity].
    destruct (Array_reduce (fun filtered strategy => apply strategy filtered) l2 a);
      reflexivity.
Qed.

Lemma and_total (fs : list (ProjectRef -> bool)) : forall P,
  apply (AndFilterStrategy (map total fs)) P
    = Ok (List.filter (fun p => forallb (fun f => f p) fs) P).
Proof.
  cbn [apply AndFilterStrategy].
  induction fs as [|f fs IH]; intros P; simpl.
  - f_equal. induction P as [|p P IHP]; simpl; congruence.
  - rewrite (Array_filter_total f). simpl. rewrite IH. f_equal.
    clear. induction P as [|p P IHP]; simpl; [reflexivity|].
    destruct (f p); simpl; [|exact IHP]. destruct (forallb (fun f0 => f0 p) fs); congruence.
Qed.

(** X9: an AND-combination of predicates that always return keeps, in the
    order of the input, the projects on which every predicate holds; so the
    order in which the predicates are listed does not matter, and applying
    the combination twice is applying it once. *)
Theorem and_of_predicates (fs : list (ProjectRef -> bool)) (P : list ProjectRef) :
  apply (AndFilterStrategy (map total fs)) P
    = Ok (List.filter (fun p => forallb (fun f => f p) fs) P) /\
  (forall fs', Permutation fs fs' ->
     apply (AndFilterStrategy (map total fs')) P
       = apply (AndFilterStrategy (map total fs)) P) /\
  (forall Q, apply (AndFilterStrategy (map total fs)) P = Ok Q ->
     apply (AndFilterStrategy (map total fs)) Q = Ok Q).
Proof.
  split; [apply and_total|]. split.
  - intros fs' Hperm. rewrite !and_total. f_equal. apply List.filter_ext. intros p.
    apply eq_true_iff_eq. rewrite !forallb_forall.
    split; intros H f Hf; apply H.
    + apply Permutation_in with fs; assumption.
    + apply Permutation_in with fs'; [now symmetry|exact Hf].
  - intros Q. rewrite !and_total. intros H. inversion H. f_equal.
    clear. induction P as [|p P IH]; simpl; [reflexivity|].
    destruct (forallb (fun f => f p) fs) eqn:E; simpl; [|exact IH].
    rewrite E. now rewrite IH.
Qed.

Lemma or_total_outputs (fs : list (ProjectRef -> bool)) (P : list ProjectRef) :
  List.Forall2 (fun s out => apply s P = Ok out)
    (map total fs) (map (fun f => List.filter f P) fs).
Proof.
  induction fs as [|f fs IH]; simpl; constructor; [|exact IH].
  cbn [apply total PredicateFilterStrategy]. apply Array_filter_total.
Qed.

(** X10: an OR-combination of at least one predicate that always returns
    keeps exactly the projects of the input on which some predicate holds,
    each once; on an input without duplicates the result is a permutation
    of these projects (its order is the order of first acceptance by the
    listed predicates, not always the order of the input). *)
Theorem or_of_predicates (fs : list (ProjectRef -> bool)) (P : list ProjectRef) :
  fs <> [] ->
  exists kept,
    apply (OrFilterStrategy (map total fs)) P = Ok kept /\
    List.NoDup kept /\
    (forall p, In p kept <-> In p P /\ exists f, In f fs /\ f p = true) /\
    (List.NoDup P ->
       Permutation kept (List.filter (fun p => existsb (fun f => f p) fs) P)).
Proof.
  intros Hne. exists (union_first_seen (map (fun f => List.filter f P) fs)).
  assert (M : forall p, In p (union_first_seen (map (fun f => List.filter f P) fs)) <->
                        In p P /\ exists f, In f fs /\ f p = true).
  { intros p. unfold union_first_seen. rewrite first_seen_from_In, in_concat. split.
    - intros [(out & Hout & Hp) _]. apply in_map_iff in Hout.
      destruct Hout as (f & <- & Hf). apply filter_In in Hp. destruct Hp. eauto.
    - intros (Hp & f & Hf & Hfp). split; [|simpl; tauto].
      exists (List.filter f P). split; [apply in_map_iff; eauto|].
      apply filter_In. auto. }
  split; [|split; [apply first_seen_from_NoDup|split; [exact M|]]].
  - cbn [apply OrFilterStrategy]. destruct fs as [|f fs]; [congruence|].
    apply (or_loop_first_seen P _ _ (or_total_outputs (f :: fs) P) []).
  - intros HP. apply Stdlib.Sorting.Permutation.NoDup_Permutation.
    + apply first_seen_from_NoDup.
    + now apply List.NoDup_filter.
    + intros p. rewrite M, filter_In, existsb_exists. reflexivity.
Qed.

Lemma or_of_predicates_witness :
  match apply (OrFilterStrategy (map total [Pos.leb 2; fun p => Pos.leb p 2]))
          [1; 2; 3]%positive with
  | Ok kept => Permutation kept [1; 2; 3]%positive
  | Throw _ => False
  end.
Proof.
  destruct (or_of_predicates [Pos.leb 2; fun p => Pos.leb p 2] [1; 2; 3]%positive)
    as (kept & E & _ & _ & Hperm); [discriminate|].
  rewrite E. apply Hperm.
  repeat constructor; simpl; intuition discriminate.
Defined.

Lemma includes_string_In (l : list JsValue) (lang : string) :
  includes_string l lang = true <-> In (JString lang) l.
Proof.
  unfold includes_string. rewrite existsb_exists. split.
  - intros (v & Hv & E). destruct v; try discriminate.
    apply String.eqb_eq in E. now subst.
  - intros H. exists (JString lang). split; [exact H|apply String.eqb_refl].
Qed.

Lemma extractLanguages_total (m : JsValue) :
  m <> JUndefined -> m <> JNull -> exists items, extractLanguagesFromMetadata m = Ok items.
Proof.
  intros H1 H2. unfold extractLanguagesFromMetadata.
  assert (E : get_property m "languages" = Ok (get m "languages"))
    by (destruct m; try reflexivity; congruence).
  rewrite E. cbn [bind].
  destruct (get m "languages"); eauto;
    destruct (truthy (get m "language") && String.eqb (typeof (get m "language")) "string");
    eauto;
    destruct (truthy (get_optional (get m "qualityGate") "languages")); eauto;
    destruct (get_optional (get m "qualityGate") "languages"); eauto.
Qed.

(** X11: on projects whose metadata is an object the language filter never
    throws and keeps, in the order of the input, the projects one of whose
    extracted languages is a configured one; with no configured language
    nothing is kept; a [languages] array in the metadata is taken as it is
    (the [language] and [qualityGate] properties are then not looked at, even
    when the array is empty), and a project without any of the three
    properties has no language and is dropped. *)
Theorem language_filter_keeps (store : Store) (config : LanguageFilter)
    (P : list ProjectRef) :
  (forall p, In p P -> exists props, metadata (store p) = JObject props) ->
  exists kept,
    apply (LanguageFilterStrategy store config) P = Ok kept /\
    sublist kept P /\
    (forall p, In p kept <->
       In p P /\
       exists lang items,
         In lang (languages config) /\
         extractLanguagesFromMetadata (metadata (store p)) = Ok items /\
         In (JString lang) items) /\
    (languages config = [] -> kept = []) /\
    (forall props items,
       own_property props "languages" = JArray items ->
       extractLanguagesFromMetadata (JObject props) = Ok items) /\
    (forall props,
       own_property props "languages" = JUndefined ->
       own_property props "language" = JUndefined ->
       own_property props "qualityGate" = JUndefined ->
       extractLanguagesFromMetadata (JObject props) = Ok []).
Proof.
  intros Hobj.
  set (callback := fun p =>
    bind (extractLanguagesFromMetadata (metadata (store p))) (fun projectLanguages =>
    Ok (existsb (includes_string projectLanguages) (languages config)))).
  assert (T : forall p, In p P -> exists b, callback p = Ok b).
  { intros p Hp. destruct (Hobj p Hp) as [props E]. unfold callback.
    destruct (extractLanguages_total (metadata (store p))) as [items ->];
      try (rewrite E; discriminate). simpl. eauto. }
  assert (E : exists kept, Array_filter callback P = Ok kept).
  { clear -T. induction P as [|p P IH]; simpl; [eauto|].
    destruct (T p) as (b & ->); [now left|].
    destruct IH as [kept ->]; [intros q Hq; apply T; now right|]. simpl. eauto. }
  destruct E as [kept E]. exists kept.
  destruct (Array_filter_Ok callback P kept E) as (F & I & S).
  assert (K : forall p, callback p = Ok true <->
            exists lang items, In lang (languages config) /\
              extractLanguagesFromMetadata (metadata (store p)) = Ok items /\
              In (JString lang) items).
  { intros p. unfold callback.
    destruct (extractLanguagesFromMetadata (metadata (store p))) as [items|e]; simpl.
    - split.
      + intros H. inversion H as [H']. apply existsb_exists in H'.
        destruct H' as (lang & Hl & Hi). apply includes_string_In in Hi. eauto.
      + intros (lang & items' & Hl & Hi & Hin). inversion Hi; subst. f_equal.
        apply existsb_exists. exists lang. split; [exact Hl|]. now apply includes_string_In.
    - split; [discriminate|]. intros (? & ? & _ & H & _). discriminate. }
  split; [exact E|]. split; [exact S|]. split; [|split; [|split]].
  - intros p. rewrite I, K. reflexivity.
  - intros Hempty. destruct kept as [|p kept']; [reflexivity|]. exfalso.
    assert (Hp : In p (p :: kept')) by now left.
    apply I in Hp. destruct Hp as [_ Hp]. apply K in Hp.
    destruct Hp as (lang & _ & Hl & _). rewrite Hempty in Hl. destruct Hl.
  - intros props items H. unfold extractLanguagesFromMetadata. simpl. now rewrite H.
  - intros props H1 H2 H3. unfold extractLanguagesFromMetadata. simpl.
    now rewrite H1, H2, H3.
Qed.

Lemma language_filter_keeps_witness :
  match apply (LanguageFilterStrategy language_store {| languages := ["ts"] |})
          Samples.projects with
  | Ok kept =>
      sublist kept Samples.projects /\
      In 1%positive kept /\ ~ In 2%positive kept /\ ~ In 3%positive kept
  | Throw _ => False
  end.
Proof.
  destruct (language_filter_keeps language_store {| languages := ["ts"] |} Samples.projects)
    as (kept & E & S & I & _).
  - intros p _. unfold language_store.
    destruct p as [[|[]|]|[|[]|]|]; eexists; reflexivity.
  - rewrite E. split; [exact S|]. split; [|split].
    + apply I. split; [now left|].
      exists "ts", [JString "ts"; JString "js"].
      split; [now left|]. split; [reflexivity|now left].
    + intros H. apply I in H. destruct H as (_ & lang & items & Hl & Hx & Hin).
      inversion Hx; subst. destruct Hl as [<-|[]].
      destruct Hin as [Hin|[]]. discriminate Hin.
    + intros H. apply I in H. destruct H as (_ & lang & items & _ & Hx & Hin).
      inversion Hx; subst. destruct Hin.
Defined.

End FilterExtraProofs.

(** ** More on the orchestrator *)

Module OrchestratorExtraProofs.
Import DefaultReportOrchestrator OrchestratorMore OrchestratorProofs.

Lemma counts_fold (l : list CategorizedProject) : forall (m : gmap string nat) (k : string),
  fold_left (fun counts p =>
               let category := category_label (category p) in
               <[category := default 0 (counts !! category) + 1]> counts) l m !! k
  = match occurrences k l with
    | 0 => m !! k
    | S n => Some (default 0 (m !! k) + S n)
    end.
Proof.
  unfold occurrences.
  induction l as [|p l IH]; intros m k; cbn [fold_left List.filter length]; [reflexivity|].
  rewrite IH. cbv zeta.
  destruct (String.eqb_spec (category_label (category p)) k) as [->|Hne];
    cbn [length].
  - rewrite lookup_insert_eq.
    destruct (length (List.filter (fun q => String.eqb (category_label (category q)) k) l));
      destruct (m !! k); unfold default; cbn [from_option]; unfold id; f_equal; lia.
  - rewrite lookup_insert_ne by exact Hne. reflexivity.
Qed.

Lemma occurrences_total (projects : list CategorizedProject) :
  occurrences (category_label SIN_COVERAGE) projects
  + occurrences (category_label NO_PASA_MINIMO) projects
  + occurrences (category_label SI_PASA_MINIMO) projects = length projects.
Proof.
  unfold occurrences.
  induction projects as [|p l IH]; [reflexivity|].
  cbn [List.filter length].
  destruct (category p); cbn [category_label];
    repeat match goal with
           | |- context [String.eqb ?a ?b] =>
               let v := eval vm_compute in (String.eqb a b) in
               change (String.eqb a b) with v
           end; cbn [length]; cbn [category_label] in IH; lia.
Qed.

(** X12: [calculateCategoryCounts] maps each category label to the number
    of projects that carry it; a label that no project carries has no
    entry (rather than a zero one), and the counts of the three categories
    add up to the number of projects. *)
Theorem categoryCounts_counts (projects : list CategorizedProject) :
  (forall k,
     calculateCategoryCounts projects !! k
       = match occurrences k projects with 0 => None | S n => Some (S n) end) /\
  occurrences (category_label SIN_COVERAGE) projects
  + occurrences (category_label NO_PASA_MINIMO) projects
  + occurrences (category_label SI_PASA_MINIMO) projects = length projects.
Proof.
  split; [|apply occurrences_total].
  intro k. unfold calculateCategoryCounts. rewrite counts_fold.
  rewrite lookup_empty. destruct (occurrences k projects); reflexivity.
Qed.

Section Classifying.
Variables (D : Dependencies) (store : Store) (cc : ClassificationConfig.t).

Lemma classifyProjects_from_Ok (total : nat) (projects : list ProjectRef) :
  forall index events cats,
    classifyProjects_from D store cc total index projects = (events, Ok cats)
    <-> Forall2 (judged D store cc) projects cats /\ events = progress_events store total index cats.
Proof.
  induction projects as [|p rest IH]; intros index events cats.
  - cbn. split.
    + intro H. inversion H; subst. split; [constructor|reflexivity].
    + intros [H ->]. inversion H; subst. reflexivity.
  - cbn [classifyProjects_from]. unfold classifyProject.
    unfold mbind, run_bind, Run.bind, Run.call, Run.emit, Run.ret.
    change (classify (classifier D) (coveragePercent (store p))
              (ClassificationConfig.threshold cc)) with (judge D store cc p).
    destruct (judge D store cc p) as [c|e] eqn:Hj.
    + destruct (classifyProjects_from D store cc total (S index) rest) as [later [others|e]] eqn:Hrest.
      * apply IH in Hrest. destruct Hrest as [Hothers ->]. cbn. rewrite app_nil_r. split.
        -- intro H. inversion H; subst. split.
           ++ constructor; [|exact Hothers]. unfold judged. cbn. auto.
           ++ reflexivity.
        -- intros [H ->]. inversion H as [|? c' ? others' [Hc [Hp Ht]] Hrest']; subst.
           destruct c' as [p' c' t']. cbn in *. subst.
           assert (c' = c) by congruence. subst.
           assert (Hsame : (progress_events store total (S index) others', Ok others')
                           = (progress_events store total (S index) others, Ok others)).
           { rewrite <- (proj2 (IH (S index) _ others')) by (split; [exact Hrest'|reflexivity]).
             rewrite <- (proj2 (IH (S index) _ others)) by (split; [exact Hothers|reflexivity]).
             reflexivity. }
           inversion Hsame; subst. congruence.
      * cbn. split; [discriminate|].
        intros [H ->]. inversion H as [|? c' ? others' [Hc [Hp Ht]] Hrest']; subst.
        pose proof (proj2 (IH (S index) _ others') (conj Hrest' eq_refl)) as Hok.
        rewrite Hrest in Hok. discriminate.
    + cbn. split; [discriminate|].
      intros [H _]. inversion H as [|? c' ? others' [Hc _] _]; subst. congruence.
Qed.


End Classifying.

Lemma filter_applyFilters_from (keep : Event -> bool) (filters : list FilterStrategy) :
  (forall n ps, keep (CallFilterApply n ps) = false) ->
  forall projects, List.filter keep (fst (applyFilters_from filters projects)) = [].
Proof.
  intros Hk. induction filters as [|f filters IH]; intros projects; [reflexivity|].
  cbn [applyFilters_from]. unfold mbind, run_bind, Run.bind, Run.call.
  destruct (apply f projects) as [filtered|e]; cbn.
  - specialize (IH filtered). destruct (applyFilters_from filters filtered) as [later r].
    cbn in *. now rewrite Hk.
  - now rewrite Hk.
Qed.

Lemma filter_progress_events (keep : Event -> bool) (store : Store) (total : nat)
    (cats : list CategorizedProject) :
  (forall c t, keep (CallClassify c t) = false) ->
  (forall c i n, keep (OnProjectProcessed c i n) = false) ->
  forall index, List.filter keep (progress_events store total index cats) = [].
Proof.
  intros H1 H2. induction cats as [|c cats IH]; intros index; [reflexivity|].
  cbn. now rewrite H1, H2, IH.
Qed.

Lemma counts_default (k : string) (cats : list CategorizedProject) :
  default 0 (calculateCategoryCounts cats !! k) = occurrences k cats.
Proof.
  unfold calculateCategoryCounts. rewrite counts_fold, lookup_empty.
  destruct (occurrences k cats); reflexivity.
Qed.

(** X15: a report that [generateReport] returns agrees with what the run
    did: it echoes the configuration; its CSV text is what the reporter
    generated, in the single call to it, for the classified projects; it
    was written to the output path when that is given and not empty, and
    not written at all otherwise; and its project count is the number of
    projects that passed the injected filters, which is also the sum of the
    three category counts. *)
Theorem report_agrees_with_run (D : Dependencies) (store : Store) (config : ReportConfig)
    (r : ReportResult) :
  snd (generateReport D store config) = Ok r ->
  let events := fst (generateReport D store config) in
  metadata_config r = config /\
  List.filter is_write events = writes config (csvContent r) /\
  (exists cats,
     List.filter is_generate events = [CallGenerate cats (csv config)] /\
     generate (reporter D) cats (csv config) = Ok (csvContent r) /\
     projectCount r = length cats /\
     categoryCounts r = calculateCategoryCounts cats) /\
  (exists projects filtered,
     fetchProjects (client D) = Ok projects /\
     snd (applyFilters D projects) = Ok filtered /\
     projectCount r = length filtered) /\
  default 0 (categoryCounts r !! category_label SIN_COVERAGE)
  + default 0 (categoryCounts r !! category_label NO_PASA_MINIMO)
  + default 0 (categoryCounts r !! category_label SI_PASA_MINIMO) = projectCount r.
Proof.
  rewrite generateReport_outcome.
  destruct (generateReport_try D store config) as [events [r'|e]] eqn:Htry; [|discriminate].
  cbn. intro H. inversion H; subst r'. clear H.
  apply generateReport_try_Ok in Htry.
  destruct Htry as (projects & filtering & filtered & classifying & cats & csvText
                    & Ha & Hf & Hfl & Hc & Hg & Hr & Hev).
  assert (Hfiltering : forall keep, (forall n ps, keep (CallFilterApply n ps) = false) ->
                                    List.filter keep filtering = []).
  { intros keep Hk. pose proof (filter_applyFilters_from keep (injected_filters D) Hk projects)
      as Q. unfold applyFilters in Hfl. now rewrite Hfl in Q. }
  apply classifyProjects_from_Ok in Hc. destruct Hc as [Hcats Hclassifying].
  assert (Hwrites : List.filter is_write (writes config csvText) = writes config csvText
                    /\ List.filter is_generate (writes config csvText) = []).
  { unfold writes. destruct (outputPath config) as [path|]; [|split; reflexivity].
    destruct (String.eqb path ""); split; reflexivity. }
  split; [now rewrite Hr|]. split; [|split; [|split]].
  - rewrite Hev. cbn [app List.filter is_write].
    repeat (rewrite List.filter_app; cbn [app List.filter is_write]).
    rewrite Hfiltering by reflexivity.
    rewrite Hclassifying, filter_progress_events by reflexivity.
    rewrite (proj1 Hwrites), app_nil_r. now rewrite Hr.
  - exists cats. split; [|rewrite Hr; auto].
    rewrite Hev. cbn [app List.filter is_generate].
    repeat (rewrite List.filter_app; cbn [app List.filter is_generate]).
    rewrite Hfiltering by reflexivity.
    rewrite Hclassifying, filter_progress_events by reflexivity.
    now rewrite (proj2 Hwrites).
  - exists projects, filtered. split; [exact Hf|]. split; [now rewrite Hfl|].
    rewrite Hr. cbn. symmetry. exact (Forall2_length _ _ _ Hcats).
  - rewrite Hr. cbn [categoryCounts projectCount].
    rewrite !counts_default. apply occurrences_total.
Qed.

Lemma report_agrees_with_run_witness :
  snd (generateReport (Samples.dependencies Samples.working_client working_disk)
         Samples.store (Samples.report_config "https://sonar.example" (Some "report.csv")))
  = Ok (sample_report (Samples.report_config "https://sonar.example" (Some "report.csv"))) /\
  List.filter is_write
    (fst (generateReport (Samples.dependencies Samples.working_client working_disk)
            Samples.store (Samples.report_config "https://sonar.example" (Some "report.csv"))))
  = [CallWriteToFile Samples.scenario_csv "report.csv"].
Proof.
  split; [vm_compute; reflexivity|].
  refine (proj1 (proj2
    (report_agrees_with_run
       (Samples.dependencies Samples.working_client working_disk) Samples.store
       (Samples.report_config "https://sonar.example" (Some "report.csv"))
       (sample_report (Samples.report_config "https://sonar.example" (Some "report.csv")))
       _))).
  vm_compute; reflexivity.
Defined.

Lemma range_check (t : float) :
  (PrimFloat.ltb t 0 || PrimFloat.ltb 100 t) = false
  <-> PrimFloat.is_nan t = true
      \/ (PrimFloat.leb 0 t = true /\ PrimFloat.leb t 100 = true).
Proof.
  rewrite orb_false_iff.
  destruct (PrimFloat.is_nan t) eqn:Hn.
  - pose proof (FilterExtraProofs.nan_not_ltb t 0 Hn) as [H0 _].
    pose proof (FilterExtraProofs.nan_not_ltb t 100 Hn) as [_ H100].
    split; [left; reflexivity|]. intros _. split; assumption.
  - rewrite (FilterExtraProofs.not_ltb_iff_leb t 0 Hn eq_refl).
    rewrite (FilterExtraProofs.not_ltb_iff_leb 100 t eq_refl Hn).
    split; [intros H; right; exact H|]. intros [H|H]; [discriminate|exact H].
Qed.

(** X16: [validateConfig] returns [true] exactly when the base URL and the
    token are not empty, the URL is one that [new URL] accepts, and the
    threshold is within 0 and 100, both included, or is NaN, which neither
    comparison rejects.  It never returns [false]: a configuration it does
    not accept makes it throw. *)
Theorem validateConfig_accepts (D : Dependencies) (config : ReportConfig) :
  (validateConfig D config = Ok true
   <-> baseUrl (sonarqube config) <> "" /\
       token (sonarqube config) <> "" /\
       (PrimFloat.is_nan (ClassificationConfig.threshold (classification config)) = true
        \/ (PrimFloat.leb 0 (ClassificationConfig.threshold (classification config)) = true
            /\ PrimFloat.leb (ClassificationConfig.threshold (classification config)) 100
               = true)) /\
       URL_accepts D (baseUrl (sonarqube config)) = true) /\
  validateConfig D config <> Ok false.
Proof.
  unfold validateConfig, validateConfig_try. rewrite <- range_check.
  destruct (String.eqb_spec (baseUrl (sonarqube config)) "") as [Hb|Hb].
  { split; [|discriminate]. split; [discriminate|]. intros [H _]. contradiction. }
  destruct (String.eqb_spec (token (sonarqube config)) "") as [Ht|Ht].
  { split; [|discriminate]. split; [discriminate|]. intros (_ & H & _). contradiction. }
  destruct (PrimFloat.ltb (ClassificationConfig.threshold (classification config)) 0
            || PrimFloat.ltb 100 (ClassificationConfig.threshold (classification config))).
  { split; [|discriminate]. split; [discriminate|]. intros (_ & _ & H & _). discriminate. }
  destruct (URL_accepts D (baseUrl (sonarqube config))); cbn.
  - split; [|discriminate]. split; [intros _; auto|reflexivity].
  - split; [|discriminate]. split; [discriminate|]. intros (_ & _ & _ & H). discriminate.
Qed.

(** X17: whatever is wrong with the configuration, [generateReport] calls
    no collaborator, notifies nothing, and throws one and the same value:
    the failure of [validateConfig] is wrapped a second time, and since the
    first wrapping is not an [Error] the second keeps neither its message
    nor itself as the cause. *)
Theorem invalid_config_same_error (D : Dependencies) (store : Store) (config : ReportConfig) :
  validateConfig D config <> Ok true ->
  generateReport D store config
  = ([], Throw (JObject [("name", JString "ReportError");
                         ("message",
                          JString "Error in generate phase: Unknown error occurred");
                         ("phase", JString "generate");
                         ("cause", JUndefined)])).
Proof.
  intros H.
  assert (Hthrow : exists e, validateConfig D config = Throw (wrapError e phase_config)).
  { unfold validateConfig in *. destruct (validateConfig_try D config) as [[]|e] eqn:Htry.
    - contradiction.
    - exfalso. unfold validateConfig_try in Htry.
      repeat match type of Htry with
             | (if ?c then _ else _) = _ => destruct c; try discriminate
             end.
    - eauto. }
  destruct Hthrow as [e He].
  rewrite (config_failure_stops D store config _ He). reflexivity.
Qed.

Lemma invalid_config_same_error_witness :
  generateReport (Samples.dependencies Samples.working_client working_disk) Samples.store
    (Samples.report_config "" None)
  = ([], Throw (JObject [("name", JString "ReportError");
                         ("message",
                          JString "Error in generate phase: Unknown error occurred");
                         ("phase", JString "generate");
                         ("cause", JUndefined)])).
Proof.
  apply (invalid_config_same_error
           (Samples.dependencies Samples.working_client working_disk) Samples.store
           (Samples.report_config "" None)).
  vm_compute. discriminate.
Defined.

Lemma applyFilters_from_inputs (fs : list FilterStrategy) :
  forall projects events filtered,
    applyFilters_from fs projects = (events, Ok filtered) ->
    length events = length fs /\
    forall i f, fs !! i = Some f ->
      exists input,
        apply (FilterStrategies.AndFilterStrategy (take i fs)) projects = Ok input /\
        events !! i = Some (CallFilterApply (getName f) input).
Proof.
  induction fs as [|f0 fs IH]; intros projects events filtered H.
  - inversion H; subst. split; [reflexivity|]. intros i f Hi. discriminate.
  - cbn [applyFilters_from] in H. unfold mbind, run_bind, Run.bind, Run.call in H.
    destruct (apply f0 projects) as [passed|e] eqn:H0; [|discriminate].
    destruct (applyFilters_from fs passed) as [later [out|e]] eqn:Hrest; [|discriminate].
    inversion H; subst. clear H.
    apply IH in Hrest. destruct Hrest as [Hlen Hinputs].
    split; [cbn; now rewrite Hlen|].
    intros [|i] f Hi.
    + inversion Hi; subst. exists projects. split; reflexivity.
    + cbn in Hi. destruct (Hinputs i f Hi) as (input & Hinput & Hev).
      exists input. split; [|exact Hev].
      cbn [take apply FilterStrategies.AndFilterStrategy Array_reduce].
      rewrite H0. exact Hinput.
Qed.

(** X18: the orchestrator combines the injected filters as
    [AndFilterStrategy] does: [applyFilters] returns or throws what the
    AND-combination of the injected filters returns or throws.  When it
    returns, every injected filter was applied once, in order, each to what
    the filters before it let through; without injected filters the
    projects pass unchanged and nothing is called. *)
Theorem applyFilters_is_and (D : Dependencies) (projects : list ProjectRef) :
  snd (applyFilters D projects)
    = apply (FilterStrategies.AndFilterStrategy (injected_filters D)) projects /\
  (forall events filtered,
     applyFilters D projects = (events, Ok filtered) ->
     length events = length (injected_filters D) /\
     forall i f, injected_filters D !! i = Some f ->
       exists input,
         apply (FilterStrategies.AndFilterStrategy (take i (injected_filters D))) projects
           = Ok input /\
         events !! i = Some (CallFilterApply (getName f) input)) /\
  (injected_filters D = [] -> applyFilters D projects = ([], Ok projects)).
Proof.
  split; [apply applyFilters_reduce|]. split.
  - intros events filtered H. exact (applyFilters_from_inputs _ _ _ _ H).
  - unfold applyFilters. intros ->. reflexivity.
Qed.

Lemma last_set_from {A} (pick : Setter -> option A) (field : ReportConfigBuilder -> option A)
    (calls : list Setter) :
  (forall b s, field (set b s) = match pick s with Some a => Some a | None => field b end) ->
  forall b,
    field (fold_left set calls b)
    = fold_left (fun acc s => match pick s with Some a => Some a | None => acc end)
        calls (field b).
Proof.
  intros Hset. induction calls as [|s calls IH]; intros b; [reflexivity|].
  cbn [fold_left]. now rewrite IH, Hset.
Qed.

(** X19: [ReportConfigBuilder.build] after a chain of setter calls: it
    throws exactly when [sonarqube] was never called; otherwise every
    property is the argument of the last call of its setter, and a
    [classification] never set is the threshold 50, a [csv] never set the
    empty configuration, [filters] and [outputPath] never set are absent. *)
Theorem builder_last_call_wins (calls : list Setter) :
  build (chain calls)
  = match last_set pick_sonarqube calls with
    | None => Throw (new_Error "SonarQube configuration is required")
    | Some sq =>
        Ok {| sonarqube := sq;
              classification :=
                default {| ClassificationConfig.threshold := 50;
                           ClassificationConfig.strictZeroClassification := None |}
                        (last_set pick_classification calls);
              csv := default empty_CsvConfig (last_set pick_csv calls);
              filters := last_set pick_filters calls;
              outputPath := last_set pick_outputPath calls |}
    end /\
  (forall A (pick : Setter -> option A) s,
     last_set pick [] = None /\
     last_set pick (calls ++ [s])
     = match pick s with Some a => Some a | None => last_set pick calls end).
Proof.
  split.
  - unfold build, chain, last_set.
    rewrite (last_set_from pick_sonarqube b_sonarqube) by (intros b []; reflexivity).
    rewrite (last_set_from pick_classification b_classification)
      by (intros b []; reflexivity).
    rewrite (last_set_from pick_csv b_csv) by (intros b []; reflexivity).
    rewrite (last_set_from pick_filters b_filters) by (intros b []; reflexivity).
    rewrite (last_set_from pick_outputPath b_outputPath) by (intros b []; reflexivity).
    reflexivity.
  - intros A pick s. split; [reflexivity|].
    unfold last_set. now rewrite fold_left_app.
Qed.





End OrchestratorExtraProofs.

(** ** The orchestrator with progress callbacks that may throw *)

Module NotifyingProofs.
Import DefaultReportOrchestrator OrchestratorMore OrchestratorProofs.

Section Callbacks.
Variable cb : Notifying.ProgressCallback.
Variables (D : Dependencies) (store : Store) (cc : ClassificationConfig.t) (total : nat).

(** One step of the loop of [classifyProjects]. *)
Lemma classifyProjects_from_cons (index : nat) (p : ProjectRef) (rest : list ProjectRef) :
  Notifying.classifyProjects_from cb D store cc total index (p :: rest)
  = match judge D store cc p with
    | Throw e =>
        ([CallClassify (coveragePercent (store p)) (ClassificationConfig.threshold cc)],
         Throw e)
    | Ok c =>
        let cz := categorized_as (ClassificationConfig.threshold cc) p c in
        let ev := OnProjectProcessed cz (index + 1) total in
        match cb ev with
        | Some (Throw e) =>
            ([CallClassify (coveragePercent (store p)) (ClassificationConfig.threshold cc);
              ev], Throw e)
        | _ =>
            ((CallClassify (coveragePercent (store p)) (ClassificationConfig.threshold cc)
              :: Notifying.notified cb ev
              ++ fst (Notifying.classifyProjects_from cb D store cc total (S index) rest))%list,
             match snd (Notifying.classifyProjects_from cb D store cc total (S index) rest)
             with
             | Ok others => Ok (cz :: others)
             | Throw e => Throw e
             end)
        end
    end.
Proof.
  cbn [Notifying.classifyProjects_from]. unfold Notifying.classifyProject, judge.
  unfold mbind, run_bind, Run.bind, Run.call, Run.ret.
  destruct (classify (classifier D) (coveragePercent (store p))
              (ClassificationConfig.threshold cc)) as [c|e]; [|reflexivity].
  cbv zeta. unfold Notifying.notify, Notifying.notified, categorized_as, Run.call, Run.ret.
  destruct (cb _) as [[[]|e]|];
    destruct (Notifying.classifyProjects_from cb D store cc total (S index) rest)
      as [later [others|e']]; cbn; rewrite ?app_nil_r; reflexivity.
Qed.

Lemma classifyProjects_from_Ok_iff (projects : list ProjectRef) :
  forall index events cats,
    Notifying.classifyProjects_from cb D store cc total index projects = (events, Ok cats)
    <-> Forall2 (judged D store cc) projects cats /\
        (forall i c, cats !! i = Some c ->
           Notifying.returns cb (OnProjectProcessed c (index + i + 1) total)) /\
        events = Notifying.progress cb store total index cats.
Proof.
  induction projects as [|p rest IH]; intros index events cats.
  - cbn. split.
    + intros H. inversion H; subst. split; [constructor|]. split; [|reflexivity].
      intros i c Hi. destruct i; discriminate.
    + intros (H & _ & ->). inversion H; subst. reflexivity.
  - rewrite classifyProjects_from_cons.
    destruct (judge D store cc p) as [c|e0] eqn:Hj.
    2:{ split; [discriminate|]. intros (H & _).
        inversion H as [|? c' ? others' [Hc _] _]; subst. congruence. }
    cbv zeta.
    set (cz := categorized_as (ClassificationConfig.threshold cc) p c).
    assert (Heta : forall c', judged D store cc p c' -> c' = cz).
    { intros [p' c' t'] (Hc' & Hp' & Ht'). cbn in *. subst. unfold cz, categorized_as.
      f_equal. congruence. }
    assert (Hcz : judged D store cc p cz) by (unfold judged; cbn; auto).
    assert (Hthrows : forall e1,
              cb (OnProjectProcessed cz (index + 1) total) = Some (Throw e1) ->
              ((CallClassify (coveragePercent (store p)) (ClassificationConfig.threshold cc)
                :: [OnProjectProcessed cz (index + 1) total], @Throw (list CategorizedProject) e1)
               = (events, Ok cats)
               <-> Forall2 (judged D store cc) (p :: rest) cats /\
                   (forall i c, cats !! i = Some c ->
                      Notifying.returns cb (OnProjectProcessed c (index + i + 1) total)) /\
                   events = Notifying.progress cb store total index cats)).
    { intros e1 Hcb. split; [discriminate|]. intros (H & Hret & _).
      inversion H as [|? c' ? others' Hc' _]; subst. apply Heta in Hc'. subst c'.
      specialize (Hret 0 cz eq_refl).
      replace (index + 0 + 1) with (index + 1) in Hret by lia.
      exfalso. exact (Hret e1 Hcb). }
    assert (Hgoes : (forall e1, cb (OnProjectProcessed cz (index + 1) total)
                                <> Some (Throw e1)) ->
              (((CallClassify (coveragePercent (store p)) (ClassificationConfig.threshold cc)
                 :: Notifying.notified cb (OnProjectProcessed cz (index + 1) total)
                 ++ fst (Notifying.classifyProjects_from cb D store cc total (S index) rest))%list,
                match snd (Notifying.classifyProjects_from cb D store cc total (S index) rest)
                with
                | Ok others => Ok (cz :: others)
                | Throw e => Throw e
                end) = (events, Ok cats)
               <-> Forall2 (judged D store cc) (p :: rest) cats /\
                   (forall i c, cats !! i = Some c ->
                      Notifying.returns cb (OnProjectProcessed c (index + i + 1) total)) /\
                   events = Notifying.progress cb store total index cats)).
    { intros Hcb.
      destruct (Notifying.classifyProjects_from cb D store cc total (S index) rest)
        as [later [others|e2]] eqn:Hrest; cbn [fst snd].
      - pose proof (proj1 (IH (S index) later others) Hrest) as (Hothers & Hret & Hlater).
        split.
        + intros H. inversion H; subst. split; [constructor; assumption|]. split.
          * intros [|i] c' Hi.
            -- inversion Hi; subst. replace (index + 0 + 1) with (index + 1) by lia.
               exact Hcb.
            -- replace (index + S i + 1) with (S index + i + 1) by lia.
               exact (Hret i c' Hi).
          * reflexivity.
        + intros (H & Hret' & ->).
          inversion H as [|? c' ? others' Hc' Hrest']; subst.
          apply Heta in Hc'. subst c'.
          assert (Hsame : Notifying.classifyProjects_from cb D store cc total (S index) rest
                          = (Notifying.progress cb store total (S index) others', Ok others')).
          { apply IH. split; [exact Hrest'|]. split; [|reflexivity].
            intros i c' Hi. specialize (Hret' (S i) c' Hi).
            replace (index + S i + 1) with (S index + i + 1) in Hret' by lia.
            exact Hret'. }
          rewrite Hrest in Hsame. inversion Hsame; subst. reflexivity.
      - split; [discriminate|]. intros (H & Hret' & _).
        inversion H as [|? c' ? others' Hc' Hrest']; subst.
        assert (Hsame : Notifying.classifyProjects_from cb D store cc total (S index) rest
                        = (Notifying.progress cb store total (S index) others', Ok others')).
        { apply IH. split; [exact Hrest'|]. split; [|reflexivity].
          intros i c'' Hi. specialize (Hret' (S i) c'' Hi).
          replace (index + S i + 1) with (S index + i + 1) in Hret' by lia.
          exact Hret'. }
        rewrite Hrest in Hsame. discriminate. }
    destruct (cb (OnProjectProcessed cz (index + 1) total)) as [[[]|e1]|] eqn:Hcb.
    + apply Hgoes. discriminate.
    + apply (Hthrows e1 eq_refl).
    + apply Hgoes. discriminate.
Qed.

Lemma snd_classifyProjects_from_cons (index : nat) (p : ProjectRef)
    (rest : list ProjectRef) :
  snd (Notifying.classifyProjects_from cb D store cc total index (p :: rest))
  = match judge D store cc p with
    | Throw e => Throw e
    | Ok c =>
        match cb (OnProjectProcessed
                    (categorized_as (ClassificationConfig.threshold cc) p c)
                    (index + 1) total) with
        | Some (Throw e) => Throw e
        | _ =>
            match snd (Notifying.classifyProjects_from cb D store cc total (S index) rest)
            with
            | Ok others =>
                Ok (categorized_as (ClassificationConfig.threshold cc) p c :: others)
            | Throw e => Throw e
            end
        end
    end.
Proof.
  rewrite classifyProjects_from_cons.
  destruct (judge D store cc p) as [c|e]; [|reflexivity]. cbv zeta.
  destruct (cb _) as [[[]|e]|]; reflexivity.
Qed.

Lemma classifyProjects_from_Throw_iff (projects : list ProjectRef) :
  forall index e,
    snd (Notifying.classifyProjects_from cb D store cc total index projects) = Throw e
    <-> exists before p after cats,
          projects = (before ++ p :: after)%list /\
          snd (Notifying.classifyProjects_from cb D store cc total index before) = Ok cats /\
          Notifying.step_throws cb D store cc total (index + length before) p e.
Proof.
  induction projects as [|p0 rest IH]; intros index e.
  - cbn. split; [discriminate|].
    intros (before & p & after & cats & H & _). destruct before; discriminate.
  - rewrite snd_classifyProjects_from_cons.
    assert (Hfirst : forall before p after cats,
              (p0 :: rest = before ++ p :: after)%list ->
              snd (Notifying.classifyProjects_from cb D store cc total index before)
                = Ok cats ->
              (before = [] /\ p = p0 /\ after = rest) \/
              (exists before' c others,
                 before = p0 :: before' /\ rest = (before' ++ p :: after)%list /\
                 judge D store cc p0 = Ok c /\
                 (forall e', cb (OnProjectProcessed
                                   (categorized_as (ClassificationConfig.threshold cc) p0 c)
                                   (index + 1) total) <> Some (Throw e')) /\
                 snd (Notifying.classifyProjects_from cb D store cc total (S index) before')
                   = Ok others)).
    { intros [|b before'] p after cats Hsplit Hbefore; cbn in Hsplit; inversion Hsplit; subst.
      - left. auto.
      - right. rewrite snd_classifyProjects_from_cons in Hbefore.
        destruct (judge D store cc b) as [c|e'] eqn:Hj; [|discriminate].
        destruct (cb (OnProjectProcessed
                        (categorized_as (ClassificationConfig.threshold cc) b c)
                        (index + 1) total)) as [[[]|e1]|] eqn:Hcb; try discriminate;
          destruct (snd (Notifying.classifyProjects_from cb D store cc total (S index)
                           before')) as [others|e2] eqn:Hs; try discriminate;
          exists before', c, others; repeat split; auto; rewrite Hcb; discriminate. }
    destruct (judge D store cc p0) as [c|e0] eqn:Hj.
    + assert (Hgoes :
                (forall e', cb (OnProjectProcessed
                                  (categorized_as (ClassificationConfig.threshold cc) p0 c)
                                  (index + 1) total) <> Some (Throw e')) ->
                (match snd (Notifying.classifyProjects_from cb D store cc total (S index) rest)
                 with
                 | Ok others =>
                     Ok (categorized_as (ClassificationConfig.threshold cc) p0 c :: others)
                 | Throw e' => Throw e'
                 end = Throw e
                 <-> exists before p after cats,
                       (p0 :: rest = before ++ p :: after)%list /\
                       snd (Notifying.classifyProjects_from cb D store cc total index before)
                         = Ok cats /\
                       Notifying.step_throws cb D store cc total (index + length before)
                         p e)).
      { intros Hcb. split.
        - destruct (snd (Notifying.classifyProjects_from cb D store cc total (S index) rest))
            as [others|e2] eqn:Hs; [discriminate|].
          intros H. inversion H; subst e2.
          apply IH in Hs. destruct Hs as (before & p & after & cats & -> & Hb & Hp).
          exists (p0 :: before), p, after,
                 (categorized_as (ClassificationConfig.threshold cc) p0 c :: cats).
          split; [reflexivity|]. split.
          + rewrite snd_classifyProjects_from_cons, Hj, Hb.
            destruct (cb _) as [[[]|e1]|]; try reflexivity.
            exfalso. exact (Hcb e1 eq_refl).
          + cbn [length]. replace (index + S (length before)) with (S index + length before)
              by lia. exact Hp.
        - intros (before & p & after & cats & Hsplit & Hb & Hp).
          destruct (Hfirst before p after cats Hsplit Hb)
            as [(-> & -> & ->)|(before' & c' & others & -> & -> & Hc' & _ & Hb')].
          + exfalso. destruct Hp as [Hp|(c1 & Hc1 & Hp)]; [congruence|].
            assert (c1 = c) by congruence. subst c1.
            cbn [length] in Hp. replace (index + 0 + 1) with (index + 1) in Hp by lia.
            exact (Hcb e Hp).
          + cbn [length] in Hp.
            replace (index + S (length before')) with (S index + length before') in Hp
              by lia.
            assert (Hs : snd (Notifying.classifyProjects_from cb D store cc total (S index)
                                (before' ++ p :: after)) = Throw e).
            { apply IH. exists before', p, after, others. auto. }
            rewrite Hs. reflexivity. }
      destruct (cb (OnProjectProcessed
                      (categorized_as (ClassificationConfig.threshold cc) p0 c)
                      (index + 1) total)) as [[[]|e1]|] eqn:Hcb.
      * apply Hgoes. discriminate.
      * split.
        -- intros H. inversion H; subst e1. exists [], p0, rest, [].
           split; [reflexivity|]. split; [reflexivity|]. right. exists c.
           split; [exact Hj|]. cbn [length].
           replace (index + 0 + 1) with (index + 1) by lia. exact Hcb.
        -- intros (before & p & after & cats & Hsplit & Hb & Hp).
           destruct (Hfirst before p after cats Hsplit Hb)
             as [(-> & -> & ->)|(before' & c' & others & -> & -> & Hc' & Hret & _)].
           ++ destruct Hp as [Hp|(c1 & Hc1 & Hp)]; [congruence|].
              assert (c1 = c) by congruence. subst c1.
              cbn [length] in Hp. replace (index + 0 + 1) with (index + 1) in Hp by lia.
              congruence.
           ++ assert (c' = c) by congruence. subst c'. exfalso. exact (Hret e1 Hcb).
      * apply Hgoes. discriminate.
    + split.
      * intros H. inversion H; subst e0. exists [], p0, rest, [].
        split; [reflexivity|]. split; [reflexivity|]. left. exact Hj.
      * intros (before & p & after & cats & Hsplit & Hb & Hp).
        destruct (Hfirst before p after cats Hsplit Hb)
          as [(-> & -> & ->)|(before' & c' & others & -> & -> & Hc' & _)]; [|congruence].
        destruct Hp as [Hp|(c1 & Hc1 & _)]; congruence.
Qed.

End Callbacks.

Lemma classifyProjects_from_returning (D : Dependencies) (store : Store)
    (cc : ClassificationConfig.t) (total : nat) (projects : list ProjectRef) :
  forall index,
    Notifying.classifyProjects_from Notifying.returning D store cc total index projects
    = classifyProjects_from D store cc total index projects.
Proof.
  induction projects as [|p rest IH]; intros index; [reflexivity|].
  cbn [Notifying.classifyProjects_from classifyProjects_from]. rewrite IH. reflexivity.
Qed.

(** With callbacks that all return, the run is the one of
    [DefaultReportOrchestrator.generateReport]. *)
Lemma generateReport_returning (D : Dependencies) (store : Store) (config : ReportConfig) :
  Notifying.generateReport Notifying.returning D store config
  = generateReport D store config.
Proof.
  unfold Notifying.generateReport, generateReport. f_equal.
  unfold Notifying.generateReport_try, generateReport_try.
  apply bind_ext. intros _. apply bind_ext. intros _.
  apply (bind_ext (Run.emit OnFetchingProjects)). intros _.
  apply bind_ext. intros projects. apply bind_ext. intros filtered.
  apply (bind_ext (Run.emit (OnFiltering (length projects) (length filtered)))). intros _.
  unfold Notifying.classifyProjects, classifyProjects.
  rewrite classifyProjects_from_returning. reflexivity.
Qed.

(** X13: [classifyProjects] returns exactly when the classifier accepts the
    coverage of every project and every notification of a categorized
    project returns: then there is one categorized project per project, in
    order, with the classifier's category and the configured threshold,
    notified with its position counted from one and the total.  It throws
    at the first project at which the classifier or the [onProjectProcessed]
    callback throws, and what it throws is what that one threw.  With
    callbacks that return it is the [classifyProjects] of
    [DefaultReportOrchestrator]. *)
Theorem classifyProjects_outcome (cb : Notifying.ProgressCallback) (D : Dependencies)
    (store : Store) (cc : ClassificationConfig.t) (projects : list ProjectRef) :
  (forall events cats,
     Notifying.classifyProjects cb D store projects cc = (events, Ok cats)
     <-> Forall2 (judged D store cc) projects cats /\
         (forall i c, cats !! i = Some c ->
            Notifying.returns cb (OnProjectProcessed c (i + 1) (length projects))) /\
         events = Notifying.progress cb store (length projects) 0 cats) /\
  (forall e,
     snd (Notifying.classifyProjects cb D store projects cc) = Throw e
     <-> exists before p after cats,
           projects = (before ++ p :: after)%list /\
           snd (Notifying.classifyProjects_from cb D store cc (length projects) 0 before)
             = Ok cats /\
           Notifying.step_throws cb D store cc (length projects) (length before) p e) /\
  Notifying.classifyProjects Notifying.returning D store projects cc
  = classifyProjects D store projects cc.
Proof.
  split; [|split].
  - intros events cats. apply (classifyProjects_from_Ok_iff cb D store cc).
  - intros e. apply (classifyProjects_from_Throw_iff cb D store cc).
  - apply classifyProjects_from_returning.
Qed.

(** A callback that throws on the second of the three sample projects ends
    the classification there. *)
Lemma classifyProjects_outcome_witness :
  snd (Notifying.classifyProjects Notifying.failing_on_second
         (Samples.dependencies Samples.working_client Samples.full_disk) Samples.store
         Samples.projects (classification (Samples.report_config "https://sonar.example" None)))
  = Throw (new_Error "callback failed").
Proof.
  apply (proj2 (proj1 (proj2
    (classifyProjects_outcome Notifying.failing_on_second
       (Samples.dependencies Samples.working_client Samples.full_disk) Samples.store
       (classification (Samples.report_config "https://sonar.example" None))
       Samples.projects)) (new_Error "callback failed"))).
  exists [1%positive], 2%positive, [3%positive],
         [categorized_as 50 1%positive SIN_COVERAGE].
  split; [reflexivity|]. split; [reflexivity|].
  right. exists NO_PASA_MINIMO. split; reflexivity.
Defined.

Lemma notify_quiet (cb : Notifying.ProgressCallback) (ev : Event) :
  (forall r, ev <> OnComplete r) -> quiet (fst (Notifying.notify cb ev)).
Proof.
  intros H. unfold Notifying.notify. destruct (cb ev); [|constructor].
  repeat constructor. exact H.
Qed.

Lemma classifyProjects_from_notifying_quiet (cb : Notifying.ProgressCallback)
    (D : Dependencies) (store : Store) (cc : ClassificationConfig.t) (total : nat)
    (projects : list ProjectRef) :
  forall index, quiet (fst (Notifying.classifyProjects_from cb D store cc total index projects)).
Proof.
  induction projects as [|p projects IH]; intros index; [constructor|].
  cbn [Notifying.classifyProjects_from]. apply quiet_bind.
  - unfold Notifying.classifyProject. apply quiet_bind; [apply quiet_call; discriminate|].
    intros category. apply quiet_bind; [apply notify_quiet; discriminate|].
    intros _. apply quiet_ret.
  - intros categorized. apply quiet_bind; [apply IH|]. intros others. apply quiet_ret.
Qed.

Lemma ends_with_onComplete_bind {A} (cb : Notifying.ProgressCallback) (m : Run.t A)
    (f : A -> Run.t ReportResult) :
  quiet (fst m) ->
  (forall a, Notifying.ends_with_onComplete cb (f a)) ->
  Notifying.ends_with_onComplete cb (m ≫= f).
Proof.
  intros Hm Hf. destruct m as [events [a|e]]; unfold mbind, run_bind; cbn in *;
    [|left; exact Hm].
  specialize (Hf a). destruct (f a) as [later [r|e]]; cbn in *.
  - destruct Hf as (before & Hq & -> & Hr). exists (events ++ before)%list.
    split; [apply List.Forall_app; split; assumption|]. split; [now rewrite app_assoc|exact Hr].
  - destruct Hf as [Hq|(before & r & Hq & -> & Hr)].
    + left. apply List.Forall_app. split; assumption.
    + right. exists (events ++ before)%list, r.
      split; [apply List.Forall_app; split; assumption|]. split; [now rewrite app_assoc|exact Hr].
Qed.

Lemma generateReport_try_ends_with_onComplete (cb : Notifying.ProgressCallback)
    (D : Dependencies) (store : Store) (config : ReportConfig) :
  Notifying.ends_with_onComplete cb (Notifying.generateReport_try cb D store config).
Proof.
  unfold Notifying.generateReport_try.
  apply ends_with_onComplete_bind; [destruct (validateConfig D config); constructor|].
  intros _.
  apply ends_with_onComplete_bind; [apply quiet_call; discriminate|]. intros _.
  apply ends_with_onComplete_bind; [apply notify_quiet; discriminate|]. intros _.
  apply ends_with_onComplete_bind; [apply quiet_call; discriminate|]. intros projects.
  apply ends_with_onComplete_bind; [apply applyFilters_from_quiet|]. intros filtered.
  apply ends_with_onComplete_bind; [apply notify_quiet; discriminate|]. intros _.
  apply ends_with_onComplete_bind; [apply classifyProjects_from_notifying_quiet|].
  intros cats.
  apply ends_with_onComplete_bind; [apply notify_quiet; discriminate|]. intros _.
  apply ends_with_onComplete_bind; [apply quiet_call; discriminate|]. intros csvText.
  apply ends_with_onComplete_bind.
  - destruct (outputPath config) as [path|]; [|constructor].
    destruct (String.eqb path ""); [constructor|apply quiet_call; discriminate].
  - intros _. unfold mbind, run_bind, Run.bind, Notifying.notify, Run.call, Run.ret.
    set (result := {| csvContent := csvText |}).
    unfold Notifying.ends_with_onComplete, Notifying.notified, Notifying.returns.
    destruct (cb (OnComplete result)) as [[[]|e]|] eqn:E; cbn.
    + exists []. split; [constructor|]. rewrite E. split; [reflexivity|discriminate].
    + right. exists [], result. split; [constructor|]. split; [reflexivity|exact E].
    + exists []. split; [constructor|]. rewrite E. split; [reflexivity|discriminate].
Qed.

(** X14: [generateReport] notifies [onComplete] last or not at all.  A run
    that returns a report has notified [onComplete], when that callback is
    given, as the last thing and of that very report, and the callback
    returned.  A run that throws has notified [onComplete] only if it is
    that callback that threw, after everything else was done, and the run
    then throws what the callback threw, wrapped.  With callbacks that
    return the run is the one of [DefaultReportOrchestrator]. *)
Theorem onComplete_is_last (cb : Notifying.ProgressCallback) (D : Dependencies)
    (store : Store) (config : ReportConfig) :
  match Notifying.generateReport cb D store config with
  | (events, Ok r) =>
      exists before,
        quiet before /\
        events = (before ++ Notifying.notified cb (OnComplete r))%list /\
        Notifying.returns cb (OnComplete r)
  | (events, Throw e) =>
      quiet events \/
      exists before r error,
        quiet before /\ events = (before ++ [OnComplete r])%list /\
        cb (OnComplete r) = Some (Throw error) /\
        e = wrapError error phase_generate
  end /\
  Notifying.generateReport Notifying.returning D store config
  = generateReport D store config.
Proof.
  split; [|apply generateReport_returning].
  pose proof (generateReport_try_ends_with_onComplete cb D store config) as H.
  unfold Notifying.generateReport, Run.try_catch, Run.throw.
  destruct (Notifying.generateReport_try cb D store config) as [events [r|error]];
    cbn in *; [exact H|].
  rewrite app_nil_r. destruct H as [H|(before & r & Hq & -> & Hr)]; [now left|].
  right. exists before, r, error. auto.
Qed.

(** A callback whose [onComplete] throws makes a run fail that has
    generated and written the report. *)
Example failing_onComplete_fails_run :
  snd (Notifying.generateReport Notifying.failing_onComplete
         (Samples.dependencies Samples.working_client working_disk) Samples.store
         (Samples.report_config "https://sonar.example" (Some "report.csv")))
  = Throw (wrapError (new_Error "callback failed") phase_generate) /\
  List.filter is_write
    (fst (Notifying.generateReport Notifying.failing_onComplete
            (Samples.dependencies Samples.working_client working_disk) Samples.store
            (Samples.report_config "https://sonar.example" (Some "report.csv"))))
  = [CallWriteToFile Samples.scenario_csv "report.csv"].
Proof. split; vm_compute; reflexivity. Qed.

End NotifyingProofs.

(** ** More on the CSV reporter *)

Module ReporterExtraProofs.
Import Builtins PapaparseCsvReporter ReporterProofs.


Section Generate.
Variable Number_toString : float -> string.




(** X22: the row made for a project when no column mapping is given.  Its
    properties are named by the first three headers and assigned in the
    order name, coverage, category, so on equal headers the later value
    replaces the earlier, and the row has no other property; a header that
    is missing from a list of fewer than three is the property name
    [undefined]. *)
Theorem row_later_header_wins (config : MergedCsvConfig) (item : JsValue)
    (coverage : string) :
  m_columnMapping config = [] ->
  formatCoverage Number_toString (get (get item "project") "coveragePercent")
    (m_numberFormat config) = Ok coverage ->
  exists row,
    transform_item Number_toString config item = Ok row /\
    row !! header_key config 2 = Some (string_value (get item "category")) /\
    (header_key config 1 <> header_key config 2 ->
     row !! header_key config 1 = Some coverage) /\
    (header_key config 0 <> header_key config 1 ->
     header_key config 0 <> header_key config 2 ->
     row !! header_key config 0 = Some (string_value (get (get item "project") "name"))) /\
    (forall k, k <> header_key config 0 -> k <> header_key config 1 ->
               k <> header_key config 2 -> row !! k = None) /\
    (forall i, length (m_headers config) <= i -> header_key config i = "undefined").
Proof.
  intros Hm Hc. unfold transform_item. rewrite Hc, Hm. cbn [bind length Nat.ltb Nat.leb].
  eexists. split; [reflexivity|]. split; [apply lookup_insert_eq|].
  split; [|split; [|split]].
  - intros H12. rewrite lookup_insert_ne by congruence. apply lookup_insert_eq.
  - intros H01 H02. rewrite !lookup_insert_ne by congruence. apply lookup_insert_eq.
  - intros k H0 H1 H2. rewrite !lookup_insert_ne by congruence. apply lookup_empty.
  - intros i Hi. unfold header_key. now apply nth_overflow.
Qed.

End Generate.

Lemma row_later_header_wins_witness :
  match transform_item Samples.big_number_text (merge (Some ReporterMore.one_header))
          ReporterMore.project_a with
  | Ok row =>
      row !! "repository" = Some "project-a" /\
      row !! "undefined" = Some "Si pasa el mínimo esperado" /\
      row !! "coverage_percent" = None
  | Throw _ => False
  end.
Proof.
  destruct (row_later_header_wins Samples.big_number_text
              (merge (Some ReporterMore.one_header)) ReporterMore.project_a "75.50"
              eq_refl ltac:(vm_compute; reflexivity))
    as (row & Hrow & H2 & _ & H0 & Hnone & _).
  rewrite Hrow. split; [|split].
  - apply H0; vm_compute; discriminate.
  - exact H2.
  - apply Hnone; vm_compute; discriminate.
Defined.

End ReporterExtraProofs.

(** ** The SonarQube client *)

Module ClientProofs.
Import FilterStrategiesMore FetchSonarQubeClient.

Section Dates.
Variable Date_now : float.
Variable ISO_date : float -> string.

(** X23: [AnalyzedDateQueryFilter.buildQuery] never asks for a lower bound:
    the parameters it returns are empty or the single [analyzedBefore].
    The value of [from] is never used, only whether it is there: with [to]
    the result is that of [to] alone, and without [to] the bound is the
    current date. *)
Theorem analyzed_filter_only_before (from to : option float) :
  (forall params,
     buildQuery Date_now ISO_date from to = Ok params ->
     params = [] \/ exists s, params = [("analyzedBefore", JString s)]) /\
  (forall d d', buildQuery Date_now ISO_date (Some d) to
                = buildQuery Date_now ISO_date (Some d') to) /\
  (forall date,
     buildQuery Date_now ISO_date from (Some date)
     = bind (formatDateForApi ISO_date date) (fun s =>
       Ok [("analyzedBefore", JString s)])) /\
  (forall d,
     buildQuery Date_now ISO_date (Some d) None
     = bind (formatDateForApi ISO_date Date_now) (fun s =>
       Ok [("analyzedBefore", JString s)])) /\
  buildQuery Date_now ISO_date None None = Ok [].
Proof.
  split; [|split; [reflexivity|split; [|split; [|reflexivity]]]].
  - intros params. unfold buildQuery.
    destruct from as [d|], to as [date|]; cbv [default from_option id];
      try (destruct (formatDateForApi ISO_date date) as [s|e]; cbn; [|discriminate]);
      try (destruct (formatDateForApi ISO_date Date_now) as [s|e]; cbn; [|discriminate]);
      intros H; inversion H; eauto.
  - intros date. unfold buildQuery.
    destruct from as [d|]; cbv [default from_option id];
      destruct (formatDateForApi ISO_date date) as [s|e]; reflexivity.
  - intros d. unfold buildQuery. cbv [default from_option id].
    destruct (formatDateForApi ISO_date Date_now) as [s|e]; reflexivity.
Qed.

End Dates.

Lemma own_property_set (o : Params) (k k' : string) (v : JsValue) :
  own_property (set_property o k v) k'
  = if String.eqb k k' then v else own_property o k'.
Proof.
  induction o as [|[k0 v0] o IH]; cbn.
  - destruct (String.eqb k k'); reflexivity.
  - destruct (String.eqb_spec k0 k) as [->|Hne]; cbn.
    + destruct (String.eqb k k'); reflexivity.
    + rewrite IH. destruct (String.eqb_spec k k') as [->|Hne'].
      * destruct (String.eqb_spec k0 k'); [congruence|reflexivity].
      * reflexivity.
Qed.

Lemma own_property_assign (source : Params) : forall (target : Params) (k : string),
  own_property (Object_assign target source) k
  = last_value source k (own_property target k).
Proof.
  unfold Object_assign, last_value.
  induction source as [|[k0 v0] source IH]; intros target k; [reflexivity|].
  cbn [fold_left fst snd]. rewrite IH, own_property_set. reflexivity.
Qed.

Lemma set_property_keys (o : Params) (k : string) (v : JsValue) :
  map fst (set_property o k v)
  = if existsb (String.eqb k) (map fst o) then map fst o else (map fst o ++ [k])%list.
Proof.
  induction o as [|[k0 v0] o IH]; cbn; [reflexivity|].
  rewrite (String.eqb_sym k k0).
  destruct (String.eqb k0 k); cbn; [reflexivity|].
  rewrite IH. destruct (existsb (String.eqb k) (map fst o)); reflexivity.
Qed.

Lemma set_property_NoDup (o : Params) (k : string) (v : JsValue) :
  List.NoDup (map fst o) -> List.NoDup (map fst (set_property o k v)).
Proof.
  intros H. rewrite set_property_keys.
  destruct (existsb (String.eqb k) (map fst o)) eqn:E; [exact H|].
  apply NoDup_ListNoDup. apply NoDup_app. split; [now apply NoDup_ListNoDup|].
  split; [|apply NoDup_singleton].
  intros x Hx Hk. apply list_elem_of_singleton in Hk. subst x.
  apply list_elem_of_In in Hx.
  assert (existsb (String.eqb k) (map fst o) = true); [|congruence].
  apply existsb_exists. exists k. split; [exact Hx|apply String.eqb_refl].
Qed.

Lemma Object_assign_NoDup (source : Params) : forall target,
  List.NoDup (map fst target) -> List.NoDup (map fst (Object_assign target source)).
Proof.
  unfold Object_assign.
  induction source as [|[k v] source IH]; intros target H; [exact H|].
  cbn [fold_left]. apply IH. now apply set_property_NoDup.
Qed.

Lemma combine_loop_Ok (params : list Params) : forall combined,
  combine_loop (map (fun p => {| getApiParams := Ok p |}) params) combined
  = Ok (fold_left Object_assign params combined).
Proof.
  induction params as [|p params IH]; intros combined; [reflexivity|].
  cbn. apply IH.
Qed.

(** X24: [combineFilterParams] on filters that return their parameters:
    the combined object has, under every name, the value of the last
    property of that name over all the filters in order, so a later filter
    replaces what an earlier one set (of two name filters only the second
    pattern is sent); every name occurs once.  It throws what the first
    failing filter throws. *)
Theorem combine_last_filter_wins (params : list Params) (k : string) :
  (exists combined,
     combineFilterParams (map (fun p => {| getApiParams := Ok p |}) params) = Ok combined /\
     own_property combined k = last_value (concat params) k JUndefined /\
     List.NoDup (map fst combined)) /\
  (forall p1 p2,
     combineFilterParams [ProjectNameQueryFilter p1; ProjectNameQueryFilter p2]
     = Ok [("q", JString p2)]) /\
  (forall (before : list Params) (e : JsValue) (rest : list QueryFilter),
     combineFilterParams
       (map (fun p => {| getApiParams := Ok p |}) before
        ++ {| getApiParams := Throw e |} :: rest)%list
     = Throw e).
Proof.
  split; [|split].
  - unfold combineFilterParams. rewrite combine_loop_Ok. eexists. split; [reflexivity|].
    split.
    + change JUndefined with (own_property [] k).
      generalize (@nil (string * JsValue)) as combined.
      induction params as [|p params IH]; intros combined; [reflexivity|].
      cbn [fold_left concat]. rewrite IH, own_property_assign.
      unfold last_value. now rewrite fold_left_app.
    + assert (H : List.NoDup (map fst (@nil (string * JsValue)))) by constructor.
      revert H. generalize (@nil (string * JsValue)) as combined.
      induction params as [|p params IH]; intros combined H; [exact H|].
      cbn [fold_left]. apply IH. now apply Object_assign_NoDup.
  - intros p1 p2. reflexivity.
  - intros before e rest. unfold combineFilterParams.
    generalize (@nil (string * JsValue)) as combined.
    induction before as [|p before IH]; intros combined; [reflexivity|].
    cbn. apply IH.
Qed.

Section Measures.
Variable parseFloat : JsValue -> float.

Lemma find_coverage_step (measure : JsValue) (rest : list JsValue) :
  passed_over measure ->
  find_coverage (measure :: rest) = find_coverage rest.
Proof.
  intros (metric & Hm & Hne). cbn [find_coverage]. rewrite Hm. cbn [bind].
  destruct metric as [| | | |m| | | |]; try reflexivity.
  destruct (String.eqb_spec m "coverage") as [->|]; [congruence|reflexivity].
Qed.

Lemma find_coverage_first (before after : list JsValue) (m : JsValue) :
  List.Forall passed_over before ->
  get_property m "metric" = Ok (JString "coverage") ->
  find_coverage (before ++ m :: after) = Ok m.
Proof.
  intros Hb Hm. induction Hb as [|x before Hx _ IH]; cbn [app].
  - cbn [find_coverage]. rewrite Hm. reflexivity.
  - now rewrite find_coverage_step.
Qed.

Lemma find_coverage_none (items : list JsValue) :
  List.Forall passed_over items -> find_coverage items = Ok JUndefined.
Proof.
  intros H. induction H as [|x items Hx _ IH]; [reflexivity|].
  rewrite find_coverage_step by exact Hx. exact IH.
Qed.

Lemma find_coverage_found (items : list JsValue) (m : JsValue) :
  find_coverage items = Ok m ->
  m = JUndefined \/ (In m items /\ get m "metric" = JString "coverage").
Proof.
  induction items as [|x items IH]; cbn [find_coverage].
  - intros H. inversion H. now left.
  - destruct (get_property x "metric") as [metric|e] eqn:Hx; [|discriminate]. cbn [bind].
    assert (Hrest : find_coverage items = Ok m ->
                    m = JUndefined \/ (In m (x :: items) /\ get m "metric" = JString "coverage")).
    { intros H. destruct (IH H) as [->|[Hin Hm]]; [now left|right].
      split; [now right|exact Hm]. }
    destruct metric as [| | | |s| | | |]; try exact Hrest.
    destruct (String.eqb_spec s "coverage") as [->|]; [|exact Hrest].
    intros H. inversion H; subst. right. split; [now left|].
    destruct m; try discriminate; cbn in Hx; inversion Hx; reflexivity.
Qed.

(** X25: [extractCoverageFromMeasures] returns 0 or [parseFloat] of the
    value of a measure whose metric is [coverage], unchecked (NaN
    included).  It is the first such measure that counts: when the
    measures before it are passed over, the result is made of its value
    alone, 0 when that is missing or falsy, whatever measures follow.  No
    measures and no coverage measure give 0. *)
Theorem coverage_of_first_measure (response component : JsValue) :
  get_property response "component" = Ok component ->
  (forall c,
     extractCoverageFromMeasures parseFloat response = Ok c ->
     c = 0%float
     \/ exists items m,
          get_optional component "measures" = JArray items /\
          In m items /\ get m "metric" = JString "coverage" /\
          truthy (get m "value") = true /\ c = parseFloat (get m "value")) /\
  (forall before m after,
     get_optional component "measures" = JArray (before ++ m :: after) ->
     List.Forall passed_over before ->
     get_property m "metric" = Ok (JString "coverage") ->
     extractCoverageFromMeasures parseFloat response
     = Ok (if truthy (get m "value") then parseFloat (get m "value") else 0%float)) /\
  (forall items,
     get_optional component "measures" = JArray items ->
     List.Forall passed_over items ->
     extractCoverageFromMeasures parseFloat response = Ok 0%float) /\
  (truthy (get_optional component "measures") = false ->
   extractCoverageFromMeasures parseFloat response = Ok 0%float).
Proof.
  intros Hc. unfold extractCoverageFromMeasures. rewrite Hc. cbn [bind].
  split; [|split; [|split]].
  - intros c. destruct (truthy (get_optional component "measures")); cbn [negb];
      [|intros H; inversion H; subst; left; reflexivity].
    destruct (get_optional component "measures") as [| | | | | | |items|]; try discriminate.
    destruct (find_coverage items) as [m|e] eqn:Hfind; [|discriminate]. cbn [bind].
    destruct (find_coverage_found _ _ Hfind) as [->|[Hin Hm]].
    + cbn. intros H. inversion H; subst. left; reflexivity.
    + assert (Hv : get_optional m "value" = get m "value").
      { destruct m; try discriminate; reflexivity. }
      rewrite Hv. destruct (truthy (get m "value")) eqn:Ht; cbn [negb];
        intros H; inversion H; subst; [right|left; reflexivity].
      exists items, m. auto.
  - intros before m after Hm Hb Hmetric. rewrite Hm. cbn [truthy negb].
    rewrite (find_coverage_first before after m Hb Hmetric). cbn [bind].
    assert (Hv : get_optional m "value" = get m "value").
    { destruct m; try discriminate; reflexivity. }
    rewrite Hv. destruct (truthy (get m "value")); reflexivity.
  - intros items Hm Hitems. rewrite Hm. cbn [truthy negb].
    rewrite (find_coverage_none items Hitems). reflexivity.
  - intros Hf. rewrite Hf. reflexivity.
Qed.

End Measures.

Lemma coverage_of_first_measure_witness :
  extractCoverageFromMeasures (fun _ => 81.5%float) ClientSamples.two_measures = Ok 0%float.
Proof.
  refine (proj1 (proj2
    (coverage_of_first_measure (fun _ => 81.5%float) ClientSamples.two_measures
       (JObject [("key", JString "fe-app");
                 ("measures",
                  JArray [JObject [("metric", JString "ncloc"); ("value", JString "1200")];
                          JObject [("metric", JString "coverage")];
                          JObject [("metric", JString "coverage");
                                   ("value", JString "81.5")]])])
       eq_refl))
    [JObject [("metric", JString "ncloc"); ("value", JString "1200")]]
    (JObject [("metric", JString "coverage")])
    [JObject [("metric", JString "coverage"); ("value", JString "81.5")]]
    eq_refl _ eq_refl).
  constructor; [|constructor].
  exists (JString "ncloc"). split; [reflexivity|discriminate].
Defined.

Lemma request_error_is_api_error (error : JsValue) :
  instanceof_SonarQubeApiError (request_error error) = true.
Proof.
  unfold request_error.
  destruct (instanceof_SonarQubeApiError error) eqn:E; [exact E|reflexivity].
Qed.

(** X26: [makeRequest] returns exactly the parsed body of a response whose
    [ok] flag is set; everything else (a rejected [fetch], a status that is
    not ok, a body that cannot be read) is thrown as a [SonarQubeApiError],
    and the body of a failed response is reported as text, never parsed.
    [fetchCoverage] returns what [extractCoverageFromMeasures] makes of the
    response and throws one message per project key whatever failed. *)
Theorem makeRequest_outcomes (outcome : FetchOutcome) :
  (forall response,
     makeRequest outcome = Ok response
     <-> exists status text, outcome = Responded true status text (Ok response)) /\
  (forall e, makeRequest outcome = Throw e -> instanceof_SonarQubeApiError e = true) /\
  (forall status errorText json,
     makeRequest (Responded false status (Ok errorText) json)
     = Throw (new_SonarQubeApiError
                ("HTTP " ++ NilEmpty.string_of_uint (N.to_uint status) ++ ": " ++ errorText))) /\
  (forall parseFloat projectKey,
     (forall c,
        fetchCoverage parseFloat projectKey outcome = Ok c
        <-> exists response,
              makeRequest outcome = Ok response /\
              extractCoverageFromMeasures parseFloat response = Ok c) /\
     (forall e,
        fetchCoverage parseFloat projectKey outcome = Throw e ->
        e = new_SonarQubeApiError ("Failed to fetch coverage for project " ++ projectKey))).
Proof.
  split; [|split; [|split; [reflexivity|]]].
  - intros response. split.
    + destruct outcome as [error|[] status text json]; cbn; try discriminate.
      * destruct json; [|discriminate]. intros H. inversion H; subst. eauto.
      * destruct text; discriminate.
    + intros (status & text & ->). reflexivity.
  - intros e. destruct outcome as [error|[] status text json]; cbn.
    + intros H. inversion H. apply request_error_is_api_error.
    + destruct json; [discriminate|]. intros H. inversion H.
      apply request_error_is_api_error.
    + destruct text; intros H; inversion H; [reflexivity|apply request_error_is_api_error].
  - intros parseFloat projectKey. unfold fetchCoverage. split.
    + intros c. destruct (makeRequest outcome) as [response|e]; cbn.
      * destruct (extractCoverageFromMeasures parseFloat response) as [c'|e] eqn:Hx.
        -- split; [intros H; inversion H; subst; eauto|].
           intros (r & Hr & Hc). inversion Hr; subst. congruence.
        -- split; [discriminate|]. intros (r & Hr & Hc). inversion Hr; subst. congruence.
      * split; [discriminate|]. intros (r & Hr & _). discriminate.
    + intros e. destruct (bind (makeRequest outcome) _); [discriminate|].
      intros H. inversion H. reflexivity.
Qed.

Section Transform.
Variable coverage_of : string -> Result float.
Variable metadata_of : string -> Result JsValue.
Variable Date_parse : string -> float.
Variable Date_now : nat -> float.

Lemma imap_Forall2 {A B} (R : A -> B -> Prop) (l : list A) : forall (f : nat -> A -> B),
  (forall i x, R x (f i x)) -> Forall2 R l (imap f l).
Proof.
  induction l as [|x l IH]; intros f H; cbn; constructor; [apply H|].
  apply IH. intros i y. apply H.
Qed.

(** X28: [transformProjectsResponse] makes one project per component, in
    order, with the component's name and key, and none when the response
    has no components.  A project has the fetched coverage and metadata
    when both requests succeed; when either fails, a fetched coverage
    included, its coverage is 0, which the classifier reports as [Sin
    coverage] under every threshold. *)
Theorem transform_degrades_to_zero (components : list Component) :
  transformProjectsResponse coverage_of metadata_of Date_parse Date_now None = [] /\
  Forall2
    (fun c p =>
       name p = c_name c /\ key p = c_key c /\
       match coverage_of (c_key c), metadata_of (c_key c) with
       | Ok coverage, Ok details => coveragePercent p = coverage /\ metadata p = details
       | _, _ =>
           coveragePercent p = 0%float /\
           forall t,
             SpanishCoverageClassifier.classify (JNumber (coveragePercent p)) t
             = Ok SIN_COVERAGE
       end)
    components
    (transformProjectsResponse coverage_of metadata_of Date_parse Date_now (Some components)).
Proof.
  split; [reflexivity|]. cbn [transformProjectsResponse].
  apply imap_Forall2. intros i c. unfold project_of.
  destruct (coverage_of (c_key c)) as [coverage|e];
    [destruct (metadata_of (c_key c)) as [details|e]|]; cbn;
    repeat split; intros t; rewrite ClassifierProofs.classify_valid by reflexivity;
    reflexivity.
Qed.

End Transform.

End ClientProofs.

(** ** Authentication, from the client to the report *)

Module AuthenticationProofs.
Import FilterStrategiesMore.

Lemma authenticate_Ok (outcome : FetchSonarQubeClient.FetchOutcome) :
  FetchSonarQubeClient.authenticate outcome = Ok tt
  <-> exists status text response,
        outcome = FetchSonarQubeClient.Responded true status text (Ok response) /\
        truthy (get response "valid") = true.
Proof.
  unfold FetchSonarQubeClient.authenticate. split.
  - destruct outcome as [error|[] status text json]; cbn; try discriminate.
    + destruct json as [response|e]; cbn; [|discriminate].
      destruct response; cbn; try discriminate;
        match goal with
        | |- context [truthy ?v] => destruct (truthy v) eqn:Hv; cbn; try discriminate
        end; intros _; eauto 6.
    + destruct text; discriminate.
  - intros (status & text & response & -> & Hv). cbn.
    destruct response; cbn in *; try discriminate; rewrite Hv; reflexivity.
Qed.

Lemma authenticate_Throw (outcome : FetchSonarQubeClient.FetchOutcome) :
  FetchSonarQubeClient.authenticate outcome <> Ok tt ->
  FetchSonarQubeClient.authenticate outcome
  = Throw (FetchSonarQubeClient.new_SonarQubeApiError "Failed to authenticate with SonarQube").
Proof.
  unfold FetchSonarQubeClient.authenticate.
  destruct (bind (FetchSonarQubeClient.makeRequest outcome) _) as [[]|e]; [contradiction|reflexivity].
Qed.

(** X27: [authenticate] succeeds exactly when the validation request is
    answered with an ok status and a body whose [valid] is truthy.  In
    every other case it throws one and the same error, its own
    [Authentication validation failed] included, which its [catch] block
    replaces; so a report whose client has this behaviour fails, after
    that one call, with a message that does not tell an invalid token from
    a network failure. *)
Theorem authenticate_outcomes (outcome : FetchSonarQubeClient.FetchOutcome) :
  (FetchSonarQubeClient.authenticate outcome = Ok tt
   <-> exists status text response,
         outcome = FetchSonarQubeClient.Responded true status text (Ok response) /\
         truthy (get response "valid") = true) /\
  (FetchSonarQubeClient.authenticate outcome <> Ok tt ->
   FetchSonarQubeClient.authenticate outcome
   = Throw (FetchSonarQubeClient.new_SonarQubeApiError "Failed to authenticate with SonarQube")) /\
  (forall D store config,
     DefaultReportOrchestrator.validateConfig D config = Ok true ->
     authenticate (DefaultReportOrchestrator.client D) (token (sonarqube config))
       = FetchSonarQubeClient.authenticate outcome ->
     FetchSonarQubeClient.authenticate outcome <> Ok tt ->
     DefaultReportOrchestrator.generateReport D store config
     = ([CallAuthenticate (token (sonarqube config))],
        Throw (JObject
                 [("name", JString "ReportError");
                  ("message",
                   JString "Error in generate phase: Failed to authenticate with SonarQube");
                  ("phase", JString "generate");
                  ("cause", JError "SonarQubeApiError"
                              "Failed to authenticate with SonarQube")]))).
Proof.
  split; [apply authenticate_Ok|]. split; [apply authenticate_Throw|].
  intros D store config Hv Hclient Hfail.
  rewrite (authenticate_Throw outcome Hfail) in Hclient.
  rewrite (OrchestratorProofs.authenticate_failure_stops D store config _ Hv Hclient).
  reflexivity.
Qed.

End AuthenticationProofs.

(** ** The command line *)

Module CliProofs.
Import DefaultReportOrchestrator Cli.

Section ParseArgs.
Variable parseFloat : string -> float.

(** A property of the arguments read so far that every step of the loop
    keeps is a property of what the loop returns. *)
Lemma parse_loop_invariant (Q : PartialArgs -> Prop) :
  (forall a v, Q a -> not_a_value v = false ->
     Q {| a_sonarUrl := Some v; a_sonarToken := a_sonarToken a;
          a_threshold := a_threshold a; a_output := a_output a; a_help := a_help a |}) ->
  (forall a v, Q a -> not_a_value v = false ->
     Q {| a_sonarUrl := a_sonarUrl a; a_sonarToken := Some v;
          a_threshold := a_threshold a; a_output := a_output a; a_help := a_help a |}) ->
  (forall a v, Q a -> not_a_value v = false ->
     (PrimFloat.is_nan (parseFloat v) || PrimFloat.ltb (parseFloat v) 0
      || PrimFloat.ltb 100 (parseFloat v)) = false ->
     Q {| a_sonarUrl := a_sonarUrl a; a_sonarToken := a_sonarToken a;
          a_threshold := Some (parseFloat v); a_output := a_output a;
          a_help := a_help a |}) ->
  (forall a v, Q a -> not_a_value v = false ->
     Q {| a_sonarUrl := a_sonarUrl a; a_sonarToken := a_sonarToken a;
          a_threshold := a_threshold a; a_output := Some v; a_help := a_help a |}) ->
  (forall a, Q a ->
     Q {| a_sonarUrl := a_sonarUrl a; a_sonarToken := a_sonarToken a;
          a_threshold := a_threshold a; a_output := a_output a; a_help := Some true |}) ->
  forall argv args args',
    Q args -> parse_loop parseFloat argv args = Ok args' -> Q args'.
Proof.
  intros Hu Ht HT Ho Hh argv.
  assert (H : forall n argv, length argv <= n ->
              forall args args', Q args -> parse_loop parseFloat argv args = Ok args' ->
                                 Q args').
  { induction n as [|n IH]; intros l Hlen args args' HQ Hrun.
    - destruct l; [|cbn in Hlen; lia]. inversion Hrun; subst. exact HQ.
    - destruct l as [|arg rest]; [inversion Hrun; subst; exact HQ|].
      cbn [length] in Hlen. cbn [parse_loop] in Hrun.
      repeat match type of Hrun with
             | (if ?c then _ else _) = _ => destruct c eqn:?
             | match ?r with [] => _ | _ :: _ => _ end = _ =>
                 destruct r as [|nextArg rest']; [discriminate|]; cbn [length] in Hlen
             | Throw _ = Ok _ => discriminate
             end;
        (refine (IH _ _ _ _ _ Hrun); [lia|eauto]). }
  intros args args'. apply (H (length argv)). lia.
Qed.

Lemma checked_threshold (t : float) :
  (PrimFloat.is_nan t || PrimFloat.ltb t 0 || PrimFloat.ltb 100 t) = false ->
  PrimFloat.ltb 0 (if truthy (JNumber t) then t else 50%float) = true /\
  PrimFloat.leb (if truthy (JNumber t) then t else 50%float) 100 = true.
Proof.
  rewrite !orb_false_iff. intros [[Hn H0] H100].
  apply (FilterExtraProofs.not_ltb_iff_leb t 0 Hn eq_refl) in H0.
  apply (FilterExtraProofs.not_ltb_iff_leb 100 t eq_refl Hn) in H100.
  cbn [truthy]. unfold Number_isNaN. rewrite Hn, orb_false_r.
  destruct (PrimFloat.eqb t 0) eqn:Hz; cbn [negb].
  - split; reflexivity.
  - split; [|exact H100]. now apply ClassifierProofs.positive_iff_nonzero.
Qed.

(** X29: the threshold that [parseArgs] returns is above 0 and at most
    100.  The loop accepts a threshold within 0 and 100, but the result is
    made with [args.threshold || 50], which replaces an accepted 0 by 50: no
    command line sets the threshold 0. *)
Theorem parseArgs_threshold_never_zero (argv : list string) (args : CliArgs) :
  parseArgs parseFloat argv = Ok args ->
  PrimFloat.ltb 0 (cli_threshold args) = true /\
  PrimFloat.leb (cli_threshold args) 100 = true.
Proof.
  unfold parseArgs.
  destruct (parse_loop parseFloat (skipn 2 argv) no_args) as [read|e] eqn:Hloop;
    [|discriminate].
  cbn [bind]. intros H. inversion H; subst. clear H. cbn [cli_threshold].
  assert (Hchecked : forall t, a_threshold read = Some t ->
            (PrimFloat.is_nan t || PrimFloat.ltb t 0 || PrimFloat.ltb 100 t) = false).
  { apply (parse_loop_invariant
             (fun a => forall t, a_threshold a = Some t ->
                (PrimFloat.is_nan t || PrimFloat.ltb t 0 || PrimFloat.ltb 100 t) = false))
      with (argv := skipn 2 argv) (args := no_args); try exact Hloop; cbn; auto.
    - intros a v _ _ Hv t Ht. inversion Ht; subst. exact Hv.
    - discriminate. }
  destruct (a_threshold read) as [t|]; [|split; reflexivity].
  apply checked_threshold. now apply Hchecked.
Qed.

End ParseArgs.

Lemma parseArgs_threshold_never_zero_witness :
  parseArgs (fun _ => 0%float) threshold_zero = Ok threshold_zero_args /\
  PrimFloat.ltb 0 (cli_threshold threshold_zero_args) = true /\
  PrimFloat.leb (cli_threshold threshold_zero_args) 100 = true.
Proof.
  split; [reflexivity|].
  exact (parseArgs_threshold_never_zero (fun _ => 0%float) threshold_zero
           threshold_zero_args eq_refl).
Defined.

Section Main.
Variable parseFloat : string -> float.
Variables SONAR_URL SONAR_TOKEN : option string.
Variable URL_valid : string -> bool.
Variable readings : Clock.
Variable store : Store.




End Main.


End CliProofs.
